(** * Jayz Wayz: the workflow core, embedded and verified

    A shallow embedding of the Python package [jayz_wayz]: the graph
    runner ([langgraph_core.py]), the state dataclass ([state.py]), the
    policy enforcers ([policy.py]), the checkpoint store
    ([checkpoint.py]), the supervisor facade ([supervisor.py]), the
    FIPA-ACL messages ([fipa.py]) and the nodes of the library
    ([nodes.py]).

    Python objects are mutable and shared, so a [GraphState] lives in a
    heap and is passed around by reference; exceptions leave the
    mutations made before them in place, so computations are functions
    from a state to a result-or-exception together with the state
    reached.  The event loop runs one coroutine of a run at a time, so a
    run is modelled sequentially. *)

From Stdlib Require Import String Ascii List ZArith QArith Bool Arith Lia.
From Stdlib Require Import Permutation Sorted DecimalString.
From Stdlib Require OrderedTypeEx.
Import ListNotations.

Set Warnings "-register-all".

#[local] Open Scope string_scope.
#[local] Open Scope Z_scope.
#[local] Open Scope list_scope.

(** String concatenation, as produced by f-strings. *)
Infix "+:+" := String.append (at level 60, right associativity).

(* ================================================================= *)
(** ** Python values, exceptions and effects *)

Module Py.

(** The values that survive [json.dump] / [json.load]: the documents the
    checkpoint store reads and writes, the metadata maps, the messages,
    and what the policy server answers.  Numbers are integers, the only
    numbers this code writes.  A Python [dict] is an association list in
    insertion order; its keys are distinct. *)
Inductive Json : Type :=
| JNull
| JBool (b : bool)
| JNum (n : Z)
| JStr (s : string)
| JArr (xs : list Json)
| JObj (kvs : list (string * Json)).

Definition Dict (A : Type) : Type := list (string * A).

(** [d.get(k)] on the association list: the first binding of [k]. *)
Fixpoint dict_get {A : Type} (k : string) (d : Dict A) : option A :=
  match d with
  | [] => None
  | (k', v) :: d' => if String.eqb k k' then Some v else dict_get k d'
  end.

(** [d[k] = v]: an existing key keeps its place, a new one goes last. *)
Fixpoint dict_set {A : Type} (k : string) (v : A) (d : Dict A) : Dict A :=
  match d with
  | [] => [(k, v)]
  | (k', v') :: d' =>
      if String.eqb k k' then (k, v) :: d' else (k', v') :: dict_set k v d'
  end.

(** [del d[k]], for a key that may be absent. *)
Fixpoint dict_remove {A : Type} (k : string) (d : Dict A) : Dict A :=
  match d with
  | [] => []
  | (k', v') :: d' =>
      if String.eqb k k' then d' else (k', v') :: dict_remove k d'
  end.

(** [list(d.keys())] *)
Definition keys {A : Type} (d : Dict A) : list string := map fst d.

(** Truth value of a Python object, as [if x:] and [x or y] test it. *)
Definition truthy (v : Json) : bool :=
  match v with
  | JNull => false
  | JBool b => b
  | JNum n => negb (n =? 0)
  | JStr s => negb (String.eqb s EmptyString)
  | JArr xs => match xs with [] => false | _ => true end
  | JObj kvs => match kvs with [] => false | _ => true end
  end.

(** Truth value of an [Optional[str]]. *)
Definition truthy_str (o : option string) : bool :=
  match o with
  | None => false
  | Some s => negb (String.eqb s EmptyString)
  end.

(** An [Optional[str]] as a JSON value: [None] is [null]. *)
Definition of_opt_str (o : option string) : Json :=
  match o with
  | None => JNull
  | Some s => JStr s
  end.

(** The exception classes this code raises or names in an [except]
    clause.  Every one derives from [Exception]; [BaseException]s that do
    not (task cancellation, keyboard interrupt) are outside the model.
    [TimeoutError] is [asyncio.TimeoutError], the built-in
    [TimeoutError], which an [except OSError] catches too; [IOError]
    stands for [OSError] and all else that derives from it. *)
Inductive ExnClass : Type :=
| TimeoutError
| ClientError
| JSONDecodeError
| IOError
| TypeError
| AttributeError
| KeyError
| ValueError
| RuntimeError.

(** An exception object: its class and [str(e)]. *)
Record exn : Type := Exn { exn_class : ExnClass; exn_str : string }.

Definition is_timeout (e : exn) : bool :=
  match exn_class e with TimeoutError => true | _ => false end.

(** The outcome of a call: it returns a value or raises. *)
Inductive Res (A : Type) : Type :=
| Ok (a : A)
| Raise (e : exn).
Arguments Ok {A} a.
Arguments Raise {A} e.

(** A computation over a mutable state [St].  The state reached is
    returned in both outcomes: a raise does not undo what was done. *)
Definition M (St A : Type) : Type := St -> Res A * St.

Definition ret {St A : Type} (a : A) : M St A := fun s => (Ok a, s).

Definition bind {St A B : Type} (m : M St A) (k : A -> M St B) : M St B :=
  fun s =>
    match m s with
    | (Ok a, s') => k a s'
    | (Raise e, s') => (Raise e, s')
    end.

Definition raise {St A : Type} (e : exn) : M St A := fun s => (Raise e, s).

(** [try: m  except Exception as e: h e] *)
Definition try_except {St A : Type} (m : M St A) (h : exn -> M St A) : M St A :=
  fun s =>
    match m s with
    | (Ok a, s') => (Ok a, s')
    | (Raise e, s') => h e s'
    end.

Definition gets {St A : Type} (f : St -> A) : M St A := fun s => (Ok (f s), s).

Definition modify {St : Type} (f : St -> St) : M St unit := fun s => (Ok tt, f s).

(** [type(v).__name__] *)
Definition type_name (v : Json) : string :=
  match v with
  | JNull => "NoneType"
  | JBool _ => "bool"
  | JNum _ => "int"
  | JStr _ => "str"
  | JArr _ => "list"
  | JObj _ => "dict"
  end.

(** [v.get(k, default)]: only a [dict] has the method. *)
Definition py_get (v : Json) (k : string) (default : Json) : Res Json :=
  match v with
  | JObj kvs =>
      match dict_get k kvs with
      | Some x => Ok x
      | None => Ok default
      end
  | _ => Raise (Exn AttributeError
                  ("'" +:+ type_name v +:+ "' object has no attribute 'get'"))
  end.

(** [str(n)] for an [int]. *)
Definition str_of_int (n : Z) : string := NilZero.string_of_int (Z.to_int n).

End Py.
Import Py.

Declare Scope py_scope.
Delimit Scope py_scope with py.
Notation "x <- m ;; k" := (Py.bind m (fun x => k))
  (at level 100, m at next level, right associativity) : py_scope.
Notation "m ;;; k" := (Py.bind m (fun _ => k))
  (at level 100, right associativity) : py_scope.

#[local] Open Scope py_scope.

(* ================================================================= *)
(** ** state.py: the [GraphState] dataclass *)

Module State.

Record GraphState : Type := mkGraphState {
  conversation_id : string;
  messages : list (Dict Json);
  metadata : Dict Json;
  checkpoints : list string;
  current_step : option string;
  error : option string
}.

(** [GraphState(conversation_id=cid)]: every other field at its default. *)
Definition new (cid : string) : GraphState :=
  mkGraphState cid [] [] [] None None.

(** Attribute assignment, field by field. *)
Definition with_current_step (v : option string) (s : GraphState) : GraphState :=
  mkGraphState (conversation_id s) (messages s) (metadata s) (checkpoints s)
               v (error s).

Definition with_error (v : option string) (s : GraphState) : GraphState :=
  mkGraphState (conversation_id s) (messages s) (metadata s) (checkpoints s)
               (current_step s) v.

(** [state.metadata[k] = v] *)
Definition with_metadata_item (k : string) (v : Json) (s : GraphState) : GraphState :=
  mkGraphState (conversation_id s) (messages s) (dict_set k v (metadata s))
               (checkpoints s) (current_step s) (error s).

(** [self.messages.append(message)] *)
Definition add_message (message : Dict Json) (s : GraphState) : GraphState :=
  mkGraphState (conversation_id s) (messages s ++ [message]) (metadata s)
               (checkpoints s) (current_step s) (error s).

(** [self.checkpoints.append(checkpoint_id)] *)
Definition add_checkpoint (checkpoint_id : string) (s : GraphState) : GraphState :=
  mkGraphState (conversation_id s) (messages s) (metadata s)
               (checkpoints s ++ [checkpoint_id]) (current_step s) (error s).

Definition to_dict (s : GraphState) : Json :=
  JObj [ ("conversation_id", JStr (conversation_id s));
         ("messages", JArr (map JObj (messages s)));
         ("metadata", JObj (metadata s));
         ("checkpoints", JArr (map JStr (checkpoints s)));
         ("current_step", of_opt_str (current_step s));
         ("error", of_opt_str (error s)) ].

(** Reading a JSON value back at the type a field is declared with.  The
    dataclass checks nothing at run time; a value of another type cannot
    be held by the typed record, and the readers answer [None] for it. *)
Definition as_str (v : Json) : option string :=
  match v with JStr s => Some s | _ => None end.

Definition as_opt_str (v : Json) : option (option string) :=
  match v with
  | JNull => Some None
  | JStr s => Some (Some s)
  | _ => None
  end.

Definition as_dict (v : Json) : option (Dict Json) :=
  match v with JObj kvs => Some kvs | _ => None end.

Fixpoint all_some {A : Type} (l : list (option A)) : option (list A) :=
  match l with
  | [] => Some []
  | Some a :: l' =>
      match all_some l' with
      | Some r => Some (a :: r)
      | None => None
      end
  | None :: _ => None
  end.

Definition as_list {A : Type} (elt : Json -> option A) (v : Json) : option (list A) :=
  match v with JArr xs => all_some (map elt xs) | _ => None end.

(** The field [k] of [data], or [default] when the key is absent. *)
Definition field (data : Dict Json) (k : string) (default : Json) : Json :=
  match dict_get k data with Some v => v | None => default end.

(** [GraphState.from_dict(data)].  The outer [option] is [None] when the
    document would fill a field with a value outside its declared type;
    otherwise the call returns the state, or raises as Python does:
    [KeyError] without a ["conversation_id"], [TypeError] when [data] is
    not a mapping and cannot be indexed by a string. *)
Definition from_dict (data : Json) : option (Res GraphState) :=
  match data with
  | JObj kvs =>
      match dict_get "conversation_id" kvs with
      | None => Some (Raise (Exn KeyError "'conversation_id'"))
      | Some c =>
          match as_str c,
                as_list as_dict (field kvs "messages" (JArr [])),
                as_dict (field kvs "metadata" (JObj [])),
                as_list as_str (field kvs "checkpoints" (JArr [])),
                as_opt_str (field kvs "current_step" JNull),
                as_opt_str (field kvs "error" JNull) with
          | Some cid, Some ms, Some md, Some cps, Some step, Some err =>
              Some (Ok (mkGraphState cid ms md cps step err))
          | _, _, _, _, _, _ => None
          end
      end
  | JArr _ =>
      Some (Raise (Exn TypeError "list indices must be integers or slices, not str"))
  | JStr _ =>
      Some (Raise (Exn TypeError "string indices must be integers, not 'str'"))
  | _ =>
      Some (Raise (Exn TypeError
                     ("'" +:+ type_name data +:+ "' object is not subscriptable")))
  end.

End State.
Import State.

(* ================================================================= *)
(** ** The machine a run executes on *)

Module Machine.

(** A reference to a [GraphState] object. *)
Definition loc : Type := nat.

(** What opening and parsing one file of the checkpoint directory gives:
    the document [json.load] returns, or the exception it raises
    ([JSONDecodeError] for a file that is not JSON, [IOError] for one
    that cannot be read, ...). *)
Inductive FileEntry : Type :=
| FJson (doc : Json)
| FError (e : exn).

(** The files [<id>.json] of the checkpoint directory, by checkpoint id,
    in the order in which [glob] enumerates them.  Checkpoint ids are
    plain file stems. *)
Definition Dir : Type := Dict FileEntry.

(** An id that names a file of the directory: [<id>.json] is one path
    component.  It has no ["/"], with which [checkpoint_dir / name]
    leaves the directory or enters a subdirectory that may not exist; no
    NUL, on which [open] raises [ValueError]; and it is short enough for
    the name to fit the 255 bytes of a file name, however its characters
    are encoded.  For any other id what [open] does depends on what lies
    around the directory, and the directory as modelled here says
    nothing about it. *)
Definition stem_char (c : ascii) : bool :=
  negb (Ascii.eqb c "/") && negb (Ascii.eqb c Ascii.zero).

Definition file_stem (id : string) : bool :=
  forallb stem_char (list_ascii_of_string id) && (String.length id <=? 125)%nat.

(** What is left of a file when [json.dump] raises half-way: [open] has
    emptied or created it, the text stops inside the document, and
    [json.load] raises [JSONDecodeError] on it.  The message of that
    exception tells where the text stops; it is left empty. *)
Definition truncated : FileEntry := FError (Exn JSONDecodeError EmptyString).

(** What happens during a run, in order, as an observer of the
    supervisor would log it. *)
Inductive Event : Type :=
| EvAttempt (node_name : string)    (* a node function is called *)
| EvSleep (delay : Q)               (* [asyncio.sleep(delay)] *)
| EvCondition (node_name : string)  (* a condition function is called *)
| EvEnforce (action resource : string) (context : Json)
                                    (* the policy enforcer is asked *)
| EvSave (checkpoint_id : string).  (* the supervisor saves a checkpoint *)

Section WithEnv.

(** Everything outside the process: the network, the clock, the random
    source, and what closures of the caller remember between calls.

    The heap holds the value of each [GraphState] object.  An object has
    its lists and its mapping to itself: two objects that hold one and
    the same list, as [s] and [GraphState.from_dict(s.to_dict())] do,
    are not represented, and what is said of a heap is said of objects
    that share nothing. *)
Context {U : Type}.

Record World : Type := mkWorld {
  heap : loc -> GraphState;   (* the [GraphState] objects *)
  next_loc : loc;             (* where the next object is allocated *)
  files : Dir;                (* the checkpoint directory *)
  env : U
}.

(** The world together with the log of the run. *)
Record Sys : Type := mkSys {
  world : World;
  trace : list Event
}.

Definition upd (h : loc -> GraphState) (l : loc) (s : GraphState) : loc -> GraphState :=
  fun l' => if Nat.eqb l' l then s else h l'.

(** In-place change of the object at [l]. *)
Definition mutate (l : loc) (f : GraphState -> GraphState) (w : World) : World :=
  mkWorld (upd (heap w) l (f (heap w l))) (next_loc w) (files w) (env w).

(** Construction of a new object. *)
Definition alloc (s : GraphState) : M World loc :=
  fun w => (Ok (next_loc w),
            mkWorld (upd (heap w) (next_loc w) s) (S (next_loc w)) (files w) (env w)).

Definition with_files (d : Dir) (w : World) : World :=
  mkWorld (heap w) (next_loc w) d (env w).

(** Code that only touches the environment, run in a world. *)
Definition on_env {A : Type} (m : M U A) : M World A :=
  fun w =>
    let '(r, u) := m (env w) in
    (r, mkWorld (heap w) (next_loc w) (files w) u).

(** Code that cannot see the log, run in the system. *)
Definition on_world {A : Type} (m : M World A) : M Sys A :=
  fun s =>
    let '(r, w) := m (world s) in
    (r, mkSys w (trace s)).

Definition log (ev : Event) : M Sys unit :=
  fun s => (Ok tt, mkSys (world s) (trace s ++ [ev])).

(** [state.<field>] and [state.<field> = v] on the object at [l]. *)
Definition read {A : Type} (l : loc) (f : GraphState -> A) : M Sys A :=
  gets (fun s => f (heap (world s) l)).

Definition write (l : loc) (f : GraphState -> GraphState) : M Sys unit :=
  on_world (modify (mutate l f)).

End WithEnv.
Arguments World : clear implicits.
Arguments Sys : clear implicits.

End Machine.
Import Machine.

(* ================================================================= *)
(** ** langgraph_core.py: the runner *)

Module AsyncGraphRunner.

Record RunnerConfig : Type := mkRunnerConfig {
  timeout : Z;
  max_retries : Z;
  retry_delay : Q
}.

(** [RunnerConfig()] *)
Definition default_config : RunnerConfig := mkRunnerConfig 30 3 1%Q.

(** [range(n)] *)
Definition range (n : Z) : list Z := map Z.of_nat (seq 0 (Z.to_nat n)).

Section WithEnv.
Context {U : Type}.

(** A node: a callable from a state reference to a state reference.  It
    may change any object and the world around it, and either returns a
    reference (the one it got, or another) or raises.  [is_coroutine] is
    what [asyncio.iscoroutinefunction] answers for it.

    [call] is one attempt at the node, as [run_node] makes it under
    [asyncio.wait_for]: a call that outlives the deadline is a call that
    raises [TimeoutError].  With a deadline of zero seconds or less
    [wait_for] cancels the attempt before the node has run, so that no
    attempt returns; a result of [call] that is a return is one reached
    under a positive deadline.

    The nodes the runner is written for are of type
    [Callable[[GraphState], GraphState]].  A callable that returns
    something else ([None], say) is no [NodeFunc]: on its result
    [run_graph] fails at [state.error], outside its [try]. *)
Record NodeFunc : Type := mkNode {
  is_coroutine : bool;
  call : loc -> M (World U) loc
}.

(** A condition function of [run_conditional]. *)
Record CondFunc : Type := mkCond {
  cond_is_coroutine : bool;
  cond_call : loc -> M (World U) bool
}.

Definition _execute_node (node_func : NodeFunc) (state : loc) : M (Sys U) loc :=
  if is_coroutine node_func
  then on_world (call node_func state)    (* awaited directly *)
  else on_world (call node_func state).   (* run in the default executor *)

Definition sleep (delay : Q) : M (Sys U) unit := log (EvSleep delay).

Section Runner.
Variable config : RunnerConfig.

(** The [for attempt in range(max_retries)] loop of [run_node]. *)
Fixpoint attempts (node_func : NodeFunc) (state : loc) (node_name : string)
         (rng : list Z) : M (Sys U) loc :=
  match rng with
  | [] => ret state
  | attempt :: rest =>
      try_except
        (log (EvAttempt node_name) ;;;
         _execute_node node_func state)
        (fun e =>
           if is_timeout e then
             if attempt =? max_retries config - 1 then
               write state (with_error
                 (Some ("Node '" +:+ node_name +:+ "' timed out after "
                        +:+ str_of_int (timeout config) +:+ "s"))) ;;;
               raise e
             else
               sleep (retry_delay config) ;;;
               attempts node_func state node_name rest
           else
             if attempt =? max_retries config - 1 then
               write state (with_error
                 (Some ("Node '" +:+ node_name +:+ "' failed: " +:+ exn_str e))) ;;;
               raise e
             else
               sleep (retry_delay config) ;;;
               attempts node_func state node_name rest)
  end.

Definition run_node (node_func : NodeFunc) (state : loc) (node_name : string)
  : M (Sys U) loc :=
  write state (with_current_step (Some node_name)) ;;;
  attempts node_func state node_name (range (max_retries config)).

(** What one round of the loop of [run_graph] decides. *)
Inductive Flow : Type :=
| Continue (state : loc)
| Break (state : loc).

(** The body of [for node_name in order]. *)
Definition graph_body (nodes : Dict NodeFunc) (state : loc) (node_name : string)
  : M (Sys U) Flow :=
  match dict_get node_name nodes with
  | None =>
      write state (with_error
        (Some ("Node '" +:+ node_name +:+ "' not found in graph"))) ;;;
      ret (Break state)
  | Some node_func =>
      err <- read state error ;;
      if truthy_str err then ret (Break state)
      else
        try_except
          (state' <- run_node node_func state node_name ;;
           ret (Continue state'))
          (fun _ => ret (Break state))
  end.

Fixpoint graph_loop (nodes : Dict NodeFunc) (state : loc) (order : list string)
  : M (Sys U) loc :=
  match order with
  | [] => ret state
  | node_name :: rest =>
      flow <- graph_body nodes state node_name ;;
      match flow with
      | Continue state' => graph_loop nodes state' rest
      | Break state' => ret state'
      end
  end.

Definition run_graph (nodes : Dict NodeFunc) (initial_state : loc)
           (node_order : option (list string)) : M (Sys U) loc :=
  let order :=
    match node_order with
    | Some (n :: ns) => n :: ns
    | _ => keys nodes          (* [node_order or list(nodes.keys())] *)
    end in
  graph_loop nodes initial_state order.

Definition run_conditional (condition_func : CondFunc)
           (true_node false_node : NodeFunc) (state : loc) (node_name : string)
  : M (Sys U) loc :=
  try_except
    (condition <-
       (log (EvCondition node_name) ;;;
        if cond_is_coroutine condition_func
        then on_world (cond_call condition_func state)
        else on_world (cond_call condition_func state)) ;;
     let selected_node := if condition then true_node else false_node in
     let branch_name :=
       if condition then node_name +:+ "_true" else node_name +:+ "_false" in
     run_node selected_node state branch_name)
    (fun e =>
       write state (with_error
         (Some ("Conditional '" +:+ node_name +:+ "' failed: " +:+ exn_str e))) ;;;
       ret state).

End Runner.
End WithEnv.
Arguments NodeFunc : clear implicits.
Arguments CondFunc : clear implicits.

End AsyncGraphRunner.
Import AsyncGraphRunner.

(* ================================================================= *)
(** ** policy.py: the enforcers *)

(** The abstract base class: anything with an [enforce] method.  An
    enforcer works on a state [St] of its own choosing (its session, the
    network); it has no handle on the state objects of a run or on the
    checkpoint directory.  The declared result is [bool]; what comes back
    is whatever the method returns, and callers test its truth value. *)
Module PolicyEnforcer.

Record t (St : Type) : Type := mk {
  enforce : string -> string -> option (Dict Json) -> M St Json
}.
Arguments mk {St} enforce.
Arguments enforce {St} _ _ _ _.

End PolicyEnforcer.

Module LocalDenyEnforcer.

Definition enforce {St : Type} (action resource : string)
           (context : option (Dict Json)) : M St Json :=
  ret (JBool false).

Definition new {St : Type} : PolicyEnforcer.t St := PolicyEnforcer.mk enforce.

End LocalDenyEnforcer.

Module OPAHttpPolicyEnforcer.

(** [s.lstrip("/")] and [s.rstrip("/")] *)
Fixpoint lstrip_slash (s : string) : string :=
  match s with
  | String c s' => if Ascii.eqb c "/" then lstrip_slash s' else s
  | EmptyString => EmptyString
  end.

Fixpoint rstrip_slash (s : string) : string :=
  match s with
  | String c s' =>
      match rstrip_slash s' with
      | EmptyString => if Ascii.eqb c "/" then EmptyString else String c EmptyString
      | r => String c r
      end
  | EmptyString => EmptyString
  end.

(** An [aiohttp.ClientSession], as far as this code looks at it. *)
Record ClientSession : Type := mkSession { closed : bool }.

Record t : Type := mk {
  opa_url : string;
  policy_path : string;
  timeout : Z;
  _session : option ClientSession
}.

(** [OPAHttpPolicyEnforcer(opa_url, policy_path, timeout)] *)
Definition new (opa_url policy_path : string) (timeout : Z) : t :=
  mk (rstrip_slash opa_url) (lstrip_slash policy_path) timeout None.

(** What the server sent: the status line, and what [response.json()]
    gives when it is awaited. *)
Record Response : Type := mkResponse {
  status : Z;
  json : Res Json
}.

Section WithNetwork.
Context {U : Type}.

(** [session.post(url, json=body, timeout=ClientTimeout(total=t))]
    entered as a context manager: the response, or the [ClientError] or
    [TimeoutError] raised when the server cannot be reached in time. *)
Variable post : ClientSession -> string -> Json -> Z -> M U Response.

Definition on_self {A : Type} (f : t -> A * t) : M (t * U) A :=
  fun '(self, u) => let '(a, self') := f self in (Ok a, (self', u)).

Definition on_network {A : Type} (m : M U A) : M (t * U) A :=
  fun '(self, u) => let '(r, u') := m u in (r, (self, u')).

Definition _get_session : M (t * U) ClientSession :=
  on_self (fun self =>
    match _session self with
    | Some s =>
        if closed s
        then (mkSession false,
              mk (opa_url self) (policy_path self) (timeout self)
                 (Some (mkSession false)))
        else (s, self)
    | None =>
        (mkSession false,
         mk (opa_url self) (policy_path self) (timeout self)
            (Some (mkSession false)))
    end).

Definition enforce (action resource : string) (context : option (Dict Json))
  : M (t * U) Json :=
  let context :=
    match context with
    | Some (kv :: kvs) => kv :: kvs
    | _ => []                         (* [context or {}] *)
    end in
  let input_data :=
    JObj [("input", JObj [("action", JStr action);
                          ("resource", JStr resource);
                          ("context", JObj context)])] in
  session <- _get_session ;;
  self <- gets fst ;;
  let url := opa_url self +:+ "/" +:+ policy_path self in
  try_except
    (response <- on_network (post session url input_data (timeout self)) ;;
     if status response =? 200 then
       result <- (fun s => (json response, s)) ;;
       (fun s => (py_get result "result" (JBool false), s))
     else
       ret (JBool false))
    (fun e =>
       match exn_class e with
       | ClientError | TimeoutError => raise e
       | _ => raise e                 (* not caught: it propagates *)
       end).

Definition close : M (t * U) unit :=
  on_self (fun self =>
    match _session self with
    | Some s =>
        if closed s then (tt, self)
        else (tt, mk (opa_url self) (policy_path self) (timeout self)
                     (Some (mkSession true)))
    | None => (tt, self)
    end).

(** The enforcer as an instance of the base class. *)
Definition as_enforcer : PolicyEnforcer.t (t * U) := PolicyEnforcer.mk enforce.

End WithNetwork.

End OPAHttpPolicyEnforcer.

Module CompositePolicyEnforcer.

(** Which member a call went to, and with what arguments. *)
Inductive Member : Type := Primary | Fallback.

Record Call : Type := mkCall {
  member : Member;
  call_action : string;
  call_resource : string;
  call_context : option (Dict Json)
}.

Section WithState.
Context {St : Type}.

Record t : Type := mk {
  primary : PolicyEnforcer.t St;
  fallback : PolicyEnforcer.t St
}.

(** A call of a member's [enforce], entered in the call log. *)
Definition call_member (who : Member) (e : PolicyEnforcer.t St)
           (action resource : string) (context : option (Dict Json))
  : M (St * list Call) Json :=
  fun '(s, calls) =>
    let '(r, s') := PolicyEnforcer.enforce e action resource context s in
    (r, (s', calls ++ [mkCall who action resource context])).

(** [enforce], with the calls it makes on its members logged. *)
Definition enforce_logged (self : t) (action resource : string)
           (context : option (Dict Json)) : M (St * list Call) Json :=
  try_except
    (call_member Primary (primary self) action resource context)
    (fun _ => call_member Fallback (fallback self) action resource context).

Definition enforce (self : t) (action resource : string)
           (context : option (Dict Json)) : M St Json :=
  fun s =>
    let '(r, (s', _)) := enforce_logged self action resource context (s, []) in
    (r, s').

Definition as_enforcer (self : t) : PolicyEnforcer.t St :=
  PolicyEnforcer.mk (enforce self).

End WithState.
Arguments t : clear implicits.

End CompositePolicyEnforcer.

(* ================================================================= *)
(** ** Built-ins the checkpoint store relies on *)

Module Builtins.

(** [a == b] on JSON values: [bool] is a kind of [int], sequences are
    equal item by item, mappings are equal whatever their order. *)
Fixpoint py_eq (a b : Json) : bool :=
  match a, b with
  | JNull, JNull => true
  | JBool x, JBool y => Bool.eqb x y
  | JBool x, JNum n => Z.b2z x =? n
  | JNum n, JBool x => n =? Z.b2z x
  | JNum m, JNum n => m =? n
  | JStr s, JStr t => String.eqb s t
  | JArr xs, JArr ys =>
      (fix items (xs ys : list Json) : bool :=
         match xs, ys with
         | [], [] => true
         | x :: xs', y :: ys' => py_eq x y && items xs' ys'
         | _, _ => false
         end) xs ys
  | JObj d1, JObj d2 =>
      (length d1 =? length d2)%nat &&
      (fix entries (d : list (string * Json)) : bool :=
         match d with
         | [] => true
         | (k, v) :: d' =>
             match dict_get k d2 with
             | Some v' => py_eq v v'
             | None => false
             end && entries d'
         end) d1
  | _, _ => false
  end.

Definition not_orderable {A : Type} (a b : Json) : Res A :=
  Raise (Exn TypeError
           ("'<' not supported between instances of '" +:+ type_name a
            +:+ "' and '" +:+ type_name b +:+ "'")).

(** [a < b]: defined between numbers, between strings, and between
    lists (at the first item where they differ); a [TypeError] between
    anything else, [None] and [None] included. *)
Fixpoint py_lt (a b : Json) : Res bool :=
  match a, b with
  | JBool x, JBool y => Ok (Z.b2z x <? Z.b2z y)
  | JBool x, JNum n => Ok (Z.b2z x <? n)
  | JNum n, JBool x => Ok (n <? Z.b2z x)
  | JNum m, JNum n => Ok (m <? n)
  | JStr s, JStr t => Ok (String.ltb s t)
  | JArr xs, JArr ys =>
      (fix items (xs ys : list Json) : Res bool :=
         match xs, ys with
         | x :: xs', y :: ys' => if py_eq x y then items xs' ys' else py_lt x y
         | [], _ :: _ => Ok true
         | _, [] => Ok false
         end) xs ys
  | _, _ => not_orderable a b
  end.

(** [l.sort(key=key, reverse=True)].  The sort is stable, descending,
    and asks only [<] of two keys; the first comparison that raises ends
    it.  Items are placed one by one from the right, so that each key is
    compared at least once when there are two items or more, as in
    CPython; which pairs of list-valued keys meet, and which of two keys
    the message of a [TypeError] names first, may differ there. *)
Fixpoint insert_desc (x : Json * Json) (l : list (Json * Json))
  : Res (list (Json * Json)) :=
  match l with
  | [] => Ok [x]
  | y :: l' =>
      match py_lt (fst x) (fst y) with
      | Raise e => Raise e
      | Ok true =>
          match insert_desc x l' with
          | Ok r => Ok (y :: r)
          | Raise e => Raise e
          end
      | Ok false => Ok (x :: y :: l')
      end
  end.

Fixpoint sort_keyed_desc (l : list (Json * Json)) : Res (list (Json * Json)) :=
  match l with
  | [] => Ok []
  | x :: l' =>
      match sort_keyed_desc l' with
      | Ok r => insert_desc x r
      | Raise e => Raise e
      end
  end.

Fixpoint keyed (key : Json -> Res Json) (l : list Json) : Res (list (Json * Json)) :=
  match l with
  | [] => Ok []
  | x :: l' =>
      match key x with
      | Raise e => Raise e
      | Ok k =>
          match keyed key l' with
          | Ok r => Ok ((k, x) :: r)
          | Raise e => Raise e
          end
      end
  end.

Definition sort_reverse (key : Json -> Res Json) (l : list Json) : Res (list Json) :=
  match keyed key l with
  | Raise e => Raise e
  | Ok kl =>
      match sort_keyed_desc kl with
      | Ok r => Ok (map snd r)
      | Raise e => Raise e
      end
  end.

(** A [datetime] in UTC. *)
Record datetime : Type := mkDatetime {
  year : nat; month : nat; day : nat;
  hour : nat; minute : nat; second : nat; microsecond : nat
}.

Fixpoint zeros (n : nat) : string :=
  match n with
  | O => EmptyString
  | S n' => String "0" (zeros n')
  end.

(** [n] in decimal, at least [width] digits wide. *)
Definition digits (width n : nat) : string :=
  let d := NilZero.string_of_uint (Nat.to_uint n) in
  zeros (width - String.length d) +:+ d.

(** [dt.isoformat()] for [dt = datetime.now(timezone.utc)]. *)
Definition isoformat (dt : datetime) : string :=
  digits 4 (year dt) +:+ "-" +:+ digits 2 (month dt) +:+ "-" +:+ digits 2 (day dt)
  +:+ "T" +:+ digits 2 (hour dt) +:+ ":" +:+ digits 2 (minute dt)
  +:+ ":" +:+ digits 2 (second dt)
  +:+ (if Nat.eqb (microsecond dt) 0 then EmptyString else "." +:+ digits 6 (microsecond dt))
  +:+ "+00:00".

Definition lift {St A : Type} (r : Res A) : M St A := fun s => (r, s).

(** *** [json.dump] *)

(** What a caller may hand to [json.dump].  The signatures of the store
    say [Dict[str, Any]], and [Any] is any object: next to the JSON
    values there are tuples, mappings with keys that are not strings,
    and objects of classes [json] has no encoding for.  A key of a
    mapping is a string, an [int], a [bool], [None], or some other
    hashable object, of which only the name of the class matters here.
    Numbers are integers, as in [Json]; floating-point numbers are left
    out.  An object is a finite tree: a list or a mapping that contains
    itself is not among them. *)
Inductive Key : Type :=
| KStr (s : string)
| KInt (n : Z)
| KBool (b : bool)
| KNone
| KOther (class_name : string).

Inductive Obj : Type :=
| ONone
| OBool (b : bool)
| OInt (n : Z)
| OStr (s : string)
| OList (xs : list Obj)
| OTuple (xs : list Obj)
| ODict (kvs : list (Key * Obj))
| OOther (class_name : string).   (* a set, a datetime, a [GraphState], ... *)

(** A JSON value is such an object. *)
Fixpoint of_json (v : Json) : Obj :=
  match v with
  | JNull => ONone
  | JBool b => OBool b
  | JNum n => OInt n
  | JStr s => OStr s
  | JArr xs => OList (map of_json xs)
  | JObj kvs => ODict (map (fun kv => (KStr (fst kv), of_json (snd kv))) kvs)
  end.

(** A mapping of JSON values, as a mapping of objects with the same keys. *)
Definition objects (d : Dict Json) : Dict Obj :=
  map (fun kv => (fst kv, of_json (snd kv))) d.

(** The key [json] writes for a key of a mapping. *)
Definition key_str (k : Key) : Res string :=
  match k with
  | KStr s => Ok s
  | KInt n => Ok (str_of_int n)
  | KBool true => Ok "true"
  | KBool false => Ok "false"
  | KNone => Ok "null"
  | KOther class_name =>
      Raise (Exn TypeError
               ("keys must be str, int, float, bool or None, not " +:+ class_name))
  end.

(** [f] on every item, from left to right, up to the first that raises. *)
Fixpoint all_ok {A B : Type} (f : A -> Res B) (l : list A) : Res (list B) :=
  match l with
  | [] => Ok []
  | x :: l' =>
      match f x with
      | Raise e => Raise e
      | Ok y =>
          match all_ok f l' with
          | Raise e => Raise e
          | Ok ys => Ok (y :: ys)
          end
      end
  end.

(** The mapping [json.load] builds from the members of a JSON object as
    they are written: a name that comes again keeps its place and takes
    the later value. *)
Definition dict_of_pairs (l : list (string * Json)) : Dict Json :=
  fold_left (fun d kv => dict_set (fst kv) (snd kv) d) l [].

(** [json.dump(o, f)], told by what [json.load] reads back from the text
    written: a tuple is written as an array, a key that is not a string
    as the string [json] makes of it, and the first object met that has
    no encoding, or key that is not of the five kinds, raises
    [TypeError]. *)
Fixpoint json_dump (o : Obj) : Res Json :=
  match o with
  | ONone => Ok JNull
  | OBool b => Ok (JBool b)
  | OInt n => Ok (JNum n)
  | OStr s => Ok (JStr s)
  | OList xs | OTuple xs =>
      match all_ok json_dump xs with
      | Ok vs => Ok (JArr vs)
      | Raise e => Raise e
      end
  | ODict kvs =>
      match all_ok (fun kv =>
                      match key_str (fst kv) with
                      | Raise e => Raise e
                      | Ok k =>
                          match json_dump (snd kv) with
                          | Raise e => Raise e
                          | Ok v => Ok (k, v)
                          end
                      end) kvs with
      | Ok members => Ok (JObj (dict_of_pairs members))
      | Raise e => Raise e
      end
  | OOther class_name =>
      Raise (Exn TypeError
               ("Object of type " +:+ class_name +:+ " is not JSON serializable"))
  end.

End Builtins.
Import Builtins.

(* ================================================================= *)
(** ** checkpoint.py: the checkpoint store *)

Module CheckpointStore.

Section WithEnv.
Context {U : Type}.

(** [datetime.now(timezone.utc)] *)
Variable utcnow : M U datetime.

(** [str(self.checkpoint_dir / name)] *)
Variable path_of : string -> string.

(** A mapping with string keys, as an object. *)
Definition str_keyed (d : Dict Obj) : Obj :=
  ODict (map (fun kv => (KStr (fst kv), snd kv)) d).

(** [save], for a [checkpoint_id] that names a file of the directory
    (see [file_stem]).  [open(filepath, "w")] creates the file or
    empties it, and [json.dump] writes into it piece by piece: when it
    raises, the file stays, with the beginning of a document. *)
Definition save (checkpoint_id : string) (state : Obj)
           (metadata : option (Dict Obj)) : M (World U) string :=
  let metadata :=
    match metadata with
    | Some (kv :: kvs) => kv :: kvs
    | _ => []                         (* [metadata or {}] *)
    end in
  now <- on_env utcnow ;;
  let metadata := dict_set "timestamp" (OStr (isoformat now)) metadata in
  let metadata := dict_set "checkpoint_id" (OStr checkpoint_id) metadata in
  let checkpoint_data :=
    ODict [(KStr "state", state); (KStr "metadata", str_keyed metadata)] in
  match json_dump checkpoint_data with
  | Ok doc =>
      modify (fun w => with_files (dict_set checkpoint_id (FJson doc) (files w)) w) ;;;
      ret (path_of (checkpoint_id +:+ ".json"))
  | Raise e =>
      modify (fun w => with_files (dict_set checkpoint_id truncated (files w)) w) ;;;
      raise e
  end.

(** [load]: Python's [None] is [JNull]. *)
Definition load (checkpoint_id : string) : M (World U) Json :=
  dir <- gets files ;;
  match dict_get checkpoint_id dir with
  | None => ret JNull
  | Some (FJson doc) => ret doc
  | Some (FError e) => raise e
  end.

(** [a != b] for a JSON value and a [str]. *)
Definition differs (v : Json) (s : string) : bool :=
  match v with
  | JStr s' => negb (String.eqb s' s)
  | _ => true
  end.

(** One round of the loop of [list_checkpoints], inside its [try]: the
    summary to append, or nothing when the round ends in [continue]. *)
Definition summarize (conversation_id : option string) (stem : string)
           (entry : FileEntry) : M (World U) (option Json) :=
  data <- (match entry with
           | FJson doc => ret doc
           | FError e => raise e
           end) ;;
  metadata <- lift (py_get data "metadata" (JObj [])) ;;
  skip <-
    (if truthy_str conversation_id then
       state <- lift (py_get data "state" (JObj [])) ;;
       cid <- lift (py_get state "conversation_id" JNull) ;;
       ret (differs cid (match conversation_id with Some c => c | None => EmptyString end))
     else ret false) ;;
  if (skip : bool) then ret None
  else
    checkpoint_id <- lift (py_get metadata "checkpoint_id" (JStr stem)) ;;
    timestamp <- lift (py_get metadata "timestamp" JNull) ;;
    state1 <- lift (py_get data "state" (JObj [])) ;;
    conv <- lift (py_get state1 "conversation_id" JNull) ;;
    state2 <- lift (py_get data "state" (JObj [])) ;;
    step <- lift (py_get state2 "current_step" JNull) ;;
    ret (Some (JObj [("checkpoint_id", checkpoint_id);
                     ("timestamp", timestamp);
                     ("conversation_id", conv);
                     ("current_step", step);
                     ("metadata", metadata)])).

(** [for filepath in self.checkpoint_dir.glob("*.json")] *)
Fixpoint scan (conversation_id : option string) (entries : Dir)
         (checkpoints : list Json) : M (World U) (list Json) :=
  match entries with
  | [] => ret checkpoints
  | (stem, entry) :: rest =>
      found <- try_except
                 (summarize conversation_id stem entry)
                 (fun e =>
                    match exn_class e with
                    | JSONDecodeError | IOError | TimeoutError =>
                        ret None                              (* [continue] *)
                    | _ => raise e
                    end) ;;
      scan conversation_id rest
           (match found with
            | Some summary => checkpoints ++ [summary]
            | None => checkpoints
            end)
  end.

Definition list_checkpoints (conversation_id : option string)
  : M (World U) (list Json) :=
  dir <- gets files ;;
  checkpoints <- scan conversation_id dir [] ;;
  lift (sort_reverse (fun x => py_get x "timestamp" (JStr EmptyString)) checkpoints).

Definition rollback (checkpoint_id : string) : M (World U) Json :=
  checkpoint_data <- load checkpoint_id ;;
  if negb (truthy checkpoint_data) then ret JNull
  else lift (py_get checkpoint_data "state" JNull).

Definition delete (checkpoint_id : string) : M (World U) bool :=
  dir <- gets files ;;
  match dict_get checkpoint_id dir with
  | Some _ =>
      modify (fun w => with_files (dict_remove checkpoint_id (files w)) w) ;;;
      ret true
  | None => ret false
  end.

End WithEnv.

Section Cleanup.
Context {U Time : Type}.

(** File times are floating-point seconds.  What the code does with
    them is read the clock, subtract a whole number of seconds and
    compare; these three, and the modification time [stat] reports for
    the file of a checkpoint (or the exception it raises), are taken as
    given. *)
Variable now_timestamp : M U Time.          (* [datetime.now(timezone.utc).timestamp()] *)
Variable minus_seconds : Time -> Z -> Time. (* [t - n] *)
Variable before : Time -> Time -> bool.     (* [a < b] *)
Variable st_mtime : string -> Res Time.     (* [filepath.stat().st_mtime] *)



End Cleanup.

End CheckpointStore.

(* ================================================================= *)
(** ** supervisor.py: the facade *)

Module Supervisor.

Section WithEnv.
Context {U : Type}.

Variable utcnow : M U datetime.
Variable path_of : string -> string.

(** [uuid4().hex] *)
Variable uuid4_hex : M U string.

Record t : Type := mk {
  runner : RunnerConfig;
  policy_enforcer : PolicyEnforcer.t U
}.

Definition enforce_policy (self : t) (action resource : string)
           (context : option (Dict Json)) : M (Sys U) Json :=
  log (EvEnforce action resource
         (match context with Some c => JObj c | None => JNull end)) ;;;
  on_world (on_env (PolicyEnforcer.enforce (policy_enforcer self)
                                            action resource context)).

Definition save_checkpoint (self : t) (state : loc) (checkpoint_id : option string)
  : M (Sys U) string :=
  checkpoint_id <-
    (if truthy_str checkpoint_id
     then ret (match checkpoint_id with Some c => c | None => EmptyString end)
     else
       cid <- read state conversation_id ;;
       hex <- on_world (on_env uuid4_hex) ;;
       ret (cid +:+ "_" +:+ substring 0 8 hex)) ;;
  s <- read state (fun s => s) ;;
  let metadata :=
    [("conversation_id", JStr (conversation_id s));
     ("current_step", of_opt_str (current_step s));
     ("message_count", JNum (Z.of_nat (length (messages s))))] in
  log (EvSave checkpoint_id) ;;;
  on_world (CheckpointStore.save utcnow path_of checkpoint_id (of_json (to_dict s))
                                 (Some (objects metadata))) ;;;
  ret checkpoint_id.

(** [load_checkpoint].  The outer [option] is [None] when the stored
    document does not fit the declared types of [GraphState] (see
    [State.from_dict]); the inner one is Python's [Optional]. *)
Definition load_checkpoint (self : t) (checkpoint_id : string)
  : Sys U -> option (Res (option loc) * Sys U) :=
  fun s =>
    match on_world (CheckpointStore.load checkpoint_id) s with
    | (Raise e, s') => Some (Raise e, s')
    | (Ok checkpoint_data, s') =>
        if negb (truthy checkpoint_data) then Some (Ok None, s')
        else
          match py_get checkpoint_data "state" (JObj []) with
          | Raise e => Some (Raise e, s')
          | Ok state_dict =>
              match from_dict state_dict with
              | None => None
              | Some (Raise e) => Some (Raise e, s')
              | Some (Ok st) =>
                  match on_world (alloc st) s' with
                  | (Ok l, s'') => Some (Ok (Some l), s'')
                  | (Raise e, s'') => Some (Raise e, s'')
                  end
              end
          end
    end.

Definition list_checkpoints (self : t) (conversation_id : option string)
  : M (Sys U) (list Json) :=
  on_world (CheckpointStore.list_checkpoints conversation_id).

(** The default workflow of [run_conversation] is built as
    [{"greeting": create_greeting_node(), "processing":
    create_processing_node(), "finalize": finalize_node()}].  In
    [nodes.py], [finalize_node] is not a factory but a node,
    [def finalize_node(state)]: the call without argument raises. *)
Definition default_nodes : M (Sys U) (Dict (NodeFunc U)) :=
  raise (Exn TypeError
    "finalize_node() missing 1 required positional argument: 'state'").

Definition run_conversation (self : t) (conversation_id : string)
           (custom_nodes : option (Dict (NodeFunc U))) (auto_checkpoint : bool)
  : M (Sys U) loc :=
  allowed <- enforce_policy self "execute" ("conversation/" +:+ conversation_id)
               (Some [("conversation_id", JStr conversation_id)]) ;;
  if negb (truthy allowed) then
    state <- on_world (alloc (State.new conversation_id)) ;;
    write state (with_error (Some "Policy denied conversation execution")) ;;;
    ret state
  else
    initial_state <- on_world (alloc (State.new conversation_id)) ;;
    nodes <- (match custom_nodes with
              | None => default_nodes
              | Some nodes => ret nodes
              end) ;;
    final_state <- run_graph (runner self) nodes initial_state (Some (keys nodes)) ;;
    err <- read final_state error ;;
    if auto_checkpoint && negb (truthy_str err) then
      checkpoint_id <- save_checkpoint self final_state None ;;
      write final_state (add_checkpoint checkpoint_id) ;;;
      ret final_state
    else
      ret final_state.

(** [rollback_to_checkpoint]; the two [option]s are those of
    [load_checkpoint]. *)
Definition rollback_to_checkpoint (self : t) (checkpoint_id : string)
  : Sys U -> option (Res (option loc) * Sys U) :=
  fun s =>
    match on_world (CheckpointStore.rollback checkpoint_id) s with
    | (Raise e, s') => Some (Raise e, s')
    | (Ok state_dict, s') =>
        if negb (truthy state_dict) then Some (Ok None, s')
        else
          match from_dict state_dict with
          | None => None
          | Some (Raise e) => Some (Raise e, s')
          | Some (Ok st) =>
              match on_world (alloc st) s' with
              | (Ok l, s'') => Some (Ok (Some l), s'')
              | (Raise e, s'') => Some (Raise e, s'')
              end
          end
    end.

End WithEnv.
Arguments t : clear implicits.

Section WithOPA.

(** The network, as [OPAHttpPolicyEnforcer] sees it. *)
Context {N : Type}.
Variable post : OPAHttpPolicyEnforcer.ClientSession -> string -> Json -> Z ->
                M N OPAHttpPolicyEnforcer.Response.

(** [Supervisor(runner_config, policy_enforcer, checkpoint_dir,
    enable_opa, opa_url)].  The environment holds the OPA enforcer
    object of the supervisor next to the network; the constructor puts a
    new one there when it builds one.  An enforcer object is true in a
    test, as every object whose class defines neither [__bool__] nor
    [__len__].  The checkpoint directory is taken to exist. *)
Definition __init__ (runner_config : option RunnerConfig)
           (policy_enforcer : option (PolicyEnforcer.t (OPAHttpPolicyEnforcer.t * N)))
           (enable_opa : bool) (opa_url : string)
  : M (OPAHttpPolicyEnforcer.t * N) (t (OPAHttpPolicyEnforcer.t * N)) :=
  let runner :=
    match runner_config with
    | Some c => c
    | None => default_config          (* [runner_config or RunnerConfig()] *)
    end in
  match policy_enforcer with
  | Some e => ret (mk runner e)
  | None =>
      if enable_opa then
        modify (fun '(_, n) =>
                  (OPAHttpPolicyEnforcer.new opa_url "v1/data/authz/allow" 5, n)) ;;;
        let primary := OPAHttpPolicyEnforcer.as_enforcer post in
        let fallback := LocalDenyEnforcer.new in
        ret (mk runner (CompositePolicyEnforcer.as_enforcer
                          (CompositePolicyEnforcer.mk primary fallback)))
      else
        ret (mk runner LocalDenyEnforcer.new)
  end.

End WithOPA.

End Supervisor.

(* ================================================================= *)
(** ** fipa.py: FIPA-ACL messages *)

Module Fipa.

Inductive Performative : Type :=
| INFORM | REQUEST | QUERY | PROPOSE | ACCEPT | REJECT
| CONFIRM | DISCONFIRM | FAILURE | AGREE | REFUSE.

(** [p.value] *)
Definition value (p : Performative) : string :=
  match p with
  | INFORM => "inform"
  | REQUEST => "request"
  | QUERY => "query"
  | PROPOSE => "propose"
  | ACCEPT => "accept"
  | REJECT => "reject"
  | CONFIRM => "confirm"
  | DISCONFIRM => "disconfirm"
  | FAILURE => "failure"
  | AGREE => "agree"
  | REFUSE => "refuse"
  end.

(** [list(Performative)]: the members in definition order. *)
Definition members : list Performative :=
  [INFORM; REQUEST; QUERY; PROPOSE; ACCEPT; REJECT;
   CONFIRM; DISCONFIRM; FAILURE; AGREE; REFUSE].

(** The member with a given value, if any. *)
Definition by_value (s : string) : option Performative :=
  find (fun p => String.eqb (value p) s) members.

(** A character that [repr] of a [str] writes as it is, between single
    quotes: printable ASCII, the single quote (39) and the backslash
    (92) excepted. *)
Definition plain_char (c : ascii) : bool :=
  (32 <=? nat_of_ascii c)%nat && (nat_of_ascii c <? 127)%nat &&
  negb (nat_of_ascii c =? 39)%nat && negb (nat_of_ascii c =? 92)%nat.

(** [repr(v)], for [None], booleans, integers and strings of plain
    characters. *)
Definition py_repr (v : Json) : option string :=
  match v with
  | JNull => Some "None"
  | JBool true => Some "True"
  | JBool false => Some "False"
  | JNum n => Some (str_of_int n)
  | JStr s =>
      if forallb plain_char (list_ascii_of_string s)
      then Some ("'" +:+ s +:+ "'")
      else None
  | _ => None
  end.

(** [Performative(v)]: the member whose value is [v], a [ValueError]
    when there is none.  The outer [option] is [None] where the message
    of the exception would need a [repr] that is not modelled. *)
Definition of_value (v : Json) : option (Res Performative) :=
  let invalid :=
    match py_repr v with
    | Some r => Some (Raise (Exn ValueError (r +:+ " is not a valid Performative")))
    | None => None
    end in
  match v with
  | JStr s =>
      match by_value s with
      | Some p => Some (Ok p)
      | None => invalid
      end
  | _ => invalid
  end.

(** The dataclass [Message].  Nothing checks the declared types when an
    object is built, and the nodes do fill fields with what they find in
    earlier messages: a field holds any value.  The two exceptions are
    [performative], which every constructor call of this code gives as a
    member of the enumeration, and [timestamp], a [datetime]. *)
Record Message : Type := mkMessage {
  performative : Performative;
  sender : Json;
  receiver : Json;
  content : Json;
  conversation_id : Json;
  reply_to : Json;
  protocol : Json;
  language : Json;
  ontology : Json;
  timestamp : datetime;
  message_id : Json;
  metadata : Json
}.

(** [dt.isoformat()] for a [datetime] without time zone. *)
Definition isoformat_naive (dt : datetime) : string :=
  digits 4 (year dt) +:+ "-" +:+ digits 2 (month dt) +:+ "-" +:+ digits 2 (day dt)
  +:+ "T" +:+ digits 2 (hour dt) +:+ ":" +:+ digits 2 (minute dt)
  +:+ ":" +:+ digits 2 (second dt)
  +:+ (if Nat.eqb (microsecond dt) 0 then EmptyString else "." +:+ digits 6 (microsecond dt)).

(** [asdict] lists the fields in the order of their declaration. *)
Definition to_dict (self : Message) : Dict Json :=
  [("performative", JStr (value (performative self)));
   ("sender", sender self);
   ("receiver", receiver self);
   ("content", content self);
   ("conversation_id", conversation_id self);
   ("reply_to", reply_to self);
   ("protocol", protocol self);
   ("language", language self);
   ("ontology", ontology self);
   ("timestamp", JStr (isoformat_naive (timestamp self)));
   ("message_id", message_id self);
   ("metadata", metadata self)].

(** The parameters of the generated [__init__], and those without a
    default besides [performative]. *)
Definition fields : list string :=
  ["performative"; "sender"; "receiver"; "content"; "conversation_id"; "reply_to";
   "protocol"; "language"; "ontology"; "timestamp"; "message_id"; "metadata"].

Definition required : list string :=
  ["sender"; "receiver"; "content"; "conversation_id"].

Definition quoted (k : string) : string := "'" +:+ k +:+ "'".

(** ["'a', 'b', and 'c'"], for three names or more. *)
Fixpoint enumerated (names : list string) : string :=
  match names with
  | [] => EmptyString
  | [a] => "and " +:+ quoted a
  | a :: rest => quoted a +:+ ", " +:+ enumerated rest
  end.

(** [str(e)] for the [TypeError] of a call that lacks these arguments. *)
Definition missing_message (names : list string) : string :=
  "Message.__init__() missing " +:+ str_of_int (Z.of_nat (length names))
  +:+ " required positional argument" +:+
  match names with
  | [a] => ": " +:+ quoted a
  | [a; b] => "s: " +:+ quoted a +:+ " and " +:+ quoted b
  | _ => "s: " +:+ enumerated names
  end.

Section WithEnv.
Context {U : Type}.

(** [datetime.utcnow()] *)
Variable utcnow : M U datetime.

(** [datetime.fromisoformat(s)] *)
Variable fromisoformat : string -> Res datetime.

(** The constructor called with the entries of [data] as keyword
    arguments, once [performative] and [timestamp] are converted: a
    keyword that is no field is refused first, then a missing argument;
    the defaults fill the rest. *)
Definition construct (p : Performative) (ts : option datetime) (data : Dict Json)
  : M U Message :=
  match find (fun k => negb (existsb (String.eqb k) fields)) (keys data) with
  | Some k =>
      raise (Exn TypeError
               ("Message.__init__() got an unexpected keyword argument " +:+ quoted k))
  | None =>
      match filter (fun k => match dict_get k data with
                             | None => true
                             | Some _ => false
                             end) required with
      | [] =>
          now <- (match ts with
                  | Some t => ret t
                  | None => utcnow
                  end) ;;
          ret (mkMessage p
                 (field data "sender" JNull)
                 (field data "receiver" JNull)
                 (field data "content" JNull)
                 (field data "conversation_id" JNull)
                 (field data "reply_to" JNull)
                 (field data "protocol" (JStr "fipa-request"))
                 (field data "language" (JStr "json"))
                 (field data "ontology" JNull)
                 now
                 (field data "message_id" JNull)
                 (field data "metadata" (JObj [])))
      | missing => raise (Exn TypeError (missing_message missing))
      end
  end.

(** [Message.from_dict(data)].  The outer [option] is [None] where the
    model stops: a ["timestamp"] that is present and not a string would
    be kept as it is, in a field that holds a [datetime]; and see
    [of_value]. *)
Definition from_dict (data : Dict Json) : option (M U Message) :=
  match dict_get "performative" data with
  | None => Some (raise (Exn KeyError "'performative'"))
  | Some v =>
      match of_value v with
      | None => None
      | Some (Raise e) => Some (raise e)
      | Some (Ok p) =>
          match dict_get "timestamp" data with
          | Some (JStr s) =>
              match fromisoformat s with
              | Raise e => Some (raise e)
              | Ok ts => Some (construct p (Some ts) data)
              end
          | Some _ => None
          | None => Some (construct p None data)
          end
      end
  end.

(** [self.create_reply(performative, content, sender)], without further
    keyword arguments. *)
Definition create_reply (self : Message) (performative : Performative)
           (content sender : Json) : M U Message :=
  now <- utcnow ;;
  ret (mkMessage performative sender (Fipa.sender self) content
                 (conversation_id self) (message_id self) (protocol self)
                 (JStr "json") JNull now JNull (JObj [])).

End WithEnv.

End Fipa.

(* ================================================================= *)
(** ** nodes.py: the nodes of the library *)

Module Nodes.

(** [str(u)] for a UUID, from [u.hex]. *)
Definition uuid_str (hex : string) : string :=
  substring 0 8 hex +:+ "-" +:+ substring 8 4 hex +:+ "-" +:+ substring 12 4 hex
  +:+ "-" +:+ substring 16 4 hex +:+ "-" +:+ substring 20 12 hex.

(** [l[-1]] behind [if l:] *)
Definition last_message {A : Type} (l : list A) : option A :=
  match rev l with
  | [] => None
  | x :: _ => Some x
  end.

Section WithEnv.
Context {U : Type}.

(** [datetime.utcnow()] and [uuid4().hex] *)
Variable utcnow : M U datetime.
Variable uuid4_hex : M U string.

(** [str(v)], as an f-string formats a value. *)
Variable py_str : Json -> string.

Definition async_node_wrapper (func : NodeFunc U) (state : loc) : M (World U) loc :=
  if is_coroutine func
  then call func state      (* awaited directly *)
  else call func state.     (* run in the default executor *)

(** [Message(performative=p, sender="jayz-wayz", receiver=r, content=c,
    conversation_id=cid, reply_to=re, message_id=str(uuid4()))], the one
    way the nodes build a message.  The id is an argument of the call and
    is drawn first; the timestamp is the default of its field. *)
Definition message (p : Fipa.Performative) (receiver content : Json)
           (conversation_id : string) (reply_to : Json) : M U Fipa.Message :=
  hex <- uuid4_hex ;;
  now <- utcnow ;;
  ret (Fipa.mkMessage p (JStr "jayz-wayz") receiver content (JStr conversation_id)
                      reply_to (JStr "fipa-request") (JStr "json") JNull now
                      (JStr (uuid_str hex)) (JObj [])).

(** [create_greeting_node()] *)
Definition create_greeting_node : NodeFunc U :=
  mkNode false
    (fun state =>
       cid <- gets (fun w => State.conversation_id (heap w state)) ;;
       m <- on_env (message Fipa.INFORM (JStr "user")
                      (JObj [("text", JStr ("Hello! Starting conversation " +:+ cid))])
                      cid JNull) ;;
       modify (mutate state (add_message (Fipa.to_dict m))) ;;;
       ret state).

Definition default_process (content : Json) : M U Json :=
  ret (JStr ("Processed: " +:+ py_str content)).

(** [create_processing_node(process_func)].  A process function gets the
    text and nothing else: it has no handle on the state objects. *)
Definition create_processing_node (process_func : option (Json -> M U Json))
  : NodeFunc U :=
  let processor :=
    match process_func with
    | Some f => f
    | None => default_process         (* [process_func or default_process] *)
    end in
  mkNode false
    (fun state =>
       msgs <- gets (fun w => messages (heap w state)) ;;
       match last_message msgs with
       | None => ret state
       | Some last_msg =>
           match field last_msg "content" (JObj []) with
           | JObj content =>
               match dict_get "text" content with
               | Some text =>
                   processed_text <- on_env (processor text) ;;
                   cid <- gets (fun w => State.conversation_id (heap w state)) ;;
                   response <- on_env (message Fipa.INFORM
                                         (field last_msg "sender" (JStr "user"))
                                         (JObj [("text", processed_text)])
                                         cid
                                         (field last_msg "message_id" JNull)) ;;
                   modify (mutate state (add_message (Fipa.to_dict response))) ;;;
                   ret state
               | None => ret state
               end
           | _ => ret state
           end
       end).

(** [create_checkpoint_node(checkpoint_func)] *)
Definition create_checkpoint_node (checkpoint_func : loc -> M (World U) string)
  : NodeFunc U :=
  mkNode false
    (fun state =>
       checkpoint_id <- checkpoint_func state ;;
       modify (mutate state (add_checkpoint checkpoint_id)) ;;;
       ret state).

(** [validate_node], a coroutine: it pauses for a tenth of a second,
    which a deadline of a second or more leaves it the time to do. *)
Definition validate_node : NodeFunc U :=
  mkNode true
    (fun state =>
       cid <- gets (fun w => State.conversation_id (heap w state)) ;;
       (if String.eqb cid EmptyString
        then modify (mutate state (with_error (Some "Missing conversation_id")))
        else ret tt) ;;;
       ret state).

Definition error_handler_node : NodeFunc U :=
  mkNode false
    (fun state =>
       err <- gets (fun w => error (heap w state)) ;;
       (if truthy_str err then
          cid <- gets (fun w => State.conversation_id (heap w state)) ;;
          error_msg <- on_env (message Fipa.FAILURE (JStr "user")
                                 (JObj [("error", of_opt_str err)]) cid JNull) ;;
          modify (mutate state (add_message (Fipa.to_dict error_msg)))
        else ret tt) ;;;
       ret state).

Definition finalize_node : NodeFunc U :=
  mkNode false
    (fun state =>
       cid <- gets (fun w => State.conversation_id (heap w state)) ;;
       farewell <- on_env (message Fipa.INFORM (JStr "user")
                             (JObj [("text", JStr "Conversation complete. Goodbye!")])
                             cid JNull) ;;
       modify (mutate state (add_message (Fipa.to_dict farewell))) ;;;
       modify (mutate state (with_current_step (Some "completed"))) ;;;
       ret state).

End WithEnv.

End Nodes.

(* ================================================================= *)
(** * The words of the specification *)

(** ** Runs of a node and of a graph *)

Section RunnerVocabulary.
Context {U : Type}.
Variable config : RunnerConfig.

Implicit Types (f : NodeFunc U) (l : loc) (w : World U) (s : Sys U).

(** The node called [k] times in a row on [l], starting in [w], every
    call raising: the world the last call leaves. *)
Fixpoint fails f l (k : nat) w : option (World U) :=
  match k with
  | O => Some w
  | S k' =>
      match call f l w with
      | (Raise _, w') => fails f l k' w'
      | (Ok _, _) => None
      end
  end.

(** The log of [k] failed attempts, each followed by the retry delay. *)
Fixpoint retries (node_name : string) (k : nat) : list Event :=
  match k with
  | O => []
  | S k' => EvAttempt node_name :: EvSleep (retry_delay config) :: retries node_name k'
  end.

(** The message [run_node] records for the exception of the last attempt. *)
Definition failure_message (node_name : string) (e : exn) : string :=
  if is_timeout e
  then "Node '" +:+ node_name +:+ "' timed out after "
       +:+ str_of_int (timeout config) +:+ "s"
  else "Node '" +:+ node_name +:+ "' failed: " +:+ exn_str e.

Definition is_attempt (ev : Event) : bool :=
  match ev with EvAttempt _ => true | _ => false end.

(** How many times a node function was called, according to a log. *)
Definition node_calls (tr : list Event) : nat := length (filter is_attempt tr).

(** The loop goes through all of [order] without a [break]: the state
    reference and the system it then holds. *)
Fixpoint passes (nodes : Dict (NodeFunc U)) (state : loc) (order : list string)
         (s : Sys U) : option (loc * Sys U) :=
  match order with
  | [] => Some (state, s)
  | node_name :: rest =>
      match graph_body config nodes state node_name s with
      | (Ok (Continue state'), s') => passes nodes state' rest s'
      | _ => None
      end
  end.

(** The order [run_graph] follows: the one it is given, or the keys of
    the node map when it is given none, or an empty one. *)
Definition order_followed (nodes : Dict (NodeFunc U))
           (node_order : option (list string)) : list string :=
  match node_order with
  | Some (n :: ns) => n :: ns
  | _ => keys nodes
  end.

Definition not_found_message (node_name : string) : string :=
  "Node '" +:+ node_name +:+ "' not found in graph".

Definition conditional_message (node_name : string) (e : exn) : string :=
  "Conditional '" +:+ node_name +:+ "' failed: " +:+ exn_str e.

(** A node an attempt at which, on a state without error, returns, and
    returns a state without error. *)
Definition settles (f : NodeFunc U) : Prop :=
  forall l w,
    truthy_str (error (heap w l)) = false ->
    exists l' w', call f l w = (Ok l', w') /\
                  truthy_str (error (heap w' l')) = false.

(** The name is in the node map. *)
Definition known (nodes : Dict (NodeFunc U)) (node_name : string) : Prop :=
  dict_get node_name nodes <> None.

End RunnerVocabulary.

(** ** Requests to the policy server *)

Section PolicyVocabulary.
Import OPAHttpPolicyEnforcer.

(** The session a call of [enforce] works with. *)
Definition session_in_use (self : OPAHttpPolicyEnforcer.t) : ClientSession :=
  match _session self with
  | Some s => if closed s then mkSession false else s
  | None => mkSession false
  end.

(** The document posted to the policy server. *)
Definition opa_input (action resource : string) (context : option (Dict Json))
  : Json :=
  JObj [("input", JObj [("action", JStr action);
                        ("resource", JStr resource);
                        ("context", JObj (match context with
                                          | Some c => c
                                          | None => []
                                          end))])].

(** Strings made of slashes, and strings that begin or end with one. *)
Fixpoint all_slashes (s : string) : bool :=
  match s with
  | EmptyString => true
  | String c s' => Ascii.eqb c "/" && all_slashes s'
  end.

Definition starts_with_slash (s : string) : bool :=
  match s with
  | String c _ => Ascii.eqb c "/"
  | EmptyString => false
  end.

Fixpoint ends_with_slash (s : string) : bool :=
  match s with
  | EmptyString => false
  | String c EmptyString => Ascii.eqb c "/"
  | String _ s' => ends_with_slash s'
  end.

End PolicyVocabulary.

(** ** Conversations *)

Section SupervisorVocabulary.
Context {U : Type}.
Import Supervisor.

(** What [run_conversation] asks the enforcer. *)
Definition gate (self : Supervisor.t U) (conversation_id : string) : M U Json :=
  PolicyEnforcer.enforce (policy_enforcer self) "execute"
    ("conversation/" +:+ conversation_id)
    (Some [("conversation_id", JStr conversation_id)]).

Definition gate_event (conversation_id : string) : Event :=
  EvEnforce "execute" ("conversation/" +:+ conversation_id)
            (JObj [("conversation_id", JStr conversation_id)]).

(** The system once the enforcer has answered and the state of the run
    has been constructed. *)
Definition started (conversation_id : string) (s : Sys U) (u : U) : Sys U :=
  mkSys (mkWorld (upd (heap (world s)) (next_loc (world s))
                      (State.new conversation_id))
                 (S (next_loc (world s))) (files (world s)) u)
        (trace s ++ [gate_event conversation_id]).

(** The system with [u] for its environment. *)
Definition with_env (u : U) (s : Sys U) : Sys U :=
  mkSys (mkWorld (heap (world s)) (next_loc (world s)) (files (world s)) u)
        (trace s).

End SupervisorVocabulary.

(** ** Checkpoint documents *)

(** A mapping as Python has it: no key comes twice, at any depth. *)
Fixpoint distinct (l : list string) : bool :=
  match l with
  | [] => true
  | k :: l' => negb (existsb (String.eqb k) l') && distinct l'
  end.

Fixpoint proper (v : Json) : bool :=
  match v with
  | JArr xs => forallb proper xs
  | JObj kvs => distinct (keys kvs) && forallb (fun kv => proper (snd kv)) kvs
  | _ => true
  end.

(** The fields a caller hands to [save]: none when it hands no mapping. *)
Definition given {A : Type} (metadata : option (Dict A)) : Dict A :=
  match metadata with Some c => c | None => [] end.

(** What [json] makes of the fields of a mapping with string keys, field
    by field. *)
Definition dump_values (d : Dict Obj) : Res (Dict Json) :=
  all_ok (fun kv =>
            match json_dump (snd kv) with
            | Ok v => Ok (fst kv, v)
            | Raise e => Raise e
            end) d.

(** The metadata [save] stores: the caller's, then the two generated
    fields assigned over it. *)
Definition stamped (metadata : option (Dict Json)) (now : datetime)
           (checkpoint_id : string) : Dict Json :=
  dict_set "checkpoint_id" (JStr checkpoint_id)
    (dict_set "timestamp" (JStr (isoformat now))
       (match metadata with Some c => c | None => [] end)).

(** The same fields as [save] hands them to [json.dump], and the object
    it hands over. *)
Definition stamped_objects (metadata : option (Dict Obj)) (now : datetime)
           (checkpoint_id : string) : Dict Obj :=
  dict_set "checkpoint_id" (OStr checkpoint_id)
    (dict_set "timestamp" (OStr (isoformat now)) (given metadata)).

Definition checkpoint_data (state : Obj) (metadata : Dict Obj) : Obj :=
  ODict [(KStr "state", state); (KStr "metadata", CheckpointStore.str_keyed metadata)].

(** The metadata [Supervisor.save_checkpoint] ends up storing. *)
Definition checkpoint_metadata (st : GraphState) (now : datetime) (id : string)
  : Dict Json :=
  [("conversation_id", JStr (conversation_id st));
   ("current_step", of_opt_str (current_step st));
   ("message_count", JNum (Z.of_nat (length (messages st))));
   ("timestamp", JStr (isoformat now));
   ("checkpoint_id", JStr id)].

(** The document stored for state [st]. *)
Definition snapshot (st : GraphState) (now : datetime) (id : string) : Json :=
  JObj [("state", to_dict st); ("metadata", JObj (checkpoint_metadata st now id))].

(** ** Listings *)

(** The timestamp of a summary, when it is a string. *)
Definition timestamp_of (x : Json) : string :=
  match py_get x "timestamp" (JStr EmptyString) with
  | Ok (JStr ts) => ts
  | _ => EmptyString
  end.

(** [a] may come before [b] in a list sorted newest first. *)
Definition newest_first (a b : Json) : Prop :=
  String.ltb (timestamp_of a) (timestamp_of b) = false.

(** A summary whose sort key is a string. *)
Definition dated (x : Json) : Prop :=
  exists ts, py_get x "timestamp" (JStr EmptyString) = Ok (JStr ts).

(** A decorated item: the key is the timestamp of the item. *)
Definition keyed_by_date (p : Json * Json) : Prop :=
  fst p = JStr (timestamp_of (snd p)).

Definition newest_first_keyed (p q : Json * Json) : Prop :=
  newest_first (snd p) (snd q).

(** The mapping stored under [name] in a checkpoint document; empty when
    there is none. *)
Definition stored_part (name : string) (doc : Json) : Dict Json :=
  match doc with
  | JObj kvs =>
      match dict_get name kvs with
      | Some (JObj d) => d
      | _ => []
      end
  | _ => []
  end.

(** The summary of the unit stored in file [stem]. *)
Definition summary_of (stem : string) (doc : Json) : Json :=
  let md := stored_part "metadata" doc in
  let st := stored_part "state" doc in
  JObj [("checkpoint_id", field md "checkpoint_id" (JStr stem));
        ("timestamp", field md "timestamp" JNull);
        ("conversation_id", field st "conversation_id" JNull);
        ("current_step", field st "current_step" JNull);
        ("metadata", JObj md)].

(** The unit belongs to conversation [x]. *)
Definition belongs_to (x : string) (doc : Json) : bool :=
  match field (stored_part "state" doc) "conversation_id" JNull with
  | JStr c => String.eqb c x
  | _ => false
  end.

(** The units a call with argument [conversation_id] is to list: those
    of that conversation; all of them when the argument is absent or the
    empty string. *)
Definition selected (conversation_id : option string) (doc : Json) : bool :=
  match conversation_id with
  | None => true
  | Some x => if String.eqb x EmptyString then true else belongs_to x doc
  end.

Fixpoint listed (conversation_id : option string) (dir : Dir) : list Json :=
  match dir with
  | [] => []
  | (stem, FJson doc) :: rest =>
      if selected conversation_id doc
      then summary_of stem doc :: listed conversation_id rest
      else listed conversation_id rest
  | (_, FError _) :: rest => listed conversation_id rest
  end.

(** A document in the shape [save] writes: a mapping whose ["state"], if
    any, is a mapping and whose ["metadata"] is a mapping with a string
    ["timestamp"]. *)
Definition well_formed (doc : Json) : bool :=
  match doc with
  | JObj kvs =>
      match dict_get "state" kvs with
      | None | Some (JObj _) => true
      | _ => false
      end &&
      match dict_get "metadata" kvs with
      | Some (JObj md) =>
          match dict_get "timestamp" md with
          | Some (JStr _) => true
          | _ => false
          end
      | _ => false
      end
  | _ => false
  end.

(** A file the listing copes with: such a document, or a file whose
    reading raises one of the two exceptions the loop catches. *)
Definition listable (entry : string * FileEntry) : bool :=
  match snd entry with
  | FJson doc => well_formed doc
  | FError e =>
      match exn_class e with
      | JSONDecodeError | IOError => true
      | _ => false
      end
  end.

(** A document the listing can summarise: a mapping whose ["state"],
    if present, is a mapping and whose ["metadata"] is a mapping, with
    or without a timestamp. *)
Definition shaped (entry : string * FileEntry) : bool :=
  match snd entry with
  | FJson (JObj kvs) =>
      match dict_get "state" kvs with
      | None | Some (JObj _) => true
      | _ => false
      end &&
      match dict_get "metadata" kvs with
      | Some (JObj _) => true
      | _ => false
      end
  | FJson _ => false
  | FError e =>
      match exn_class e with
      | JSONDecodeError | IOError => true
      | _ => false
      end
  end.

(** A summary whose timestamp is [None]: the stored metadata had none. *)
Definition undated_summary (x : Json) : Prop :=
  py_get x "timestamp" (JStr EmptyString) = Ok JNull.

(** A sort key that is a string or [None]. *)
Definition date_or_none (k : Json) : Prop :=
  (exists ts, k = JStr ts) \/ k = JNull.

(** ** Messages of the nodes *)

(** The document of a message a node sends at time [now] with the id
    drawn as [hex]. *)
Definition node_message (p : Fipa.Performative) (receiver content : Json)
           (conversation_id : string) (reply_to : Json)
           (now : datetime) (hex : string) : Dict Json :=
  Fipa.to_dict
    (Fipa.mkMessage p (JStr "jayz-wayz") receiver content (JStr conversation_id)
                    reply_to (JStr "fipa-request") (JStr "json") JNull now
                    (JStr (Nodes.uuid_str hex)) (JObj [])).

(** The text a message carries. *)
Definition text_of (message : Dict Json) : Json :=
  match dict_get "content" message with
  | Some (JObj content) => field content "text" JNull
  | _ => JNull
  end.

(** A node that keeps to its state and only adds to the conversation:
    it returns the reference it was given or raises, and then has changed
    nothing in the state; it appends at most one message and removes
    none; it leaves the conversation id, the metadata and the checkpoint
    list of the state as they are, and the checkpoint directory and the
    allocator too. *)
Definition appends_only {U : Type} (f : NodeFunc U) : Prop :=
  forall (l : loc) (w : World U),
    let out := call f l w in
    (fst out = Ok l \/ exists e, fst out = Raise e /\ heap (snd out) l = heap w l) /\
    (exists new, messages (heap (snd out) l) = messages (heap w l) ++ new /\
                 (length new <= 1)%nat) /\
    State.conversation_id (heap (snd out) l) = State.conversation_id (heap w l) /\
    metadata (heap (snd out) l) = metadata (heap w l) /\
    checkpoints (heap (snd out) l) = checkpoints (heap w l) /\
    files (snd out) = files w /\
    next_loc (snd out) = next_loc w.

(** ** Cleaning up *)



(* ================================================================= *)
(** * Scenarios *)

Module Scenario.

(** The environment: the counter that [flaky_node] closes over. *)
Definition world0 (cid : string) : World nat :=
  mkWorld (fun _ => State.new cid) 1%nat [] O.

Definition sys0 (cid : string) : Sys nat := mkSys (world0 cid) [].

Definition marking_node (key : string) : NodeFunc nat :=
  mkNode false
    (fun l => modify (mutate l (with_metadata_item key (JBool true))) ;;; ret l).

Definition node1 : NodeFunc nat := marking_node "node1".
Definition node3 : NodeFunc nat := marking_node "node3".

(** A node that raises after it has begun to change the state. *)
Definition error_node : NodeFunc nat :=
  mkNode false
    (fun l =>
       modify (mutate l (with_metadata_item "started" (JBool true))) ;;;
       raise (Exn RuntimeError "Intentional error")).

Definition flaky_node : NodeFunc nat :=
  mkNode false
    (fun l w =>
       let count := S (env w) in
       let w1 := mkWorld (heap w) (next_loc w) (files w) count in
       if (count <? 2)%nat
       then (Raise (Exn ValueError "Temporary failure"), w1)
       else (Ok l, mutate l (with_metadata_item "attempts"
                               (JNum (Z.of_nat count))) w1)).

Definition failing_node : NodeFunc nat :=
  mkNode false (fun _ => raise (Exn ValueError "Permanent failure")).

Definition slow_node : NodeFunc nat :=
  mkNode true (fun _ => raise (Exn TimeoutError EmptyString)).

Definition flag_condition : CondFunc nat :=
  mkCond false
    (fun l w => (Ok (match dict_get "flag" (metadata (heap w l)) with
                     | Some v => truthy v
                     | None => false
                     end), w)).

Definition broken_condition : CondFunc nat :=
  mkCond false (fun _ => raise (Exn KeyError "'flag'")).

Definition three_nodes : Dict (NodeFunc nat) :=
  [("node1", node1); ("error_node", error_node); ("node3", node3)].

Definition two_tries : RunnerConfig := mkRunnerConfig 5 2 (1 # 10).
Definition three_tries : RunnerConfig := mkRunnerConfig 5 3 (1 # 10).

(** A state in which an earlier step has recorded an error. *)
Definition errored_sys : Sys nat :=
  mkSys (mutate O (with_error (Some "first failure")) (world0 "test-9")) [].

End Scenario.
Import Scenario.

Module PolicyScenario.

(** An enforcer that allows everything, and counts what it is asked. *)
Definition allow_all : PolicyEnforcer.t nat :=
  PolicyEnforcer.mk (fun _ _ _ n => (Ok (JBool true), S n)).

(** An enforcer whose server cannot be reached. *)
Definition unreachable : PolicyEnforcer.t nat :=
  PolicyEnforcer.mk (fun _ _ _ => raise (Exn ClientError "Connection failed")).

Definition post_reply (status : Z) (doc : Json)
  : OPAHttpPolicyEnforcer.ClientSession -> string -> Json -> Z ->
    M unit OPAHttpPolicyEnforcer.Response :=
  fun _ _ _ _ => ret (OPAHttpPolicyEnforcer.mkResponse status (Ok doc)).

Definition post_unreachable
  : OPAHttpPolicyEnforcer.ClientSession -> string -> Json -> Z ->
    M unit OPAHttpPolicyEnforcer.Response :=
  fun _ _ _ _ => raise (Exn ClientError "Connection failed").

Definition test_opa : OPAHttpPolicyEnforcer.t :=
  OPAHttpPolicyEnforcer.new "http://test-opa:8181/" "/v1/data/authz/allow" 5.

End PolicyScenario.
Import PolicyScenario.

Module StoreScenario.

(** A clock that advances by one second at each reading. *)
Definition ticking : M nat datetime :=
  fun n => (Ok (mkDatetime 2025 1 5 9 3 n 0), S n).

Definition flat (name : string) : string := "checkpoints/" +:+ name.

Definition empty_world : World nat := mkWorld (fun _ => State.new EmptyString) O [] 7%nat.

Definition conv1 : GraphState :=
  mkGraphState "conv-1" [[("text", JStr "test message")]] [] [] (Some "step1") None.

End StoreScenario.
Import StoreScenario.

Module ListingScenario.

(** The document [save] writes for a new state of conversation [conv]. *)
Definition unit_at (id conv ts : string) : FileEntry :=
  FJson (JObj [("state", to_dict (State.new conv));
               ("metadata", JObj [("timestamp", JStr ts);
                                  ("checkpoint_id", JStr id)])]).

(** A document written by other means, without a timestamp. *)
Definition undated (id conv : string) : FileEntry :=
  FJson (JObj [("state", to_dict (State.new conv));
               ("metadata", JObj [("checkpoint_id", JStr id)])]).

Definition store (dir : Dir) : World nat := mkWorld (fun _ => State.new EmptyString) O dir O.

Definition three_units : Dir :=
  [("checkpoint-1", unit_at "checkpoint-1" "conv-1" "2025-01-05T09:03:07+00:00");
   ("broken", FError (Exn JSONDecodeError "Expecting value"));
   ("checkpoint-2", unit_at "checkpoint-2" "conv-2" "2025-01-05T09:03:08+00:00");
   ("checkpoint-3", unit_at "checkpoint-3" "conv-1" "2025-01-05T09:03:09+00:00")].

Definition summary (id conv ts : string) : Json :=
  JObj [("checkpoint_id", JStr id); ("timestamp", JStr ts);
        ("conversation_id", JStr conv); ("current_step", JNull);
        ("metadata", JObj [("timestamp", JStr ts); ("checkpoint_id", JStr id)])].

End ListingScenario.
Import ListingScenario.

Module SupervisorScenario.

Definition uuid : M nat string :=
  fun n => (Ok "9f2c4e1ab07d4c55a1e3b6f0c2d4e6f8", n).

Definition guarded : Supervisor.t nat :=
  Supervisor.mk default_config LocalDenyEnforcer.new.

Definition open_house : Supervisor.t nat :=
  Supervisor.mk default_config allow_all.

Definition two_nodes : Dict (NodeFunc nat) := [("node1", node1); ("node3", node3)].

(** A node that records, among the checkpoints of the state, the id the
    supervisor is about to draw. *)
Definition recorder : NodeFunc nat :=
  mkNode false
    (fun l => modify (mutate l (add_checkpoint "conv-1_9f2c4e1a")) ;;; ret l).

Definition run (self : Supervisor.t nat) :=
  Supervisor.run_conversation ticking flat uuid self "conv-1" (Some two_nodes) true
                              (sys0 EmptyString).

End SupervisorScenario.
Import SupervisorScenario.

Module MessageScenario.

(** A clock that has stopped at noon, and the parser on that one time. *)
Definition noon : datetime := mkDatetime 2024 1 1 12 0 0 0.

Definition stopped {U : Type} : M U datetime := ret noon.

Definition parse_noon (s : string) : Res datetime :=
  if String.eqb s "2024-01-01T12:00:00" then Ok noon
  else Raise (Exn ValueError ("Invalid isoformat string: '" +:+ s +:+ "'")).

(** The message of [test_message_roundtrip_serialization]. *)
Definition confirmation : Fipa.Message :=
  Fipa.mkMessage Fipa.CONFIRM (JStr "agent-a") (JStr "agent-b")
    (JObj [("confirmed", JBool true); ("details", JObj [("count", JNum 42)])])
    (JStr "conv-roundtrip") (JStr "prev-msg") (JStr "custom-protocol") (JStr "json")
    (JStr "test-ontology") noon (JStr "msg-roundtrip") (JObj [("key", JStr "value")]).

End MessageScenario.
Import MessageScenario.

Module NodeScenario.

(** A random source that draws the same id every time. *)
Definition fixed_uuid {U : Type} : M U string :=
  ret "9f2c4e1ab07d4c55a1e3b6f0c2d4e6f8".

(** [str] on strings, which is all these scenarios format. *)
Definition text_str (v : Json) : string :=
  match v with
  | JStr t => t
  | _ => type_name v
  end.

(** A conversation in which the user has said something. *)
Definition asked : GraphState :=
  mkGraphState "conv-1"
    [[("sender", JStr "user"); ("content", JObj [("text", JStr "hi")]);
      ("message_id", JStr "m-1")]]
    [] [] None None.

Definition asked_world : World nat := mkWorld (fun _ => asked) 1%nat [] O.

Definition handler_only : Dict (NodeFunc nat) :=
  [("handler", Nodes.error_handler_node stopped fixed_uuid)].

End NodeScenario.
Import NodeScenario.

Module OpaScenario.

(** A system whose environment holds an OPA enforcer object and a
    network without state. *)
Definition opa_sys : Sys (OPAHttpPolicyEnforcer.t * unit) :=
  mkSys (mkWorld (fun _ => State.new EmptyString) 1%nat [] (test_opa, tt)) [].

End OpaScenario.
Import OpaScenario.

Module CleanupScenario.



(** A stored document with no ["state"]. *)
Definition stateless : Dir :=
  [("cp", FJson (JObj [("metadata", JObj [("checkpoint_id", JStr "cp")])]))].

End CleanupScenario.
Import CleanupScenario.

(* ================================================================= *)
(** * Properties *)

(** ** The runner *)

Section RunnerProperties.
Context {U : Type}.
Variable config : RunnerConfig.

Implicit Types (f : NodeFunc U) (l : loc) (w : World U) (s : Sys U).
Implicit Types (nodes : Dict (NodeFunc U)).

Lemma node_calls_app tr1 tr2 :
  node_calls (tr1 ++ tr2) = (node_calls tr1 + node_calls tr2)%nat.
Proof. unfold node_calls. now rewrite filter_app, length_app. Qed.

Lemma node_calls_retries node_name k : node_calls (retries config node_name k) = k.
Proof. induction k as [|k IH]; simpl; [reflexivity|]. unfold node_calls in *. simpl. now rewrite IH. Qed.

Lemma execute_node_eq f l w tr :
  _execute_node f l (mkSys w tr) =
  (fst (call f l w), mkSys (snd (call f l w)) tr).
Proof.
  unfold _execute_node, on_world.
  destruct (is_coroutine f); cbn [world trace];
    destruct (call f l w); reflexivity.
Qed.

(** One round of the retry loop whose attempt raises before the last. *)
Lemma attempts_retry f l node_name attempt rest w tr e w' :
  call f l w = (Raise e, w') ->
  (attempt =? max_retries config - 1) = false ->
  attempts config f l node_name (attempt :: rest) (mkSys w tr) =
  attempts config f l node_name rest
           (mkSys w' (tr ++ [EvAttempt node_name; EvSleep (retry_delay config)])).
Proof.
  intros Hc Hn. cbn [attempts]. unfold try_except at 1.
  unfold bind at 1, log at 1. cbn [world trace].
  rewrite execute_node_eq, Hc. cbn [fst snd]. rewrite Hn.
  assert (Hs : forall k : M (Sys U) loc,
             bind (sleep (retry_delay config)) (fun _ => k)
                  (mkSys w' (tr ++ [EvAttempt node_name])) =
             k (mkSys w' (tr ++ [EvAttempt node_name; EvSleep (retry_delay config)]))).
  { intros k. unfold bind, sleep, log. cbn [world trace].
    now rewrite <- app_assoc. }
  destruct (is_timeout e); apply Hs.
Qed.

(** The round whose attempt returns. *)
Lemma attempts_return f l node_name attempt rest w tr l' w' :
  call f l w = (Ok l', w') ->
  attempts config f l node_name (attempt :: rest) (mkSys w tr) =
  (Ok l', mkSys w' (tr ++ [EvAttempt node_name])).
Proof.
  intros Hc. cbn [attempts]. unfold try_except, bind, log. cbn [world trace].
  now rewrite execute_node_eq, Hc.
Qed.

(** The last round, whose attempt raises. *)
Lemma attempts_give_up f l node_name attempt rest w tr e w' :
  call f l w = (Raise e, w') ->
  (attempt =? max_retries config - 1) = true ->
  attempts config f l node_name (attempt :: rest) (mkSys w tr) =
  (Raise e,
   mkSys (mutate l (with_error (Some (failure_message config node_name e))) w')
         (tr ++ [EvAttempt node_name])).
Proof.
  intros Hc Hn. cbn [attempts]. unfold try_except at 1.
  unfold bind at 1, log at 1. cbn [world trace].
  rewrite execute_node_eq, Hc. cbn [fst snd]. rewrite Hn.
  unfold failure_message.
  destruct (is_timeout e); reflexivity.
Qed.

Section OneNode.
Variables (f : NodeFunc U) (l : loc) (node_name : string).

Lemma attempts_success m : forall a j w tr wj l' w',
  Z.of_nat (a + m) = max_retries config ->
  (j < m)%nat ->
  fails f l j w = Some wj ->
  call f l wj = (Ok l', w') ->
  attempts config f l node_name (map Z.of_nat (seq a m)) (mkSys w tr) =
  (Ok l', mkSys w' (tr ++ retries config node_name j ++ [EvAttempt node_name])).
Proof.
  induction m as [|m IH]; intros a j w tr wj l' w' Hn Hj Hf Hc; [lia|].
  cbn [seq map]. destruct j as [|j].
  - injection Hf as <-. now apply attempts_return.
  - cbn [fails] in Hf.
    destruct (call f l w) as [[l1|e] w1] eqn:Hw; [discriminate|].
    rewrite (attempts_retry _ _ _ _ _ _ _ _ _ Hw) by (apply Z.eqb_neq; lia).
    rewrite (IH (S a) j w1 _ wj l' w'); try assumption; try lia.
    cbn [retries]. now rewrite <- app_assoc.
Qed.

Lemma attempts_exhausted m : forall a w tr wl e wn,
  Z.of_nat (a + S m) = max_retries config ->
  fails f l m w = Some wl ->
  call f l wl = (Raise e, wn) ->
  attempts config f l node_name (map Z.of_nat (seq a (S m))) (mkSys w tr) =
  (Raise e,
   mkSys (mutate l (with_error (Some (failure_message config node_name e))) wn)
         (tr ++ retries config node_name m ++ [EvAttempt node_name])).
Proof.
  induction m as [|m IH]; intros a w tr wl e wn Hn Hf Hc.
  - injection Hf as <-. cbn [seq map].
    now apply attempts_give_up; [|apply Z.eqb_eq; lia].
  - cbn [fails] in Hf.
    destruct (call f l w) as [[l1|e1] w1] eqn:Hw; [discriminate|].
    change (seq a (S (S m))) with (a :: seq (S a) (S m)). cbn [map].
    rewrite (attempts_retry _ _ _ _ _ _ _ _ _ Hw) by (apply Z.eqb_neq; lia).
    rewrite (IH (S a) w1 _ wl e wn); try assumption; try lia.
    cbn [retries]. now rewrite <- app_assoc.
Qed.

Lemma attempts_calls_bound rng : forall s,
  exists evs,
    trace (snd (attempts config f l node_name rng s)) = trace s ++ evs /\
    (node_calls evs <= length rng)%nat.
Proof.
  induction rng as [|attempt rest IH]; intros [w tr].
  - exists []. cbn. split; [now rewrite app_nil_r | lia].
  - destruct (call f l w) as [[l'|e] w'] eqn:Hw.
    + rewrite (attempts_return _ _ _ _ _ _ _ _ _ Hw).
      exists [EvAttempt node_name]. cbn. split; [reflexivity | lia].
    + destruct (attempt =? max_retries config - 1) eqn:Hlast.
      * rewrite (attempts_give_up _ _ _ _ _ _ _ _ _ Hw Hlast).
        exists [EvAttempt node_name]. cbn. split; [reflexivity | lia].
      * rewrite (attempts_retry _ _ _ _ _ _ _ _ _ Hw Hlast).
        destruct (IH (mkSys w' (tr ++ [EvAttempt node_name;
                                      EvSleep (retry_delay config)])))
          as (evs & Ht & Hb).
        exists ([EvAttempt node_name; EvSleep (retry_delay config)] ++ evs).
        split.
        -- rewrite Ht. cbn [trace]. now rewrite <- app_assoc.
        -- rewrite node_calls_app. cbn. unfold node_calls in *. cbn. lia.
Qed.

(** Either some attempt among the first [m] returns, or all [m] raise. *)
Lemma fails_dichotomy m : forall w,
  (exists j wj l' w', (j < m)%nat /\ fails f l j w = Some wj /\
                      call f l wj = (Ok l', w')) \/
  (exists wm, fails f l m w = Some wm).
Proof.
  induction m as [|m IH]; intros w.
  - right. now exists w.
  - destruct (call f l w) as [[l'|e] w'] eqn:Hw.
    + left. exists O, w, l', w'. repeat split; [lia | assumption].
    + destruct (IH w') as [(j & wj & l' & w'' & Hj & Hf & Hc) | (wm & Hf)].
      * left. exists (S j), wj, l', w''. cbn [fails]. rewrite Hw.
        repeat split; [lia | assumption | assumption].
      * right. exists wm. cbn [fails]. now rewrite Hw.
Qed.

Lemma fails_last m : forall w wm,
  fails f l (S m) w = Some wm ->
  exists wl e, fails f l m w = Some wl /\ call f l wl = (Raise e, wm).
Proof.
  induction m as [|m IH]; intros w wm Hf.
  - cbn [fails] in Hf. destruct (call f l w) as [[l'|e] w'] eqn:Hw; [discriminate|].
    injection Hf as <-. now exists w, e.
  - cbn [fails] in Hf. destruct (call f l w) as [[l'|e] w'] eqn:Hw; [discriminate|].
    destruct (IH w' wm Hf) as (wl & e' & Hf' & Hc).
    exists wl, e'. cbn [fails]. rewrite Hw. now split.
Qed.

Lemma run_node_eq s :
  run_node config f l node_name s =
  attempts config f l node_name (range (max_retries config))
           (mkSys (mutate l (with_current_step (Some node_name)) (world s))
                  (trace s)).
Proof. reflexivity. Qed.

(** Whenever [run_node] raises, it has just recorded the failure of the
    node in the state it was given. *)
Lemma attempts_raise_records rng : forall s e s',
  attempts config f l node_name rng s = (Raise e, s') ->
  error (heap (world s') l) = Some (failure_message config node_name e).
Proof.
  induction rng as [|attempt rest IH]; intros [w tr] e s' H; [discriminate|].
  destruct (call f l w) as [[l'|e1] w'] eqn:Hw.
  - now rewrite (attempts_return _ _ _ _ _ _ _ _ _ Hw) in H.
  - destruct (attempt =? max_retries config - 1) eqn:Hlast.
    + rewrite (attempts_give_up _ _ _ _ _ _ _ _ _ Hw Hlast) in H.
      injection H as <- <-. cbn. unfold upd. now rewrite Nat.eqb_refl.
    + rewrite (attempts_retry _ _ _ _ _ _ _ _ _ Hw Hlast) in H. eauto.
Qed.

Lemma range_of_nat n :
  max_retries config = Z.of_nat n ->
  range (max_retries config) = map Z.of_nat (seq 0 n).
Proof. intros Hn. unfold range. now rewrite Hn, Nat2Z.id. Qed.

(** The first attempt to return decides the outcome of [run_node]. *)
Lemma run_node_returns s n j wj l' w' :
  max_retries config = Z.of_nat n ->
  (j < n)%nat ->
  fails f l j (mutate l (with_current_step (Some node_name)) (world s)) = Some wj ->
  call f l wj = (Ok l', w') ->
  run_node config f l node_name s =
  (Ok l', mkSys w' (trace s ++ retries config node_name j ++ [EvAttempt node_name])).
Proof.
  intros Hn Hj Hf Hc. rewrite run_node_eq, (range_of_nat n Hn).
  now apply attempts_success with (wj := wj).
Qed.

(** When every attempt raises, [run_node] records the failure and raises. *)
Lemma run_node_gives_up s n wl e wn :
  max_retries config = Z.of_nat n ->
  (1 <= n)%nat ->
  fails f l (n - 1) (mutate l (with_current_step (Some node_name)) (world s))
    = Some wl ->
  call f l wl = (Raise e, wn) ->
  run_node config f l node_name s =
  (Raise e,
   mkSys (mutate l (with_error (Some (failure_message config node_name e))) wn)
         (trace s ++ retries config node_name (n - 1) ++ [EvAttempt node_name])).
Proof.
  intros Hn Hpos Hf Hc. rewrite run_node_eq, (range_of_nat n Hn).
  replace n with (S (n - 1)) at 1 by lia.
  now apply attempts_exhausted with (wl := wl); [lia| |].
Qed.

End OneNode.

(** C3.  With [max_retries = n >= 1], [run_node] sets [current_step] to
    the given name before the first attempt; calls the node at most [n]
    times; when attempt [j+1 <= n] is the first to return, returns what
    the node returned and leaves the world as the node left it, [error]
    included; when all [n] attempts raise, records the failure message in
    [error] and raises the last exception; and raises in no other case. *)
Theorem run_node_retries f l node_name s n :
  max_retries config = Z.of_nat n ->
  (1 <= n)%nat ->
  let w0 := mutate l (with_current_step (Some node_name)) (world s) in
  let out := run_node config f l node_name s in
  current_step (heap w0 l) = Some node_name /\
  (exists evs, trace (snd out) = trace s ++ evs /\ (node_calls evs <= n)%nat) /\
  (forall j wj l' w',
      (j < n)%nat -> fails f l j w0 = Some wj -> call f l wj = (Ok l', w') ->
      out = (Ok l', mkSys w' (trace s ++ retries config node_name j ++ [EvAttempt node_name]))) /\
  (forall wl e wn,
      fails f l (n - 1) w0 = Some wl -> call f l wl = (Raise e, wn) ->
      out = (Raise e,
             mkSys (mutate l (with_error (Some (failure_message config node_name e))) wn)
                   (trace s ++ retries config node_name (n - 1) ++ [EvAttempt node_name]))) /\
  (forall e s',
      out = (Raise e, s') ->
      exists wl wn, fails f l (n - 1) w0 = Some wl /\ call f l wl = (Raise e, wn)).
Proof.
  intros Hn Hpos w0 out.
  assert (Hrange := range_of_nat n Hn).
  assert (Hok : forall j wj l' w',
             (j < n)%nat -> fails f l j w0 = Some wj -> call f l wj = (Ok l', w') ->
             out = (Ok l', mkSys w' (trace s ++ retries config node_name j
                                             ++ [EvAttempt node_name])))
    by (intros; now apply run_node_returns with (n := n) (wj := wj)).
  assert (Hko : forall wl e wn,
             fails f l (n - 1) w0 = Some wl -> call f l wl = (Raise e, wn) ->
             out = (Raise e,
                    mkSys (mutate l (with_error (Some (failure_message config node_name e))) wn)
                          (trace s ++ retries config node_name (n - 1)
                                   ++ [EvAttempt node_name])))
    by (intros; now apply run_node_gives_up with (wl := wl)).
  split; [|split; [|split; [|split]]]; try assumption.
  - cbn. unfold upd. now rewrite Nat.eqb_refl.
  - subst out. rewrite run_node_eq.
    destruct (attempts_calls_bound f l node_name (range (max_retries config))
                (mkSys w0 (trace s))) as (evs & Ht & Hb).
    exists evs. split; [exact Ht|].
    rewrite Hrange, length_map, length_seq in Hb. exact Hb.
  - intros e s' Hout.
    destruct (fails_dichotomy f l n w0)
      as [(j & wj & l' & w' & Hj & Hf & Hc) | (wm & Hf)].
    + rewrite (Hok j wj l' w' Hj Hf Hc) in Hout. discriminate.
    + replace n with (S (n - 1)) in Hf by lia.
      destruct (fails_last f l _ _ _ Hf) as (wl & e' & Hf' & Hc).
      rewrite (Hko wl e' wm Hf' Hc) in Hout. injection Hout as <- _.
      now exists wl, wm.
Qed.

(** *** The loop of [run_graph] *)

Lemma graph_body_missing nodes l node_name s :
  dict_get node_name nodes = None ->
  graph_body config nodes l node_name s =
  (Ok (Break l),
   mkSys (mutate l (with_error (Some (not_found_message node_name))) (world s))
         (trace s)).
Proof. intros H. unfold graph_body. now rewrite H. Qed.

Lemma graph_body_errored nodes l node_name s f :
  dict_get node_name nodes = Some f ->
  truthy_str (error (heap (world s) l)) = true ->
  graph_body config nodes l node_name s = (Ok (Break l), s).
Proof.
  intros H He. unfold graph_body. rewrite H.
  unfold bind, read, gets. now rewrite He.
Qed.

Lemma graph_body_run nodes l node_name s f :
  dict_get node_name nodes = Some f ->
  truthy_str (error (heap (world s) l)) = false ->
  graph_body config nodes l node_name s =
  match run_node config f l node_name s with
  | (Ok l', s') => (Ok (Continue l'), s')
  | (Raise _, s') => (Ok (Break l), s')
  end.
Proof.
  intros H He. unfold graph_body. rewrite H.
  unfold bind at 1, read, gets. rewrite He.
  unfold try_except, bind, ret.
  now destruct (run_node config f l node_name s) as [[l'|e] s'].
Qed.

Lemma graph_loop_passes nodes pre : forall l s l1 s1 post,
  passes config nodes l pre s = Some (l1, s1) ->
  graph_loop config nodes l (pre ++ post) s = graph_loop config nodes l1 post s1.
Proof.
  induction pre as [|name pre IH]; intros l s l1 s1 post H.
  - now injection H as <- <-.
  - cbn [passes] in H. cbn [app graph_loop]. unfold bind at 1.
    destruct (graph_body config nodes l name s) as [[[l'|l']|e] s'];
      try discriminate.
    now apply IH.
Qed.

Lemma run_graph_order nodes l node_order :
  run_graph config nodes l node_order =
  graph_loop config nodes l (order_followed nodes node_order).
Proof. reflexivity. Qed.

Lemma failure_message_nonempty node_name e : failure_message config node_name e <> EmptyString.
Proof. unfold failure_message. now destruct (is_timeout e). Qed.

(** C1.  Let the order [run_graph] follows be any list of names, and
    let its loop have gone through the names before some position and
    reached there, with no error recorded, a name bound to a
    node all of whose [n = max_retries >= 1] attempts raise.  Then
    [run_graph] returns the state that node was given; the world is the
    one the last attempt left (what the earlier nodes and the attempts of
    this one did is all there) with only [error] assigned; the log ends
    with the last attempt of that node, so that no later node is called;
    and the recorded error is not empty. *)
Theorem run_graph_stops_at_failure
        nodes l s node_order pre node_name post f l1 s1 n wl e wn :
  max_retries config = Z.of_nat n ->
  (1 <= n)%nat ->
  order_followed nodes node_order = pre ++ node_name :: post ->
  passes config nodes l pre s = Some (l1, s1) ->
  dict_get node_name nodes = Some f ->
  truthy_str (error (heap (world s1) l1)) = false ->
  fails f l1 (n - 1) (mutate l1 (with_current_step (Some node_name)) (world s1))
    = Some wl ->
  call f l1 wl = (Raise e, wn) ->
  let out := run_graph config nodes l node_order s in
  fst out = Ok l1 /\
  world (snd out) = mutate l1 (with_error (Some (failure_message config node_name e))) wn /\
  trace (snd out) = trace s1 ++ retries config node_name (n - 1) ++ [EvAttempt node_name] /\
  (exists msg, error (heap (world (snd out)) l1) = Some msg /\ msg <> EmptyString).
Proof.
  intros Hn Hpos Horder Hpre Hf Herr Hfails Hcall out.
  pose proof (run_node_gives_up f l1 node_name s1 n wl e wn Hn Hpos Hfails Hcall)
    as Hko.
  assert (Hout : out =
    (Ok l1, mkSys (mutate l1 (with_error (Some (failure_message config node_name e))) wn)
                  (trace s1 ++ retries config node_name (n - 1) ++ [EvAttempt node_name]))).
  { subst out.
    rewrite run_graph_order, Horder, (graph_loop_passes _ _ _ _ _ _ _ Hpre).
    cbn [graph_loop]. unfold bind at 1.
    rewrite (graph_body_run _ _ _ _ _ Hf Herr), Hko. reflexivity. }
  rewrite Hout. cbn [fst snd world trace]. repeat split.
  exists (failure_message config node_name e). split.
  - cbn. unfold upd. now rewrite Nat.eqb_refl.
  - apply failure_message_nonempty.
Qed.

(** C2, as the code has it.  Let the loop of [run_graph] reach a
    position with a non-empty [error] in the current state.  If the name
    at that position is in the node map, [run_graph] returns that state
    at once: nothing is called and nothing changes, the recorded error
    least of all.  If the name is not in the node map, the test for it
    comes first, and the recorded error is replaced by the not-found
    message; nothing else changes and nothing is called. *)
Theorem run_graph_error_already_set
        nodes l s node_order pre node_name post l1 s1 msg :
  order_followed nodes node_order = pre ++ node_name :: post ->
  passes config nodes l pre s = Some (l1, s1) ->
  error (heap (world s1) l1) = Some msg ->
  msg <> EmptyString ->
  let out := run_graph config nodes l node_order s in
  (forall f, dict_get node_name nodes = Some f -> out = (Ok l1, s1)) /\
  (dict_get node_name nodes = None ->
   out = (Ok l1,
          mkSys (mutate l1 (with_error (Some (not_found_message node_name)))
                        (world s1))
                (trace s1))).
Proof.
  intros Horder Hpre Herr Hmsg out. subst out.
  rewrite run_graph_order, Horder, (graph_loop_passes _ _ _ _ _ _ _ Hpre).
  cbn [graph_loop]. split.
  - intros f Hf. unfold bind at 1.
    rewrite (graph_body_errored _ _ _ _ _ Hf); [reflexivity|].
    rewrite Herr. cbn. apply negb_true_iff. now apply String.eqb_neq.
  - intros Hf. unfold bind at 1. now rewrite (graph_body_missing _ _ _ _ Hf).
Qed.

(** *** [run_conditional] *)

(** C9.  [run_conditional] always returns, and returns the state it was
    given whenever something raised.  If the condition raises, [error]
    becomes the message of the conditional.  If the condition returns and
    [run_node] on the selected branch raises, [run_node] has recorded the
    message of the node in [error], and [run_conditional] replaces it by
    its own. *)
Theorem run_conditional_never_raises
        (condition_func : CondFunc U) (true_node false_node : NodeFunc U)
        l node_name s :
  let out := run_conditional config condition_func true_node false_node
                             l node_name s in
  let asked := trace s ++ [EvCondition node_name] in
  (exists l', fst out = Ok l') /\
  (forall e w',
      cond_call condition_func l (world s) = (Raise e, w') ->
      out = (Ok l,
             mkSys (mutate l (with_error (Some (conditional_message node_name e))) w')
                   asked)) /\
  (forall (b : bool) w' e s',
      cond_call condition_func l (world s) = (Ok b, w') ->
      run_node config (if b then true_node else false_node) l
               (if b then node_name +:+ "_true" else node_name +:+ "_false")
               (mkSys w' asked) = (Raise e, s') ->
      error (heap (world s') l) =
        Some (failure_message config
                (if b then node_name +:+ "_true" else node_name +:+ "_false") e) /\
      out = (Ok l,
             mkSys (mutate l (with_error (Some (conditional_message node_name e)))
                           (world s'))
                   (trace s'))).
Proof.
  intros out asked.
  assert (Hcond :
    out =
    match cond_call condition_func l (world s) with
    | (Ok b, w') =>
        match run_node config (if b then true_node else false_node) l
                (if b then node_name +:+ "_true" else node_name +:+ "_false")
                (mkSys w' asked) with
        | (Ok l', s') => (Ok l', s')
        | (Raise e, s') =>
            (Ok l, mkSys (mutate l (with_error (Some (conditional_message node_name e)))
                                 (world s'))
                         (trace s'))
        end
    | (Raise e, w') =>
        (Ok l, mkSys (mutate l (with_error (Some (conditional_message node_name e))) w')
                     asked)
    end).
  { subst out asked. unfold run_conditional, try_except.
    unfold bind at 1 2, log. cbn [world trace].
    destruct (cond_is_coroutine condition_func); unfold on_world; cbn [world trace];
      destruct (cond_call condition_func l (world s)) as [[b|e] w'];
      try reflexivity;
      destruct (run_node config _ l _ _) as [[l'|e] s']; reflexivity. }
  split; [|split].
  - rewrite Hcond.
    destruct (cond_call condition_func l (world s)) as [[b|e] w'];
      [|now exists l].
    destruct (run_node config _ l _ _) as [[l'|e] s']; [now exists l' | now exists l].
  - intros e w' Hc. now rewrite Hcond, Hc.
  - intros b w' e s' Hc Hr. split.
    + rewrite run_node_eq in Hr.
      now apply attempts_raise_records in Hr.
    + now rewrite Hcond, Hc, Hr.
Qed.

End RunnerProperties.

(** *** The runner on the scenarios of [tests/test_async_graph.py] *)

Lemma run_graph_stops_at_failure_witness :
  let out := run_graph two_tries three_nodes O
                       (Some ["node1"; "error_node"; "node3"]) (sys0 "test-8") in
  let final := heap (world (snd out)) O in
  fst out = Ok O /\
  trace (snd out) =
    [EvAttempt "node1"; EvAttempt "error_node"; EvSleep (1 # 10);
     EvAttempt "error_node"] /\
  error final = Some "Node 'error_node' failed: Intentional error" /\
  dict_get "node1" (metadata final) = Some (JBool true) /\
  dict_get "started" (metadata final) = Some (JBool true) /\
  dict_get "node3" (metadata final) = None.
Proof.
  intros out final.
  edestruct (run_graph_stops_at_failure (U := nat) two_tries three_nodes O
               (sys0 "test-8") (Some ["node1"; "error_node"; "node3"])
               ["node1"] "error_node" ["node3"] error_node)
    with (n := 2%nat) as (H1 & H2 & H3 & _);
    [reflexivity | lia | reflexivity | reflexivity | reflexivity | reflexivity
    | reflexivity | reflexivity |].
  subst final out.
  split; [exact H1|]. split; [rewrite H3; reflexivity|].
  rewrite H2. repeat split.
Defined.

(** [test_runner_timeout]: one attempt, which exceeds its deadline. *)
Example run_node_timeout :
  let out := run_node (mkRunnerConfig 1 1 1%Q) slow_node O "slow_node" (sys0 "test-3") in
  fst out = Raise (Exn TimeoutError EmptyString) /\
  error (heap (world (snd out)) O) = Some "Node 'slow_node' timed out after 1s" /\
  trace (snd out) = [EvAttempt "slow_node"].
Proof. repeat split. Qed.

(** [test_runner_basic_execution]: both nodes run, in order, no error. *)
Example run_graph_basic :
  let out := run_graph default_config [("node1", node1); ("node3", node3)] O
                       None (sys0 "test-1") in
  fst out = Ok O /\
  error (heap (world (snd out)) O) = None /\
  metadata (heap (world (snd out)) O)
    = [("node1", JBool true); ("node3", JBool true)] /\
  trace (snd out) = [EvAttempt "node1"; EvAttempt "node3"].
Proof. repeat split. Qed.

Lemma run_node_retries_witness :
  let ok := run_node three_tries flaky_node O "flaky_node" (sys0 "test-4") in
  let ko := run_node two_tries failing_node O "failing_node" (sys0 "test-5") in
  (fst ok = Ok O /\
   trace (snd ok) =
     [EvAttempt "flaky_node"; EvSleep (1 # 10); EvAttempt "flaky_node"] /\
   error (heap (world (snd ok)) O) = None /\
   current_step (heap (world (snd ok)) O) = Some "flaky_node" /\
   dict_get "attempts" (metadata (heap (world (snd ok)) O)) = Some (JNum 2)) /\
  (fst ko = Raise (Exn ValueError "Permanent failure") /\
   trace (snd ko) =
     [EvAttempt "failing_node"; EvSleep (1 # 10); EvAttempt "failing_node"] /\
   error (heap (world (snd ko)) O) =
     Some "Node 'failing_node' failed: Permanent failure").
Proof.
  intros ok ko. split.
  - destruct (run_node_retries (U := nat) three_tries flaky_node O "flaky_node"
                (sys0 "test-4") 3%nat eq_refl ltac:(lia))
      as (_ & _ & Hok & _).
    subst ok. erewrite Hok with (j := 1%nat); [| lia | reflexivity | reflexivity].
    repeat split.
  - destruct (run_node_retries (U := nat) two_tries failing_node O "failing_node"
                (sys0 "test-5") 2%nat eq_refl ltac:(lia))
      as (_ & _ & _ & Hko & _).
    subst ko. erewrite Hko; [| reflexivity | reflexivity].
    repeat split.
Defined.

Lemma run_conditional_never_raises_witness :
  let cond_ko := run_conditional two_tries broken_condition node1 node3 O
                                 "conditional" (sys0 "test-6") in
  let branch_ko := run_conditional two_tries flag_condition node1 failing_node O
                                   "conditional" (sys0 "test-7") in
  (fst cond_ko = Ok O /\
   error (heap (world (snd cond_ko)) O) =
     Some "Conditional 'conditional' failed: 'flag'" /\
   trace (snd cond_ko) = [EvCondition "conditional"]) /\
  (fst branch_ko = Ok O /\
   error (heap (world (snd branch_ko)) O) =
     Some "Conditional 'conditional' failed: Permanent failure" /\
   trace (snd branch_ko) =
     [EvCondition "conditional"; EvAttempt "conditional_false"; EvSleep (1 # 10);
      EvAttempt "conditional_false"]).
Proof.
  intros cond_ko branch_ko. split.
  - destruct (run_conditional_never_raises (U := nat) two_tries broken_condition
                node1 node3 O "conditional" (sys0 "test-6")) as (_ & Hc & _).
    subst cond_ko. erewrite Hc; [| reflexivity]. repeat split.
  - destruct (run_conditional_never_raises (U := nat) two_tries flag_condition
                node1 failing_node O "conditional" (sys0 "test-7")) as (_ & _ & Hb).
    edestruct Hb with (b := false) as [_ Hout]; [reflexivity | reflexivity |].
    subst branch_ko. rewrite Hout. repeat split.
Defined.

(** C2 as stated fails where the name that comes next is not in the node
    map: the error recorded before is replaced. *)
Lemma run_graph_error_overwritten :
  let out := run_graph default_config [] O (Some ["ghost"]) errored_sys in
  error (heap (world errored_sys) O) = Some "first failure" /\
  fst out = Ok O /\
  error (heap (world (snd out)) O) = Some "Node 'ghost' not found in graph" /\
  error (heap (world (snd out)) O) <> error (heap (world errored_sys) O).
Proof. cbv. repeat split. discriminate. Qed.

Lemma run_graph_error_already_set_witness :
  run_graph default_config three_nodes O (Some ["node1"; "node3"]) errored_sys
    = (Ok O, errored_sys) /\
  error (heap (world (snd (run_graph default_config three_nodes O
                              (Some ["ghost"]) errored_sys))) O)
    = Some "Node 'ghost' not found in graph".
Proof.
  destruct (run_graph_error_already_set (U := nat) default_config three_nodes O
              errored_sys (Some ["node1"; "node3"]) [] "node1" ["node3"] O
              errored_sys "first failure"
              eq_refl eq_refl eq_refl ltac:(discriminate)) as [Hin _].
  destruct (run_graph_error_already_set (U := nat) default_config three_nodes O
              errored_sys (Some ["ghost"]) [] "ghost" [] O
              errored_sys "first failure"
              eq_refl eq_refl eq_refl ltac:(discriminate)) as [_ Hout].
  split.
  - exact (Hin node1 eq_refl).
  - rewrite (Hout eq_refl). reflexivity.
Defined.

(** ** The enforcers *)

Section CompositeProperties.
Context {St : Type}.
Import CompositePolicyEnforcer.

(** C4.  When the primary enforcer returns, with allow or with deny,
    the composite returns that value and the only call logged is the one
    to the primary.  When the primary raises, the fallback is called
    once, after it, with the same arguments and in the state the primary
    left, and what the fallback does is what the composite does. *)
Theorem composite_enforce_fallback
        (primary fallback : PolicyEnforcer.t St)
        (action resource : string) (context : option (Dict Json))
        (s : St) (calls : list Call) :
  let self := CompositePolicyEnforcer.mk primary fallback in
  let asked who := mkCall who action resource context in
  (forall v s',
      PolicyEnforcer.enforce primary action resource context s = (Ok v, s') ->
      enforce_logged self action resource context (s, calls)
        = (Ok v, (s', calls ++ [asked Primary])) /\
      enforce self action resource context s = (Ok v, s')) /\
  (forall e s',
      PolicyEnforcer.enforce primary action resource context s = (Raise e, s') ->
      let after := PolicyEnforcer.enforce fallback action resource context s' in
      enforce_logged self action resource context (s, calls)
        = (fst after, (snd after, calls ++ [asked Primary; asked Fallback])) /\
      enforce self action resource context s = after).
Proof.
  intros self asked. subst self. split.
  - intros v s' Hp. unfold enforce, enforce_logged, try_except, call_member.
    cbn [CompositePolicyEnforcer.primary]. rewrite Hp. now split.
  - intros e s' Hp after. subst after.
    unfold enforce, enforce_logged, try_except, call_member.
    cbn [CompositePolicyEnforcer.primary CompositePolicyEnforcer.fallback].
    rewrite Hp.
    destruct (PolicyEnforcer.enforce fallback action resource context s')
      as [r s''].
    cbn [fst snd]. rewrite <- app_assoc. now split.
Qed.

End CompositeProperties.

Section OPAProperties.
Context {U : Type}.
Import OPAHttpPolicyEnforcer.
Variable post : ClientSession -> string -> Json -> Z -> M U Response.

Lemma enforce_eq self u action resource context :
  fst (enforce post action resource context (self, u)) =
  match post (session_in_use self) (opa_url self +:+ "/" +:+ policy_path self)
             (opa_input action resource context) (timeout self) u with
  | (Ok response, _) =>
      if status response =? 200 then
        match json response with
        | Ok result => py_get result "result" (JBool false)
        | Raise e => Raise e
        end
      else Ok (JBool false)
  | (Raise e, _) => Raise e
  end.
Proof.
  assert (Hctx : match context with
                 | Some (kv :: kvs) => kv :: kvs
                 | _ => []
                 end = match context with Some c => c | None => [] end)
    by now destruct context as [[|]|].
  unfold enforce, opa_input, session_in_use. rewrite Hctx.
  unfold bind at 1, _get_session, on_self.
  destruct self as [url path t [[[|]]|]]; cbn [_session closed opa_url policy_path timeout];
    unfold bind at 1, gets; cbn [fst opa_url policy_path timeout];
    unfold try_except, bind, on_network;
    (destruct (post _ _ _ _ u) as [[response|e] u']; cbn [fst];
     [ destruct (status response =? 200);
       [ destruct (json response) as [a|e];
         [ destruct (py_get a "result" (JBool false)) as [x|e] | ] | ];
       cbn; try reflexivity
     | ]);
    destruct (exn_class e); reflexivity.
Qed.

(** C8.  Let the request be posted to the configured address.  A reply
    with status 200 whose document has a boolean ["result"] yields that
    boolean; a reply with any other status yields [False]; and when the
    request raises, for want of a connection or of time, [enforce] raises
    the same exception. *)
Theorem opa_enforce_outcomes self u action resource context :
  let sent := post (session_in_use self)
                   (opa_url self +:+ "/" +:+ policy_path self)
                   (opa_input action resource context) (timeout self) u in
  let out := enforce post action resource context (self, u) in
  (forall response u' kvs (b : bool),
      sent = (Ok response, u') -> status response = 200 ->
      json response = Ok (JObj kvs) -> dict_get "result" kvs = Some (JBool b) ->
      fst out = Ok (JBool b)) /\
  (forall response u',
      sent = (Ok response, u') -> status response <> 200 ->
      fst out = Ok (JBool false)) /\
  (forall e u', sent = (Raise e, u') -> fst out = Raise e).
Proof.
  intros sent out. subst sent out. rewrite enforce_eq. repeat split.
  - intros response u' kvs b -> -> -> H. cbn. now rewrite H.
  - intros response u' -> H. apply Z.eqb_neq in H. now rewrite H.
  - now intros e u' ->.
Qed.

End OPAProperties.

Lemma composite_enforce_fallback_witness :
  let asked who :=
    CompositePolicyEnforcer.mkCall who "read" "resource" None in
  CompositePolicyEnforcer.enforce_logged
    (CompositePolicyEnforcer.mk allow_all LocalDenyEnforcer.new)
    "read" "resource" None (O, [])
    = (Ok (JBool true), (1%nat, [asked CompositePolicyEnforcer.Primary])) /\
  CompositePolicyEnforcer.enforce_logged
    (CompositePolicyEnforcer.mk unreachable LocalDenyEnforcer.new)
    "read" "resource" None (O, [])
    = (Ok (JBool false),
       (O, [asked CompositePolicyEnforcer.Primary;
            asked CompositePolicyEnforcer.Fallback])).
Proof.
  intros asked. split.
  - destruct (composite_enforce_fallback allow_all LocalDenyEnforcer.new
                "read" "resource" None O []) as [Hok _].
    exact (proj1 (Hok (JBool true) 1%nat eq_refl)).
  - destruct (composite_enforce_fallback unreachable LocalDenyEnforcer.new
                "read" "resource" None O []) as [_ Hko].
    exact (proj1 (Hko (Exn ClientError "Connection failed") O eq_refl)).
Defined.

Lemma opa_enforce_outcomes_witness :
  fst (OPAHttpPolicyEnforcer.enforce
         (post_reply 200 (JObj [("result", JBool true)]))
         "read" "document1" None (test_opa, tt)) = Ok (JBool true) /\
  fst (OPAHttpPolicyEnforcer.enforce
         (post_reply 500 JNull)
         "read" "document3" None (test_opa, tt)) = Ok (JBool false) /\
  fst (OPAHttpPolicyEnforcer.enforce post_unreachable
         "read" "document4" None (test_opa, tt))
    = Raise (Exn ClientError "Connection failed").
Proof.
  split; [|split].
  - destruct (opa_enforce_outcomes (post_reply 200 (JObj [("result", JBool true)]))
                test_opa tt "read" "document1" None) as (H & _ & _).
    now apply (H _ tt [("result", JBool true)] true eq_refl).
  - destruct (opa_enforce_outcomes (post_reply 500 JNull)
                test_opa tt "read" "document3" None) as (_ & H & _).
    now apply (H _ tt eq_refl).
  - destruct (opa_enforce_outcomes post_unreachable
                test_opa tt "read" "document4" None) as (_ & _ & H).
    now apply (H _ tt eq_refl).
Defined.

(** ** Dictionaries and the state document *)

Section DictFacts.
Context {A : Type}.
Implicit Types (d : Dict A) (k : string) (v : A).

Lemma dict_get_set_same k v d : dict_get k (dict_set k v d) = Some v.
Proof.
  induction d as [|[k' v'] d IH]; cbn.
  - now rewrite String.eqb_refl.
  - destruct (String.eqb k k') eqn:E; cbn; rewrite ?E, ?String.eqb_refl; auto.
Qed.

Lemma dict_get_set_other k k' v d :
  k' <> k -> dict_get k' (dict_set k v d) = dict_get k' d.
Proof.
  intros Hne. induction d as [|[k0 v0] d IH]; cbn.
  - apply String.eqb_neq in Hne. now rewrite Hne.
  - destruct (String.eqb k k0) eqn:E; cbn.
    + apply String.eqb_eq in E. subst k0.
      apply String.eqb_neq in Hne. now rewrite Hne.
    + destruct (String.eqb k' k0); auto.
Qed.

Lemma dict_get_none k d : dict_get k d = None <-> ~ In k (keys d).
Proof.
  induction d as [|[k' v'] d IH]; cbn; [tauto|].
  destruct (String.eqb k k') eqn:E.
  - apply String.eqb_eq in E. subst k'. split; [discriminate | tauto].
  - apply String.eqb_neq in E. rewrite IH. split.
    + intros Hn [H|H]; [now apply E | now apply Hn].
    + tauto.
Qed.


Lemma dict_remove_absent k d : dict_get k d = None -> dict_remove k d = d.
Proof.
  induction d as [|[k0 v0] d IH]; cbn; [reflexivity|].
  destruct (String.eqb k k0); [discriminate|].
  intros H. now rewrite IH.
Qed.




Lemma keys_dict_set_present k v d :
  dict_get k d <> None -> keys (dict_set k v d) = keys d.
Proof.
  unfold keys. induction d as [|[k0 v0] d IH]; cbn; [congruence|].
  destruct (String.eqb k k0) eqn:E; cbn.
  - apply String.eqb_eq in E. now subst k0.
  - intros H. now rewrite IH.
Qed.

Lemma keys_dict_set_absent k v d :
  dict_get k d = None -> keys (dict_set k v d) = keys d ++ [k].
Proof.
  unfold keys. induction d as [|[k0 v0] d IH]; cbn; [reflexivity|].
  destruct (String.eqb k k0) eqn:E; cbn; [discriminate|].
  intros H. now rewrite IH.
Qed.

Lemma NoDup_dict_set k v d : NoDup (keys d) -> NoDup (keys (dict_set k v d)).
Proof.
  intros Hnd. destruct (dict_get k d) as [x|] eqn:E.
  - rewrite keys_dict_set_present by congruence. exact Hnd.
  - rewrite keys_dict_set_absent by exact E.
    apply NoDup_app; [exact Hnd | repeat constructor; intros [] |].
    intros x Hx [<-|[]]. now apply dict_get_none in E.
Qed.

Lemma In_dict_set k v d : In (k, v) (dict_set k v d).
Proof.
  induction d as [|[k0 v0] d IH]; cbn; [now left|].
  destruct (String.eqb k k0); [now left | now right].
Qed.


End DictFacts.

Lemma all_some_as_dict (ms : list (Dict Json)) :
  all_some (map as_dict (map JObj ms)) = Some ms.
Proof. induction ms as [|m ms IH]; cbn; [reflexivity | now rewrite IH]. Qed.

Lemma all_some_as_str (l : list string) :
  all_some (map as_str (map JStr l)) = Some l.
Proof. induction l as [|x l IH]; cbn; [reflexivity | now rewrite IH]. Qed.

(** A state written with [to_dict] is read back by [from_dict]. *)
Lemma from_dict_to_dict (st : GraphState) : from_dict (to_dict st) = Some (Ok st).
Proof.
  destruct st as [cid ms md cps step err].
  unfold from_dict, to_dict, field, as_list. cbn.
  rewrite all_some_as_dict, all_some_as_str.
  now destruct step, err.
Qed.

(** ** What [json] writes and reads back *)

Lemma distinct_NoDup (l : list string) : distinct l = true -> NoDup l.
Proof.
  induction l as [|k l IH]; cbn; [constructor|].
  intros H. apply andb_true_iff in H as [Hk Hl].
  constructor; [|now apply IH].
  intros Hin. apply negb_true_iff in Hk.
  assert (Hex : existsb (String.eqb k) l = true).
  { apply existsb_exists. exists k. split; [exact Hin | apply String.eqb_refl]. }
  congruence.
Qed.

Lemma NoDup_distinct (l : list string) : NoDup l -> distinct l = true.
Proof.
  induction 1 as [|k l Hnotin _ IH]; cbn; [reflexivity|].
  rewrite IH, andb_true_r. apply negb_true_iff.
  destruct (existsb (String.eqb k) l) eqn:E; [|reflexivity].
  apply existsb_exists in E as (x & Hin & Hx).
  apply String.eqb_eq in Hx. subst x. contradiction.
Qed.

(** Members with distinct names make the mapping they spell. *)
Lemma fold_dict_set_distinct (l : list (string * Json)) : forall acc,
  NoDup (keys (acc ++ l)) ->
  fold_left (fun d kv => dict_set (fst kv) (snd kv) d) l acc = acc ++ l.
Proof.
  induction l as [|[k v] l IH]; intros acc Hnd; cbn [fold_left].
  - now rewrite app_nil_r.
  - cbn [fst snd].
    assert (Hk : dict_get k acc = None).
    { apply dict_get_none. intros Hin. unfold keys in Hnd.
      rewrite map_app in Hnd. cbn in Hnd.
      apply NoDup_remove_2 in Hnd. apply Hnd.
      apply in_or_app. now left. }
    assert (Hset : dict_set k v acc = acc ++ [(k, v)]).
    { clear -Hk. induction acc as [|[k0 v0] acc IH]; cbn in *; [reflexivity|].
      destruct (String.eqb k k0); [discriminate|]. now rewrite IH. }
    rewrite Hset, IH; rewrite <- app_assoc; [reflexivity | exact Hnd].
Qed.

Lemma dict_of_pairs_distinct (l : list (string * Json)) :
  NoDup (keys l) -> dict_of_pairs l = l.
Proof. intros Hnd. unfold dict_of_pairs. now rewrite fold_dict_set_distinct. Qed.

Section JsonInduction.
Variable P : Json -> Prop.
Hypothesis HNull : P JNull.
Hypothesis HBool : forall b, P (JBool b).
Hypothesis HNum : forall n, P (JNum n).
Hypothesis HStr : forall s, P (JStr s).
Hypothesis HArr : forall xs, Forall P xs -> P (JArr xs).
Hypothesis HObj : forall kvs, Forall (fun kv => P (snd kv)) kvs -> P (JObj kvs).

(** Induction on a JSON value, with the property at hand for every item
    of an array and every value of a mapping. *)
Fixpoint Json_items_ind (v : Json) : P v :=
  match v with
  | JNull => HNull
  | JBool b => HBool b
  | JNum n => HNum n
  | JStr s => HStr s
  | JArr xs =>
      HArr xs ((fix items (l : list Json) : Forall P l :=
                  match l with
                  | [] => Forall_nil P
                  | x :: l' => Forall_cons x (Json_items_ind x) (items l')
                  end) xs)
  | JObj kvs =>
      HObj kvs ((fix members (l : list (string * Json))
                   : Forall (fun kv => P (snd kv)) l :=
                   match l with
                   | [] => Forall_nil _
                   | (k, x) :: l' =>
                       Forall_cons (k, x) (Json_items_ind x : P (snd (k, x)))
                                   (members l')
                   end) kvs)
  end.

End JsonInduction.

(** A JSON value is read back as it was written. *)
Lemma json_dump_of_json (v : Json) : proper v = true -> json_dump (of_json v) = Ok v.
Proof.
  induction v as [| | | |xs IH|kvs IH] using Json_items_ind;
    cbn [of_json json_dump proper]; try reflexivity.
  - intros Hp.
    assert (Hxs : all_ok json_dump (map of_json xs) = Ok xs).
    { induction IH as [|x xs Hx _ IHxs]; [reflexivity|].
      cbn [forallb] in Hp. apply andb_true_iff in Hp as [Hpx Hpxs].
      cbn [map all_ok]. now rewrite (Hx Hpx), (IHxs Hpxs). }
    now rewrite Hxs.
  - intros Hp. apply andb_true_iff in Hp as [Hd Hp].
    assert (Hkvs : all_ok (fun kv =>
                             match key_str (fst kv) with
                             | Raise e => Raise e
                             | Ok k =>
                                 match json_dump (snd kv) with
                                 | Raise e => Raise e
                                 | Ok v => Ok (k, v)
                                 end
                             end)
                          (map (fun kv => (KStr (fst kv), of_json (snd kv))) kvs)
                   = Ok kvs).
    { clear Hd. induction IH as [|[k x] kvs Hx _ IHkvs]; [reflexivity|].
      cbn [forallb snd] in Hp. apply andb_true_iff in Hp as [Hpx Hpkvs].
      cbn [map all_ok fst snd key_str]. cbn [snd] in Hx.
      now rewrite (Hx Hpx), (IHkvs Hpkvs). }
    rewrite Hkvs, dict_of_pairs_distinct; [reflexivity|].
    now apply distinct_NoDup.
Qed.

(** The fields of a mapping of JSON values are read back as written. *)
Lemma dump_values_objects (d : Dict Json) :
  forallb (fun kv => proper (snd kv)) d = true -> dump_values (objects d) = Ok d.
Proof.
  unfold dump_values, objects. induction d as [|[k v] d IH]; [reflexivity|].
  cbn [forallb snd]. intros Hp. apply andb_true_iff in Hp as [Hv Hd].
  cbn [map all_ok fst snd]. now rewrite (json_dump_of_json v Hv), (IH Hd).
Qed.

Lemma dump_values_keys (d : Dict Obj) : forall d',
  dump_values d = Ok d' -> keys d' = keys d.
Proof.
  unfold dump_values, keys.
  induction d as [|[k o] d IH]; cbn [all_ok fst snd]; intros d'.
  - now intros [= <-].
  - destruct (json_dump o) as [v|e]; [|discriminate].
    destruct (all_ok _ d) as [vs|e]; [|discriminate].
    intros [= <-]. cbn [map fst]. now rewrite (IH vs eq_refl).
Qed.

(** Each field is read back as [json] writes its value. *)
Lemma dump_values_get (d : Dict Obj) : forall d' k o,
  dump_values d = Ok d' ->
  dict_get k d = Some o ->
  exists v, json_dump o = Ok v /\ dict_get k d' = Some v.
Proof.
  unfold dump_values. induction d as [|[k0 o0] d IH]; cbn [all_ok fst snd];
    intros d' k o; [discriminate|].
  destruct (json_dump o0) as [v0|e] eqn:Hv0; [|discriminate].
  destruct (all_ok _ d) as [vs|e] eqn:Hd; [|discriminate].
  intros [= <-]. cbn [dict_get].
  destruct (String.eqb k k0).
  - intros [= <-]. now exists v0.
  - intros Hk. exact (IH vs k o eq_refl Hk).
Qed.

Lemma dump_values_dict_set (d : Dict Obj) k o v : forall d',
  dump_values d = Ok d' ->
  json_dump o = Ok v ->
  dump_values (dict_set k o d) = Ok (dict_set k v d').
Proof.
  unfold dump_values. induction d as [|[k0 o0] d IH]; cbn [all_ok dict_set fst snd];
    intros d' Hd Ho.
  - injection Hd as <-. cbn. now rewrite Ho.
  - destruct (json_dump o0) as [v0|e] eqn:Hv0; [|discriminate].
    destruct (all_ok _ d) as [vs|e] eqn:Hvs; [|discriminate].
    injection Hd as <-. cbn [dict_set].
    destruct (String.eqb k k0); cbn [all_ok fst snd].
    + now rewrite Ho, Hvs.
    + now rewrite Hv0, (IH vs eq_refl Ho).
Qed.

Lemma json_dump_str_keyed (d : Dict Obj) :
  json_dump (CheckpointStore.str_keyed d) =
  match dump_values d with
  | Ok d' => Ok (JObj (dict_of_pairs d'))
  | Raise e => Raise e
  end.
Proof.
  unfold CheckpointStore.str_keyed, dump_values. cbn [json_dump].
  assert (H : all_ok (fun kv =>
                        match key_str (fst kv) with
                        | Raise e => Raise e
                        | Ok k =>
                            match json_dump (snd kv) with
                            | Raise e => Raise e
                            | Ok v => Ok (k, v)
                            end
                        end) (map (fun kv => (KStr (fst kv), snd kv)) d)
              = all_ok (fun kv =>
                          match json_dump (snd kv) with
                          | Ok v => Ok (fst kv, v)
                          | Raise e => Raise e
                          end) d).
  { induction d as [|[k o] d IH]; [reflexivity|].
    cbn [map all_ok fst snd key_str]. rewrite IH.
    now destruct (json_dump o). }
  now rewrite H.
Qed.

(** ** The supervisor *)

Section SupervisorProperties.
Context {U : Type}.
Variable utcnow : M U datetime.
Variable path_of : string -> string.
Variable uuid4_hex : M U string.
Import Supervisor.

#[local] Abbreviation run_conversation := (Supervisor.run_conversation utcnow path_of uuid4_hex).

Lemma run_conversation_gate self conversation_id custom_nodes auto_checkpoint s :
  run_conversation self conversation_id custom_nodes auto_checkpoint s =
  match gate self conversation_id (env (world s)) with
  | (Raise e, u) =>
      (Raise e, mkSys (mkWorld (heap (world s)) (next_loc (world s))
                               (files (world s)) u)
                      (trace s ++ [gate_event conversation_id]))
  | (Ok allowed, u) =>
      if negb (truthy allowed) then
        (Ok (next_loc (world s)),
         mkSys (mutate (next_loc (world s))
                       (with_error (Some "Policy denied conversation execution"))
                       (world (started conversation_id s u)))
               (trace s ++ [gate_event conversation_id]))
      else
        (nodes <- (match custom_nodes with
                   | None => default_nodes
                   | Some nodes => ret nodes
                   end) ;;
         final_state <- run_graph (runner self) nodes (next_loc (world s))
                                  (Some (keys nodes)) ;;
         err <- read final_state error ;;
         if auto_checkpoint && negb (truthy_str err) then
           checkpoint_id <- save_checkpoint utcnow path_of uuid4_hex self
                                            final_state None ;;
           write final_state (add_checkpoint checkpoint_id) ;;;
           ret final_state
         else ret final_state) (started conversation_id s u)
  end.
Proof.
  unfold Supervisor.run_conversation, enforce_policy, gate, gate_event, started.
  unfold bind at 1 2, log, on_world, on_env. cbn [world trace env heap next_loc files].
  destruct (PolicyEnforcer.enforce _ _ _ _ _) as [[allowed|e] u]; [|reflexivity].
  destruct (negb (truthy allowed)); reflexivity.
Qed.

(** C5.  When the enforcer answers the ["execute"] request with a deny,
    [run_conversation] returns a new state whose [error] is the policy
    message; the log holds the request to the enforcer and nothing else,
    no call of a node and no save; the checkpoint directory is as it
    was; and no other state object is touched. *)
Theorem run_conversation_denied
        self conversation_id custom_nodes auto_checkpoint s allowed u :
  gate self conversation_id (env (world s)) = (Ok allowed, u) ->
  truthy allowed = false ->
  let out := run_conversation self conversation_id custom_nodes auto_checkpoint s in
  let l := next_loc (world s) in
  fst out = Ok l /\
  heap (world (snd out)) l =
    with_error (Some "Policy denied conversation execution")
               (State.new conversation_id) /\
  trace (snd out) = trace s ++ [gate_event conversation_id] /\
  node_calls (trace (snd out)) = node_calls (trace s) /\
  files (world (snd out)) = files (world s) /\
  (forall l', l' <> l -> heap (world (snd out)) l' = heap (world s) l').
Proof.
  intros Hgate Hdeny out l. subst out l.
  rewrite run_conversation_gate, Hgate, Hdeny. cbn [negb fst snd world trace].
  repeat split.
  - cbn. unfold upd. now rewrite Nat.eqb_refl.
  - rewrite node_calls_app. cbn. lia.
  - intros l' Hne. cbn. unfold upd.
    apply Nat.eqb_neq in Hne. now rewrite Hne.
Qed.

End SupervisorProperties.

(** ** The checkpoint store *)

Lemma append_assoc (a b c : string) : (a +:+ b) +:+ c = a +:+ b +:+ c.
Proof. induction a as [|x a IH]; cbn; [reflexivity | now rewrite IH]. Qed.

(** The rendering of a UTC time ends with the zero offset. *)
Lemma isoformat_utc (dt : datetime) :
  exists local, isoformat dt = local +:+ "+00:00".
Proof.
  unfold isoformat. eexists.
  repeat rewrite <- append_assoc. reflexivity.
Qed.

Example isoformat_whole_second :
  isoformat (mkDatetime 2025 1 5 9 3 7 0) = "2025-01-05T09:03:07+00:00".
Proof. reflexivity. Qed.

Example isoformat_microseconds :
  isoformat (mkDatetime 2025 11 25 19 30 0 4200) = "2025-11-25T19:30:00.004200+00:00".
Proof. reflexivity. Qed.

Section CheckpointProperties.
Context {U : Type}.
Variable utcnow : M U datetime.
Variable path_of : string -> string.
Import CheckpointStore.

(** [save] writes one entry of the directory, whatever comes of
    [json.dump]. *)
Lemma save_eq checkpoint_id state metadata (w : World U) now u :
  utcnow (env w) = (Ok now, u) ->
  save utcnow path_of checkpoint_id state metadata w =
  match json_dump (checkpoint_data state (stamped_objects metadata now checkpoint_id)) with
  | Ok doc =>
      (Ok (path_of (checkpoint_id +:+ ".json")),
       mkWorld (heap w) (next_loc w)
               (dict_set checkpoint_id (FJson doc) (files w)) u)
  | Raise e =>
      (Raise e,
       mkWorld (heap w) (next_loc w)
               (dict_set checkpoint_id truncated (files w)) u)
  end.
Proof.
  intros Hnow. unfold save, stamped_objects, checkpoint_data, given.
  assert (Hmd : match metadata with
                | Some (kv :: kvs) => kv :: kvs
                | _ => []
                end = match metadata with Some c => c | None => [] end)
    by now destruct metadata as [[|]|].
  rewrite Hmd. unfold bind at 1, on_env. rewrite Hnow.
  now destruct (json_dump _).
Qed.

(** What [json] makes of the document, when it can write the state and
    every field of the metadata. *)
Lemma json_dump_checkpoint_members state (md : Dict Obj) state_doc md_doc :
  json_dump state = Ok state_doc ->
  dump_values md = Ok md_doc ->
  json_dump (checkpoint_data state md) =
  Ok (JObj [("state", state_doc); ("metadata", JObj (dict_of_pairs md_doc))]).
Proof.
  intros Hs Hmd. unfold checkpoint_data.
  cbn [json_dump all_ok fst snd key_str].
  now rewrite Hs, json_dump_str_keyed, Hmd.
Qed.

Lemma json_dump_checkpoint_data state (md : Dict Obj) state_doc md_doc :
  json_dump state = Ok state_doc ->
  dump_values md = Ok md_doc ->
  NoDup (keys md) ->
  json_dump (checkpoint_data state md) =
  Ok (JObj [("state", state_doc); ("metadata", JObj md_doc)]).
Proof.
  intros Hs Hmd Hnd. rewrite (json_dump_checkpoint_members _ _ _ _ Hs Hmd).
  rewrite (dict_of_pairs_distinct md_doc)
    by now rewrite (dump_values_keys _ _ Hmd).
  reflexivity.
Qed.

Lemma dump_values_stamped metadata now checkpoint_id caller_doc :
  dump_values (given metadata) = Ok caller_doc ->
  dump_values (stamped_objects metadata now checkpoint_id) =
  Ok (stamped (Some caller_doc) now checkpoint_id).
Proof.
  intros Hc. unfold stamped_objects, stamped.
  apply dump_values_dict_set; [|reflexivity].
  now apply dump_values_dict_set.
Qed.

Lemma save_ok checkpoint_id state metadata (w : World U) now u state_doc caller_doc :
  utcnow (env w) = (Ok now, u) ->
  json_dump state = Ok state_doc ->
  NoDup (keys (given metadata)) ->
  dump_values (given metadata) = Ok caller_doc ->
  save utcnow path_of checkpoint_id state metadata w =
  (Ok (path_of (checkpoint_id +:+ ".json")),
   mkWorld (heap w) (next_loc w)
           (dict_set checkpoint_id
              (FJson (JObj [("state", state_doc);
                            ("metadata", JObj (stamped (Some caller_doc) now
                                                       checkpoint_id))]))
              (files w))
           u).
Proof.
  intros Hnow Hs Hnd Hc. rewrite (save_eq _ _ _ _ _ _ Hnow).
  rewrite (json_dump_checkpoint_data _ _ _ _ Hs
             (dump_values_stamped _ now checkpoint_id _ Hc)); [reflexivity|].
  unfold stamped_objects. now do 2 apply NoDup_dict_set.
Qed.

(** C6, as the code has it.  Let [id] name a file of the directory, and
    let [json] be able to write the state and every field of the
    caller's metadata.  After [save(id, state, metadata)], [load(id)]
    returns the document whose ["state"] is the state as [json] writes
    it and reads it back, which is the state itself when that is a JSON
    value, and whose ["metadata"] holds ["checkpoint_id"], equal to
    [id], a ["timestamp"], the clock's UTC time in ISO-8601, and every
    field of the caller under any other name, as [json] writes it and
    reads it back. *)
Theorem save_then_load checkpoint_id state metadata (w : World U) now u
        state_doc caller_doc :
  utcnow (env w) = (Ok now, u) ->
  file_stem checkpoint_id = true ->
  json_dump state = Ok state_doc ->
  NoDup (keys (given metadata)) ->
  dump_values (given metadata) = Ok caller_doc ->
  let saved := save utcnow path_of checkpoint_id state metadata w in
  let stored := stamped (Some caller_doc) now checkpoint_id in
  fst saved = Ok (path_of (checkpoint_id +:+ ".json")) /\
  load checkpoint_id (snd saved) =
    (Ok (JObj [("state", state_doc); ("metadata", JObj stored)]), snd saved) /\
  (forall v, proper v = true -> state = of_json v -> state_doc = v) /\
  dict_get "checkpoint_id" stored = Some (JStr checkpoint_id) /\
  dict_get "timestamp" stored = Some (JStr (isoformat now)) /\
  (exists local, isoformat now = local +:+ "+00:00") /\
  (forall k o,
      k <> "timestamp" -> k <> "checkpoint_id" ->
      dict_get k (given metadata) = Some o ->
      exists v, json_dump o = Ok v /\ dict_get k stored = Some v /\
                (forall j, proper j = true -> o = of_json j -> v = j)).
Proof.
  intros Hnow Hstem Hs Hnd Hc saved stored. subst saved.
  rewrite (save_ok _ _ _ _ _ _ _ _ Hnow Hs Hnd Hc). cbn [fst snd].
  split; [reflexivity|]. split; [|split; [|split; [|split; [|split]]]].
  - unfold load, bind, gets. cbn [files]. now rewrite dict_get_set_same.
  - intros v Hp ->. rewrite (json_dump_of_json v Hp) in Hs. now injection Hs.
  - apply dict_get_set_same.
  - unfold stored, stamped. rewrite dict_get_set_other by discriminate.
    apply dict_get_set_same.
  - apply isoformat_utc.
  - intros k o Hts Hid Hk.
    destruct (dump_values_get _ _ _ _ Hc Hk) as (v & Hv & Hget).
    exists v. split; [exact Hv|]. split.
    + unfold stored, stamped. now rewrite !dict_get_set_other by assumption.
    + intros j Hp ->. rewrite (json_dump_of_json j Hp) in Hv. now injection Hv.
Qed.

End CheckpointProperties.

(** [test_checkpoint_delete] and [test_checkpoint_not_found] *)
Example delete_then_load :
  let saved := snd (CheckpointStore.save ticking flat "delete-test"
                                         (of_json (to_dict conv1)) None empty_world) in
  let deleted := CheckpointStore.delete "delete-test" saved in
  fst deleted = Ok true /\
  fst (CheckpointStore.load "delete-test" (snd deleted)) = Ok JNull /\
  fst (CheckpointStore.delete "delete-test" (snd deleted)) = Ok false /\
  fst (CheckpointStore.rollback "delete-test" saved) = Ok (to_dict conv1).
Proof. repeat split. Qed.

(** A tuple comes back as a list, and a key that is not a string as a
    string: the state read back is the one a state with lists and string
    keys would give. *)
Example save_tuple_and_key :
  let state := ODict [(KStr "pair", OTuple [OInt 1; OInt 2]); (KInt 7, OStr "seven")] in
  let listed := ODict [(KStr "pair", OList [OInt 1; OInt 2]); (KStr "7", OStr "seven")] in
  let saved := CheckpointStore.save ticking flat "cp1" state None empty_world in
  state <> listed /\
  saved = CheckpointStore.save ticking flat "cp1" listed None empty_world /\
  fst (CheckpointStore.rollback "cp1" (snd saved))
    = Ok (JObj [("pair", JArr [JNum 1; JNum 2]); ("7", JStr "seven")]).
Proof. repeat split. discriminate. Qed.

(** A state [json] cannot write: [save] raises, and the file it has
    opened is left with the beginning of a document, which [load] cannot
    read.  What was stored under that id before is gone. *)
Example save_unserializable :
  let state := ODict [(KStr "when", OOther "datetime")] in
  let before := snd (CheckpointStore.save ticking flat "cp1" (of_json (to_dict conv1))
                                          None empty_world) in
  let saved := CheckpointStore.save ticking flat "cp1" state None before in
  fst (CheckpointStore.load "cp1" before)
    = Ok (JObj [("state", to_dict conv1);
                ("metadata", JObj [("timestamp", JStr "2025-01-05T09:03:07+00:00");
                                   ("checkpoint_id", JStr "cp1")])]) /\
  fst saved = Raise (Exn TypeError "Object of type datetime is not JSON serializable") /\
  fst (CheckpointStore.load "cp1" (snd saved)) = Raise (Exn JSONDecodeError EmptyString).
Proof. repeat split. Qed.

Lemma save_then_load_witness :
  let saved := CheckpointStore.save ticking flat "test-checkpoint-1"
                 (of_json (to_dict conv1))
                 (Some [("note", OStr "test"); ("tags", OTuple [OStr "a"; OStr "b"])])
                 empty_world in
  fst saved = Ok "checkpoints/test-checkpoint-1.json" /\
  CheckpointStore.load "test-checkpoint-1" (snd saved) =
    (Ok (JObj [("state", to_dict conv1);
               ("metadata", JObj [("note", JStr "test");
                                  ("tags", JArr [JStr "a"; JStr "b"]);
                                  ("timestamp", JStr "2025-01-05T09:03:07+00:00");
                                  ("checkpoint_id", JStr "test-checkpoint-1")])]),
     snd saved).
Proof.
  intros saved.
  destruct (save_then_load ticking flat "test-checkpoint-1" (of_json (to_dict conv1))
              (Some [("note", OStr "test"); ("tags", OTuple [OStr "a"; OStr "b"])])
              empty_world (mkDatetime 2025 1 5 9 3 7 0) 8%nat
              (to_dict conv1)
              [("note", JStr "test"); ("tags", JArr [JStr "a"; JStr "b"])]
              eq_refl eq_refl eq_refl
              ltac:(repeat constructor; cbn; intuition discriminate)
              eq_refl)
    as (Hpath & Hload & _).
  split; [exact Hpath | exact Hload].
Defined.

(** C6 as stated fails for a caller field named like a generated one:
    it does not survive. *)
Lemma save_overrides_caller_field :
  let caller := [("checkpoint_id", OStr "mine"); ("note", OStr "test")] in
  let saved := CheckpointStore.save ticking flat "cp1" (of_json (to_dict conv1))
                                    (Some caller) empty_world in
  exists stored,
    CheckpointStore.load "cp1" (snd saved) =
      (Ok (JObj [("state", to_dict conv1); ("metadata", JObj stored)]), snd saved) /\
    dict_get "checkpoint_id" caller = Some (OStr "mine") /\
    dict_get "checkpoint_id" stored = Some (JStr "cp1") /\
    ~ (forall k o, dict_get k caller = Some o ->
                   exists v, json_dump o = Ok v /\ dict_get k stored = Some v).
Proof.
  intros caller saved.
  exists [("checkpoint_id", JStr "cp1"); ("note", JStr "test");
          ("timestamp", JStr "2025-01-05T09:03:07+00:00")].
  repeat split.
  intros H. destruct (H "checkpoint_id" (OStr "mine") eq_refl) as (v & Hv & Hget).
  cbn in Hv, Hget. congruence.
Qed.

(** ** The supervisor and its checkpoints *)

Section AutoCheckpoint.
Context {U : Type}.
Variable utcnow : M U datetime.
Variable path_of : string -> string.
Variable uuid4_hex : M U string.
Import Supervisor.

(** The supervisor's call of [save], for a state that holds JSON values:
    the snapshot of the state is stored. *)
Lemma save_snapshot (st : GraphState) id (w : World U) now u :
  utcnow (env w) = (Ok now, u) ->
  proper (to_dict st) = true ->
  CheckpointStore.save utcnow path_of id (of_json (to_dict st))
    (Some (objects [("conversation_id", JStr (conversation_id st));
                    ("current_step", of_opt_str (current_step st));
                    ("message_count", JNum (Z.of_nat (length (messages st))))])) w =
  (Ok (path_of (id +:+ ".json")),
   mkWorld (heap w) (next_loc w)
           (dict_set id (FJson (snapshot st now id)) (files w)) u).
Proof.
  intros Hnow Hp.
  rewrite (save_ok utcnow path_of id _ _ w now u (to_dict st)
             [("conversation_id", JStr (conversation_id st));
              ("current_step", of_opt_str (current_step st));
              ("message_count", JNum (Z.of_nat (length (messages st))))] Hnow).
  - reflexivity.
  - now apply json_dump_of_json.
  - cbn. repeat (constructor; [cbn; intuition discriminate|]). constructor.
  - apply dump_values_objects. cbn. now destruct (current_step st).
Qed.

Lemma run_conversation_saves self cid nodes s allowed u lf s2 hex u3 now u4 :
  gate self cid (env (world s)) = (Ok allowed, u) ->
  truthy allowed = true ->
  run_graph (runner self) nodes (next_loc (world s)) (Some (keys nodes))
            (started cid s u) = (Ok lf, s2) ->
  truthy_str (error (heap (world s2) lf)) = false ->
  uuid4_hex (env (world s2)) = (Ok hex, u3) ->
  utcnow u3 = (Ok now, u4) ->
  proper (to_dict (heap (world s2) lf)) = true ->
  let st := heap (world s2) lf in
  let id := conversation_id st +:+ "_" +:+ substring 0 8 hex in
  run_conversation utcnow path_of uuid4_hex self cid (Some nodes) true s =
  (Ok lf,
   mkSys (mutate lf (add_checkpoint id)
            (mkWorld (heap (world s2)) (next_loc (world s2))
                     (dict_set id (FJson (snapshot st now id)) (files (world s2)))
                     u4))
         (trace s2 ++ [EvSave id])).
Proof.
  intros Hgate Hallow Hgraph Herr Huuid Hnow Hproper st id.
  rewrite run_conversation_gate, Hgate, Hallow. cbn [negb].
  unfold bind at 1, ret. unfold bind at 1. rewrite Hgraph.
  unfold bind at 1, read at 1, gets. rewrite Herr. cbn [negb andb].
  unfold save_checkpoint. cbn [truthy_str].
  unfold bind at 1 2 3. unfold read at 1, gets.
  unfold bind at 1. unfold on_world at 1, on_env at 1. rewrite Huuid.
  cbn [ret].
  unfold bind at 1, read at 1, gets. unfold bind at 1, log. cbn [world trace].
  unfold bind at 1, on_world at 1. cbn [world trace].
  rewrite (save_snapshot (heap (world s2) lf) _ _ now u4) by assumption.
  reflexivity.
Qed.

(** C10, as the code has it.  Take a run that the enforcer allows,
    whose graph ends in a state without error, with [auto_checkpoint]
    set.  Let the generated checkpoint id name a file of the directory,
    let the state hold JSON values, in mappings as Python has them, and
    let the id be none of the ids the nodes recorded.  The document
    stored under that id is the snapshot of the state as the graph left
    it, taken before the id is appended: its checkpoints list does not
    hold the id.  The state returned to the caller is that state with
    the id appended, and nothing else changed.  Loading the checkpoint
    gives back the state as the graph left it, so the returned state is
    the restored one with the id appended. *)
Theorem run_conversation_checkpoint_order
        self cid nodes s allowed u lf s2 hex u3 now u4 :
  gate self cid (env (world s)) = (Ok allowed, u) ->
  truthy allowed = true ->
  run_graph (runner self) nodes (next_loc (world s)) (Some (keys nodes))
            (started cid s u) = (Ok lf, s2) ->
  truthy_str (error (heap (world s2) lf)) = false ->
  uuid4_hex (env (world s2)) = (Ok hex, u3) ->
  utcnow u3 = (Ok now, u4) ->
  file_stem (conversation_id (heap (world s2) lf) +:+ "_" +:+ substring 0 8 hex)
    = true ->
  proper (to_dict (heap (world s2) lf)) = true ->
  ~ In (conversation_id (heap (world s2) lf) +:+ "_" +:+ substring 0 8 hex)
       (checkpoints (heap (world s2) lf)) ->
  let st := heap (world s2) lf in
  let id := conversation_id st +:+ "_" +:+ substring 0 8 hex in
  let out := run_conversation utcnow path_of uuid4_hex self cid (Some nodes) true s in
  let returned := heap (world (snd out)) lf in
  fst out = Ok lf /\
  trace (snd out) = trace s2 ++ [EvSave id] /\
  dict_get id (files (world (snd out))) = Some (FJson (snapshot st now id)) /\
  (exists ids, py_get (to_dict st) "checkpoints" JNull = Ok (JArr ids) /\
               ~ In (JStr id) ids) /\
  returned = add_checkpoint id st /\
  In id (checkpoints returned) /\
  (exists l' s',
      load_checkpoint self id (snd out) = Some (Ok (Some l'), s') /\
      heap (world s') l' = st /\
      returned = add_checkpoint id (heap (world s') l') /\
      returned <> heap (world s') l').
Proof.
  intros Hgate Hallow Hgraph Herr Huuid Hnow Hstem Hproper Hfresh st id out returned.
  subst returned out.
  rewrite (run_conversation_saves _ _ _ _ _ _ _ _ _ _ _ _
             Hgate Hallow Hgraph Herr Huuid Hnow Hproper).
  fold st. fold id. cbn [fst snd world trace files].
  assert (Hret : heap (mutate lf (add_checkpoint id)
                   (mkWorld (heap (world s2)) (next_loc (world s2))
                      (dict_set id (FJson (snapshot st now id)) (files (world s2)))
                      u4)) lf = add_checkpoint id st).
  { cbn. unfold upd. now rewrite Nat.eqb_refl. }
  rewrite Hret.
  split; [reflexivity|]. split; [reflexivity|].
  split; [apply dict_get_set_same|].
  split.
  { exists (map JStr (checkpoints st)). split; [reflexivity|].
    intros Hin. apply in_map_iff in Hin as (x & Hx & Hin).
    injection Hx as ->. now apply Hfresh. }
  split; [reflexivity|].
  split; [cbn; apply in_or_app; right; now left|].
  eexists. eexists. split; [|split; [|split]].
  - unfold load_checkpoint, on_world at 1, CheckpointStore.load.
    unfold bind, gets. cbn [world files mutate].
    rewrite dict_get_set_same. cbn [ret snapshot truthy negb py_get dict_get].
    cbn [String.eqb Ascii.eqb Bool.eqb].
    rewrite from_dict_to_dict. unfold on_world, alloc. cbn [world].
    reflexivity.
  - cbn. unfold upd. now rewrite Nat.eqb_refl.
  - cbn [world heap next_loc mutate]. unfold upd at 1.
    now rewrite Nat.eqb_refl.
  - cbn [world heap next_loc mutate]. unfold upd at 1.
    rewrite Nat.eqb_refl. intros Heq.
    apply (f_equal (fun x => length (checkpoints x))) in Heq.
    cbn in Heq. rewrite length_app in Heq. cbn in Heq. lia.
Qed.

End AutoCheckpoint.

(** ** Listing the checkpoints *)

(** The order of [str]: not being smaller is transitive. *)
Lemma ltb_asym (a b : string) : String.ltb a b = true -> String.ltb b a = false.
Proof.
  unfold String.ltb. rewrite (String.compare_antisym b a).
  now destruct (String.compare a b).
Qed.

Lemma ltb_false_trans (a b c : string) :
  String.ltb a b = false -> String.ltb b c = false -> String.ltb a c = false.
Proof.
  unfold String.ltb. intros Hab Hbc.
  destruct (String.compare a c) eqn:Hac; try reflexivity.
  apply OrderedTypeEx.String_as_OT.cmp_lt in Hac.
  destruct (String.compare a b) eqn:Eab; try discriminate.
  - apply String.compare_eq_iff in Eab. subst b.
    apply OrderedTypeEx.String_as_OT.cmp_lt in Hac.
    unfold OrderedTypeEx.String_as_OT.cmp in Hac. now rewrite Hac in Hbc.
  - assert (Hba : String.compare b a = Lt)
      by (rewrite String.compare_antisym, Eab; reflexivity).
    apply OrderedTypeEx.String_as_OT.cmp_lt in Hba.
    pose proof (OrderedTypeEx.String_as_OT.lt_trans _ _ _ Hba Hac) as Hbc'.
    apply OrderedTypeEx.String_as_OT.cmp_lt in Hbc'.
    unfold OrderedTypeEx.String_as_OT.cmp in Hbc'. now rewrite Hbc' in Hbc.
Qed.

Section Sorting.

Lemma keyed_dated l :
  Forall dated l ->
  exists kl, keyed (fun x => py_get x "timestamp" (JStr EmptyString)) l = Ok kl /\
             map snd kl = l /\ Forall keyed_by_date kl.
Proof.
  induction 1 as [|x l [ts Hx] _ (kl & Hk & Hm & Hf)].
  - now exists [].
  - exists ((JStr ts, x) :: kl). cbn. rewrite Hx, Hk, Hm. repeat split.
    constructor; [|assumption].
    unfold keyed_by_date, timestamp_of. cbn [fst snd]. now rewrite Hx.
Qed.

Lemma insert_desc_spec x l :
  keyed_by_date x -> Forall keyed_by_date l ->
  StronglySorted newest_first_keyed l ->
  exists r, insert_desc x l = Ok r /\ Permutation r (x :: l) /\
            StronglySorted newest_first_keyed r.
Proof.
  intros Hx Hl Hs. induction l as [|y l IH].
  - exists [x]. repeat split; repeat constructor.
  - inversion Hl as [|? ? Hy Hl']; subst. inversion Hs as [|? ? Hs' Hall]; subst.
    cbn [insert_desc]. rewrite Hx, Hy. cbn [py_lt].
    destruct (String.ltb (timestamp_of (snd x)) (timestamp_of (snd y))) eqn:Hlt.
    + destruct (IH Hl' Hs') as (r & Hr & Hp & Hsr). rewrite Hr.
      exists (y :: r). split; [reflexivity|]. split.
      * rewrite Hp. apply perm_swap.
      * constructor; [assumption|].
        apply (Permutation_Forall (Permutation_sym Hp)).
        constructor; [|assumption].
        unfold newest_first_keyed, newest_first. now apply ltb_asym.
    + exists (x :: y :: l). split; [reflexivity|]. split; [reflexivity|].
      constructor; [assumption|]. constructor; [exact Hlt|].
      eapply Forall_impl; [|exact Hall].
      intros z Hz. unfold newest_first_keyed, newest_first in *.
      now apply ltb_false_trans with (b := timestamp_of (snd y)).
Qed.

Lemma sort_keyed_desc_spec l :
  Forall keyed_by_date l ->
  exists r, sort_keyed_desc l = Ok r /\ Permutation r l /\
            StronglySorted newest_first_keyed r.
Proof.
  induction 1 as [|x l Hx Hl (r & Hr & Hp & Hs)].
  - exists []. repeat split; constructor.
  - cbn [sort_keyed_desc]. rewrite Hr.
    assert (Hfr : Forall keyed_by_date r)
      by (apply (Permutation_Forall (Permutation_sym Hp)); assumption).
    destruct (insert_desc_spec x r Hx Hfr Hs) as (r' & Hr' & Hp' & Hs').
    exists r'. split; [assumption|]. split; [|assumption].
    rewrite Hp'. now constructor.
Qed.

Lemma sorted_map_snd r :
  StronglySorted newest_first_keyed r -> StronglySorted newest_first (map snd r).
Proof.
  induction 1 as [|p r Hs IH Hall]; cbn; constructor; [assumption|].
  apply Forall_map. exact Hall.
Qed.

(** Sorting summaries that all carry a string timestamp succeeds, keeps
    the items, and puts each before all those that are not newer. *)
Lemma sort_reverse_dated l :
  Forall dated l ->
  exists r, sort_reverse (fun x => py_get x "timestamp" (JStr EmptyString)) l = Ok r /\
            Permutation r l /\ StronglySorted newest_first r.
Proof.
  intros Hd. destruct (keyed_dated l Hd) as (kl & Hk & Hm & Hf).
  destruct (sort_keyed_desc_spec kl Hf) as (r & Hr & Hp & Hs).
  exists (map snd r). unfold sort_reverse. rewrite Hk, Hr.
  split; [reflexivity|]. split.
  - rewrite <- Hm. now apply Permutation_map.
  - now apply sorted_map_snd.
Qed.

End Sorting.

Section Listing.
Context {U : Type}.
Import CheckpointStore.

Lemma bind_lift_get {St B : Type} d k dflt (f : Json -> M St B) (w : St) :
  bind (lift (py_get (JObj d) k dflt)) f w = f (field d k dflt) w.
Proof. unfold bind, lift, py_get, field. now destruct (dict_get k d). Qed.

Lemma summarize_well_formed conversation_id stem doc (w : World U) :
  well_formed doc = true ->
  summarize conversation_id stem (FJson doc) w =
  (Ok (if selected conversation_id doc then Some (summary_of stem doc) else None), w).
Proof.
  intros Hwf. destruct doc as [| | | | |kvs]; try discriminate.
  unfold well_formed in Hwf. apply andb_true_iff in Hwf as [Hst Hmd].
  destruct (dict_get "metadata" kvs) as [[| | | | |md]|] eqn:Emd; try discriminate.
  clear Hmd.
  assert (Hstate : field kvs "state" (JObj []) = JObj (stored_part "state" (JObj kvs))).
  { unfold field, stored_part.
    now destruct (dict_get "state" kvs) as [[| | | | |st]|]. }
  clear Hst.
  assert (Hmeta : field kvs "metadata" (JObj []) = JObj md).
  { unfold field. now rewrite Emd. }
  unfold summarize, summary_of, selected, belongs_to.
  replace (stored_part "metadata" (JObj kvs)) with md
    by (unfold stored_part; now rewrite Emd).
  generalize dependent (stored_part "state" (JObj kvs)). intros st Hstate.
  unfold bind at 1, ret at 1.
  rewrite bind_lift_get, Hmeta.
  assert (Htail :
    (checkpoint_id <- lift (py_get (JObj md) "checkpoint_id" (JStr stem));;
     timestamp <- lift (py_get (JObj md) "timestamp" JNull);;
     state1 <- lift (py_get (JObj kvs) "state" (JObj []));;
     conv <- lift (py_get state1 "conversation_id" JNull);;
     state2 <- lift (py_get (JObj kvs) "state" (JObj []));;
     step <- lift (py_get state2 "current_step" JNull);;
     ret (Some (JObj [("checkpoint_id", checkpoint_id); ("timestamp", timestamp);
                      ("conversation_id", conv); ("current_step", step);
                      ("metadata", JObj md)]))) w =
    (Ok (Some (JObj [("checkpoint_id", field md "checkpoint_id" (JStr stem));
                     ("timestamp", field md "timestamp" JNull);
                     ("conversation_id", field st "conversation_id" JNull);
                     ("current_step", field st "current_step" JNull);
                     ("metadata", JObj md)])), w)).
  { rewrite bind_lift_get. rewrite bind_lift_get.
    rewrite bind_lift_get, Hstate. rewrite bind_lift_get.
    rewrite bind_lift_get, Hstate. now rewrite bind_lift_get. }
  destruct conversation_id as [x|]; cbn [truthy_str].
  - destruct (String.eqb x EmptyString) eqn:Ex; cbn [negb].
    + unfold bind at 1, ret at 1. exact Htail.
    + unfold bind at 1. rewrite bind_lift_get, Hstate, bind_lift_get.
      unfold ret at 1, differs.
      destruct (field st "conversation_id" JNull) as [| | |c| |];
        try reflexivity.
      destruct (String.eqb c x); cbn [negb]; [exact Htail | reflexivity].
  - unfold bind at 1, ret at 1. exact Htail.
Qed.

Lemma scan_listable conversation_id dir : forall acc (w : World U),
  forallb listable dir = true ->
  scan conversation_id dir acc w = (Ok (acc ++ listed conversation_id dir), w).
Proof.
  induction dir as [|[stem entry] dir IH]; intros acc w Hok.
  - cbn. now rewrite app_nil_r.
  - cbn [forallb] in Hok. apply andb_true_iff in Hok as [He Hrest].
    cbn [scan listed]. unfold bind at 1, try_except.
    destruct entry as [doc|e]; cbn [listable snd] in He.
    + rewrite (summarize_well_formed _ _ _ _ He).
      destruct (selected conversation_id doc).
      * rewrite (IH _ _ Hrest). now rewrite <- app_assoc.
      * now apply IH.
    + unfold summarize, bind at 1, raise.
      destruct (exn_class e); try discriminate; cbn [ret]; now apply IH.
Qed.

Lemma listed_dated conversation_id dir :
  forallb listable dir = true -> Forall dated (listed conversation_id dir).
Proof.
  induction dir as [|[stem entry] dir IH]; intros Hok; [constructor|].
  cbn [forallb] in Hok. apply andb_true_iff in Hok as [He Hrest].
  cbn [listed]. destruct entry as [doc|e]; [|now apply IH].
  destruct (selected conversation_id doc); [|now apply IH].
  constructor; [|now apply IH].
  cbn [listable snd] in He.
  destruct doc as [| | | | |kvs]; try discriminate.
  unfold well_formed in He. apply andb_true_iff in He as [_ Hmd].
  destruct (dict_get "metadata" kvs) as [[| | | | |md]|] eqn:Emd; try discriminate.
  destruct (dict_get "timestamp" md) as [[| | |ts| |]|] eqn:Ets; try discriminate.
  exists ts. unfold summary_of, stored_part, field. rewrite Emd, Ets. reflexivity.
Qed.

(** C7, as the code has it.  Let every file of the directory be in the
    shape [save] writes, or raise [JSONDecodeError] or [IOError] when it
    is read.  Then [list_checkpoints(X)] returns, leaves the world as it
    was, and its result holds exactly the summaries of the stored units
    of conversation [X] (of all units when [X] is absent or empty), each
    one before all those whose timestamp is not greater; the files that
    cannot be read are passed over. *)
Theorem list_checkpoints_newest_first conversation_id (w : World U) :
  forallb listable (files w) = true ->
  exists result,
    list_checkpoints conversation_id w = (Ok result, w) /\
    Permutation result (listed conversation_id (files w)) /\
    StronglySorted newest_first result.
Proof.
  intros Hok.
  destruct (sort_reverse_dated _ (listed_dated conversation_id _ Hok))
    as (r & Hr & Hp & Hs).
  exists r. split; [|now split].
  unfold list_checkpoints, bind, gets, lift.
  rewrite (scan_listable _ _ [] w Hok). cbn [app]. now rewrite Hr.
Qed.

End Listing.

Example list_checkpoints_filtered :
  CheckpointStore.list_checkpoints (Some "conv-1") (store three_units) =
  (Ok [summary "checkpoint-3" "conv-1" "2025-01-05T09:03:09+00:00";
       summary "checkpoint-1" "conv-1" "2025-01-05T09:03:07+00:00"],
   store three_units).
Proof. reflexivity. Qed.

(** Equal timestamps keep the order of the scan. *)
Example sort_reverse_is_stable :
  let item ts tag := JObj [("timestamp", JStr ts); ("tag", JNum tag)] in
  sort_reverse (fun x => py_get x "timestamp" (JStr EmptyString))
               [item "a" 1; item "b" 2; item "a" 3]
  = Ok [item "b" 2; item "a" 1; item "a" 3].
Proof. reflexivity. Qed.

Lemma list_checkpoints_newest_first_witness :
  exists result,
    CheckpointStore.list_checkpoints (Some "conv-1") (store three_units)
      = (Ok result, store three_units) /\
    Permutation result (listed (Some "conv-1") three_units) /\
    StronglySorted newest_first result.
Proof.
  exact (list_checkpoints_newest_first (Some "conv-1") (store three_units) eq_refl).
Defined.

(** C7 as stated fails in three places.  Asked for the
    conversation with the empty id, the call lists a unit of conversation
    ["conv-1"].  With a unit without timestamp among two, the sort
    compares [None] with a string and the call raises [TypeError].  With
    a file that holds JSON other than a mapping, the call raises
    [AttributeError]. *)
Lemma list_checkpoints_beyond_the_claim :
  (CheckpointStore.list_checkpoints (Some EmptyString)
     (store [("checkpoint-1", unit_at "checkpoint-1" "conv-1" "2025-01-05T09:03:07+00:00")])
   = (Ok [summary "checkpoint-1" "conv-1" "2025-01-05T09:03:07+00:00"],
      store [("checkpoint-1", unit_at "checkpoint-1" "conv-1" "2025-01-05T09:03:07+00:00")])
   /\ JStr "conv-1" <> JStr EmptyString) /\
  (exists e,
      fst (CheckpointStore.list_checkpoints (Some "conv-1")
             (store [("old", undated "old" "conv-1");
                     ("checkpoint-1", unit_at "checkpoint-1" "conv-1"
                                              "2025-01-05T09:03:07+00:00")]))
        = Raise e /\ exn_class e = TypeError) /\
  (exists e,
      fst (CheckpointStore.list_checkpoints None (store [("notes", FJson (JArr []))]))
        = Raise e /\ exn_class e = AttributeError).
Proof.
  split; [split; [reflexivity | discriminate] |].
  split; eexists; split; reflexivity.
Qed.

(** ** The supervisor on a small workflow *)

(** Without [custom_nodes] an allowed run does not get as far as the
    graph: building the default workflow raises. *)
Example run_conversation_default_workflow :
  fst (Supervisor.run_conversation ticking flat uuid open_house "conv-1" None true
                                   (sys0 EmptyString))
  = Raise (Exn TypeError
             "finalize_node() missing 1 required positional argument: 'state'").
Proof. reflexivity. Qed.

Lemma run_conversation_denied_witness :
  fst (run guarded) = Ok 1%nat /\
  error (heap (world (snd (run guarded))) 1%nat)
    = Some "Policy denied conversation execution" /\
  trace (snd (run guarded))
    = [EvEnforce "execute" "conversation/conv-1"
                 (JObj [("conversation_id", JStr "conv-1")])] /\
  files (world (snd (run guarded))) = [].
Proof.
  destruct (run_conversation_denied ticking flat uuid guarded "conv-1"
              (Some two_nodes) true (sys0 EmptyString) (JBool false) O eq_refl eq_refl)
    as (Hl & Hst & Htr & _ & Hfiles & _).
  split; [exact Hl|]. split; [|split; [exact Htr | exact Hfiles]].
  change (next_loc (world (sys0 EmptyString))) with 1%nat in Hst.
  unfold run. rewrite Hst. reflexivity.
Defined.

Lemma run_conversation_checkpoint_order_witness :
  let id := "conv-1_9f2c4e1a" in
  fst (run open_house) = Ok 1%nat /\
  checkpoints (heap (world (snd (run open_house))) 1%nat) = [id] /\
  (exists st now,
      dict_get id (files (world (snd (run open_house))))
        = Some (FJson (snapshot st now id)) /\
      checkpoints st = []) /\
  trace (snd (run open_house))
    = [EvEnforce "execute" "conversation/conv-1"
                 (JObj [("conversation_id", JStr "conv-1")]);
       EvAttempt "node1"; EvAttempt "node3"; EvSave id].
Proof.
  intros id.
  edestruct (run_conversation_checkpoint_order ticking flat uuid open_house
               "conv-1" two_nodes (sys0 EmptyString))
    as (Hl & Htr & Hfile & _ & Hret & _);
    [reflexivity | reflexivity | reflexivity | reflexivity | reflexivity
    | reflexivity | reflexivity | reflexivity | cbv; tauto |].
  split; [exact Hl|]. split; [|split].
  - apply (f_equal checkpoints) in Hret. exact Hret.
  - eexists. eexists. split; [exact Hfile | reflexivity].
  - exact Htr.
Defined.

(** C10 as stated fails when the generated id is already in the list of
    the state: a node has recorded it, the snapshot is taken with it,
    and the persisted list holds the id of the checkpoint that stores
    it. *)
Lemma run_conversation_checkpoint_recorded :
  let id := "conv-1_9f2c4e1a" in
  let out := Supervisor.run_conversation ticking flat uuid open_house "conv-1"
               (Some [("recorder", recorder)]) true (sys0 EmptyString) in
  fst out = Ok 1%nat /\
  error (heap (world (snd out)) 1%nat) = None /\
  trace (snd out)
    = [EvEnforce "execute" "conversation/conv-1"
                 (JObj [("conversation_id", JStr "conv-1")]);
       EvAttempt "recorder"; EvSave id] /\
  (exists doc state,
      dict_get id (files (world (snd out))) = Some (FJson doc) /\
      py_get doc "state" JNull = Ok state /\
      py_get state "checkpoints" JNull = Ok (JArr [JStr id])) /\
  checkpoints (heap (world (snd out)) 1%nat) = [id; id].
Proof.
  intros id out.
  split; [reflexivity|]. split; [reflexivity|]. split; [reflexivity|].
  split; [|reflexivity].
  eexists. eexists. split; [reflexivity|]. split; reflexivity.
Qed.

(* ================================================================= *)
(** * Further properties of the code *)

(** ** The runner: what a whole run looks like *)

Section RunnerCoverage.
Context {U : Type}.
Variable config : RunnerConfig.

Implicit Types (f : NodeFunc U) (l : loc) (w : World U) (s : Sys U).
Implicit Types (nodes : Dict (NodeFunc U)).

Lemma truthy_str_nonempty (msg : string) :
  msg <> EmptyString -> truthy_str (Some msg) = true.
Proof. intros H. cbn. apply negb_true_iff. now apply String.eqb_neq. Qed.

(** One round of the loop never raises. *)
Lemma graph_body_returns nodes l node_name s :
  exists flow, fst (graph_body config nodes l node_name s) = Ok flow.
Proof.
  destruct (dict_get node_name nodes) as [f|] eqn:Hf.
  - destruct (truthy_str (error (heap (world s) l))) eqn:He.
    + rewrite (graph_body_errored _ _ _ _ _ _ Hf He). now eexists.
    + rewrite (graph_body_run _ _ _ _ _ _ Hf He).
      destruct (run_node config f l node_name s) as [[l'|e] s']; now eexists.
  - rewrite (graph_body_missing _ _ _ _ _ Hf). now eexists.
Qed.

(** A round extends the log, and only with what [run_node] logs. *)
Lemma graph_body_trace nodes l node_name s :
  exists evs, trace (snd (graph_body config nodes l node_name s)) = trace s ++ evs.
Proof.
  destruct (dict_get node_name nodes) as [f|] eqn:Hf.
  - destruct (truthy_str (error (heap (world s) l))) eqn:He.
    + rewrite (graph_body_errored _ _ _ _ _ _ Hf He). exists []. cbn.
      now rewrite app_nil_r.
    + rewrite (graph_body_run _ _ _ _ _ _ Hf He).
      destruct (attempts_calls_bound config f l node_name (range (max_retries config))
                  (mkSys (mutate l (with_current_step (Some node_name)) (world s))
                         (trace s))) as (evs & Ht & _).
      rewrite <- run_node_eq in Ht. exists evs.
      destruct (run_node config f l node_name s) as [[l'|e] s']; exact Ht.
  - rewrite (graph_body_missing _ _ _ _ _ Hf). exists []. cbn.
    now rewrite app_nil_r.
Qed.

Lemma graph_loop_returns nodes order : forall l s,
  (exists l', fst (graph_loop config nodes l order s) = Ok l') /\
  (exists evs, trace (snd (graph_loop config nodes l order s)) = trace s ++ evs).
Proof.
  induction order as [|name rest IH]; intros l s.
  - split; [now exists l | exists []; cbn; now rewrite app_nil_r].
  - cbn [graph_loop]. unfold bind at 1 2.
    destruct (graph_body_returns nodes l name s) as [flow Hflow].
    destruct (graph_body_trace nodes l name s) as [evs Hevs].
    destruct (graph_body config nodes l name s) as [[flow'|e] s1];
      cbn [fst snd] in Hflow, Hevs; [|discriminate].
    destruct flow' as [l1|l1].
    + destruct (IH l1 s1) as [Hret [evs' Hevs']]. split; [exact Hret|].
      exists (evs ++ evs'). now rewrite Hevs', Hevs, app_assoc.
    + split; [now exists l1 | now exists evs].
Qed.

(** X1.  [run_graph] never raises on nodes that keep to their type:
    whatever nodes that return a state or raise an exception do, and
    whatever the order names, the call returns a state reference; and
    the log of the run is the log it started with, extended. *)
Theorem run_graph_always_returns nodes l node_order s :
  let out := run_graph config nodes l node_order s in
  (exists l', fst out = Ok l') /\
  (exists evs, trace (snd out) = trace s ++ evs).
Proof. intros out. subst out. rewrite run_graph_order. apply graph_loop_returns. Qed.

(** A round that ends the loop leaves an error in the state it hands back. *)
Lemma graph_body_break nodes l node_name s l' s' :
  graph_body config nodes l node_name s = (Ok (Break l'), s') ->
  truthy_str (error (heap (world s') l')) = true.
Proof.
  destruct (dict_get node_name nodes) as [f|] eqn:Hf.
  - destruct (truthy_str (error (heap (world s) l))) eqn:He.
    + rewrite (graph_body_errored _ _ _ _ _ _ Hf He). now intros [= <- <-].
    + rewrite (graph_body_run _ _ _ _ _ _ Hf He).
      destruct (run_node config f l node_name s) as [[l1|e] s1] eqn:Hr;
        [discriminate|].
      intros [= <- <-]. rewrite run_node_eq in Hr.
      rewrite (attempts_raise_records _ _ _ _ _ _ _ _ Hr).
      apply truthy_str_nonempty, failure_message_nonempty.
  - rewrite (graph_body_missing _ _ _ _ _ Hf). intros [= <- <-].
    cbn. unfold upd. now rewrite Nat.eqb_refl.
Qed.

(** A round that lets the loop go on has found the node and has seen
    [run_node] return. *)
Lemma graph_body_continue nodes l node_name s l' s' :
  graph_body config nodes l node_name s = (Ok (Continue l'), s') ->
  exists f, dict_get node_name nodes = Some f /\
            truthy_str (error (heap (world s) l)) = false /\
            run_node config f l node_name s = (Ok l', s').
Proof.
  destruct (dict_get node_name nodes) as [f|] eqn:Hf.
  - destruct (truthy_str (error (heap (world s) l))) eqn:He.
    + now rewrite (graph_body_errored _ _ _ _ _ _ Hf He).
    + rewrite (graph_body_run _ _ _ _ _ _ Hf He).
      destruct (run_node config f l node_name s) as [[l1|e] s1] eqn:Hr;
        [|discriminate].
      intros [= <- <-]. now exists f.
  - now rewrite (graph_body_missing _ _ _ _ _ Hf).
Qed.

(** When the retry loop returns and had a round to make, the node was
    called. *)
Lemma attempts_ok_calls f l node_name attempt rest s l' s' :
  attempts config f l node_name (attempt :: rest) s = (Ok l', s') ->
  exists evs, trace s' = trace s ++ evs /\ (1 <= node_calls evs)%nat.
Proof.
  destruct s as [w tr]. intros H.
  destruct (call f l w) as [[l1|e] w1] eqn:Hw.
  - rewrite (attempts_return _ _ _ _ _ _ _ _ _ _ Hw) in H. injection H as <- <-.
    exists [EvAttempt node_name]. cbn. split; [reflexivity | lia].
  - destruct (attempt =? max_retries config - 1) eqn:Hlast.
    + now rewrite (attempts_give_up _ _ _ _ _ _ _ _ _ _ Hw Hlast) in H.
    + rewrite (attempts_retry _ _ _ _ _ _ _ _ _ _ Hw Hlast) in H.
      destruct (attempts_calls_bound config f l node_name rest
                  (mkSys w1 (tr ++ [EvAttempt node_name; EvSleep (retry_delay config)])))
        as (evs & Ht & _).
      rewrite H in Ht. cbn [snd trace] in Ht.
      exists ([EvAttempt node_name; EvSleep (retry_delay config)] ++ evs). split.
      * cbn [trace]. now rewrite Ht, <- app_assoc.
      * rewrite node_calls_app. cbn. lia.
Qed.

Lemma passes_calls nodes n order : forall l s l' s',
  max_retries config = Z.of_nat n ->
  (1 <= n)%nat ->
  passes config nodes l order s = Some (l', s') ->
  Forall (known nodes) order /\
  exists evs, trace s' = trace s ++ evs /\ (length order <= node_calls evs)%nat.
Proof.
  induction order as [|name rest IH]; intros l s l' s' Hn Hpos H.
  - injection H as <- <-. split; [constructor|].
    exists []. cbn. split; [now rewrite app_nil_r | lia].
  - cbn [passes] in H.
    destruct (graph_body config nodes l name s) as [[[l1|l1]|e] s1] eqn:Hb;
      try discriminate.
    destruct (graph_body_continue _ _ _ _ _ _ Hb) as (f & Hf & _ & Hr).
    destruct (IH _ _ _ _ Hn Hpos H) as [Hknown (evs & Ht & Hc)].
    split; [constructor; [unfold known; now rewrite Hf | exact Hknown]|].
    rewrite run_node_eq, (range_of_nat config n Hn) in Hr.
    destruct n as [|n]; [lia|]. cbn [seq map] in Hr.
    destruct (attempts_ok_calls _ _ _ _ _ _ _ _ Hr) as (evs1 & Ht1 & Hc1).
    cbn [trace] in Ht1.
    exists (evs1 ++ evs). split.
    + now rewrite Ht, Ht1, app_assoc.
    + rewrite node_calls_app. cbn [length]. lia.
Qed.

Lemma graph_loop_clean nodes order : forall l s l' s',
  graph_loop config nodes l order s = (Ok l', s') ->
  truthy_str (error (heap (world s') l')) = false ->
  passes config nodes l order s = Some (l', s').
Proof.
  induction order as [|name rest IH]; intros l s l' s' H Hclean.
  - cbn in H. now injection H as <- <-.
  - cbn [graph_loop] in H. unfold bind at 1 in H. cbn [passes].
    destruct (graph_body config nodes l name s) as [[[l1|l1]|e] s1] eqn:Hb.
    + now apply IH.
    + cbn in H. injection H as <- <-.
      apply graph_body_break in Hb. congruence.
    + discriminate.
Qed.

(** X2.  A final state without error certifies the run: if the state
    [run_graph] returns has no error, the loop went through the whole
    order without a break, every name of the order is in the node map,
    and, with [max_retries >= 1], at least one call of a node function
    was made for each position of the order. *)
Theorem run_graph_clean_result nodes l node_order s l' s' n :
  max_retries config = Z.of_nat n ->
  (1 <= n)%nat ->
  run_graph config nodes l node_order s = (Ok l', s') ->
  truthy_str (error (heap (world s') l')) = false ->
  passes config nodes l (order_followed nodes node_order) s = Some (l', s') /\
  Forall (known nodes) (order_followed nodes node_order) /\
  exists evs, trace s' = trace s ++ evs /\
              (length (order_followed nodes node_order) <= node_calls evs)%nat.
Proof.
  intros Hn Hpos Hrun Hclean. rewrite run_graph_order in Hrun.
  pose proof (graph_loop_clean _ _ _ _ _ _ Hrun Hclean) as Hpass.
  split; [exact Hpass|]. now apply passes_calls with (n := n) (l := l) (l' := l').
Qed.

Lemma graph_loop_runs_all nodes n order :
  max_retries config = Z.of_nat n ->
  (1 <= n)%nat ->
  Forall (fun name => exists f, dict_get name nodes = Some f /\ settles f) order ->
  forall l s,
    truthy_str (error (heap (world s) l)) = false ->
    exists l' s',
      graph_loop config nodes l order s = (Ok l', s') /\
      trace s' = trace s ++ map EvAttempt order /\
      truthy_str (error (heap (world s') l')) = false.
Proof.
  intros Hn Hpos Hall.
  induction Hall as [|name rest (f & Hf & Hset) _ IH]; intros l s Herr.
  - exists l, s. cbn. now rewrite app_nil_r.
  - pose (w0 := mutate l (with_current_step (Some name)) (world s)).
    assert (Herr0 : truthy_str (error (heap w0 l)) = false).
    { cbn. unfold upd. now rewrite Nat.eqb_refl. }
    destruct (Hset l w0 Herr0) as (l1 & w1 & Hcall & Herr1).
    assert (Hr : run_node config f l name s =
                 (Ok l1, mkSys w1 (trace s ++ [EvAttempt name]))).
    { now apply (run_node_returns config f l name s n O w0 l1 w1 Hn); [lia| |]. }
    destruct (IH l1 (mkSys w1 (trace s ++ [EvAttempt name])) Herr1)
      as (l' & s' & Hloop & Htr & Hclean).
    exists l', s'. split; [|split; [|exact Hclean]].
    + cbn [graph_loop]. unfold bind at 1.
      now rewrite (graph_body_run _ _ _ _ _ _ Hf Herr), Hr.
    + rewrite Htr. cbn [trace map]. now rewrite <- app_assoc.
Qed.

(** X3.  Nodes that settle all run, once each and in order: when the
    deadline is positive, every name of the order is bound to a node an
    attempt at which returns, within the deadline, a state without error
    whenever it is given one, and the run starts without error,
    [run_graph] calls each node exactly once, in the order given, never
    sleeps, and returns a state without error. *)
Theorem run_graph_runs_all_in_order nodes node_order n l s :
  0 < timeout config ->
  max_retries config = Z.of_nat n ->
  (1 <= n)%nat ->
  Forall (fun name => exists f, dict_get name nodes = Some f /\ settles f)
         (order_followed nodes node_order) ->
  truthy_str (error (heap (world s) l)) = false ->
  exists l' s',
    run_graph config nodes l node_order s = (Ok l', s') /\
    trace s' = trace s ++ map EvAttempt (order_followed nodes node_order) /\
    truthy_str (error (heap (world s') l')) = false.
Proof.
  intros _ Hn Hpos Hall Herr. rewrite run_graph_order.
  now apply graph_loop_runs_all with (n := n).
Qed.

(** With no attempt to make, [run_node] hands the state back. *)
Lemma run_node_without_attempts f l node_name s :
  max_retries config <= 0 ->
  run_node config f l node_name s =
  (Ok l, mkSys (mutate l (with_current_step (Some node_name)) (world s)) (trace s)).
Proof.
  intros Hn. rewrite run_node_eq. unfold range.
  replace (Z.to_nat (max_retries config)) with O by lia. reflexivity.
Qed.

Lemma graph_loop_without_attempts nodes order :
  max_retries config <= 0 ->
  Forall (known nodes) order ->
  forall l s,
    truthy_str (error (heap (world s) l)) = false ->
    let out := graph_loop config nodes l order s in
    fst out = Ok l /\
    trace (snd out) = trace s /\
    (exists step, heap (world (snd out)) l = with_current_step step (heap (world s) l)) /\
    (forall l', l' <> l -> heap (world (snd out)) l' = heap (world s) l') /\
    files (world (snd out)) = files (world s) /\
    env (world (snd out)) = env (world s).
Proof.
  intros Hn Hall. induction Hall as [|name rest Hname _ IH]; intros l s Herr out.
  - subst out. cbn. repeat split.
    exists (current_step (heap (world s) l)). now destruct (heap (world s) l).
  - subst out. unfold known in Hname.
    destruct (dict_get name nodes) as [f|] eqn:Hf; [clear Hname | now elim Hname].
    set (s1 := mkSys (mutate l (with_current_step (Some name)) (world s)) (trace s)).
    assert (Hstep1 : graph_loop config nodes l (name :: rest) s =
                     graph_loop config nodes l rest s1).
    { cbn [graph_loop]. unfold bind at 1.
      now rewrite (graph_body_run _ _ _ _ _ _ Hf Herr),
                  (run_node_without_attempts _ _ _ _ Hn). }
    rewrite Hstep1.
    assert (Herr1 : truthy_str (error (heap (world s1) l)) = false).
    { cbn. unfold upd. now rewrite Nat.eqb_refl. }
    destruct (IH l s1 Herr1) as (Hret & Htr & (step & Hstep) & Hother & Hfiles & Henv).
    split; [exact Hret|]. split; [exact Htr|]. split; [|split; [|split]].
    + exists step. rewrite Hstep. cbn. unfold upd. now rewrite Nat.eqb_refl.
    + intros l' Hne. rewrite (Hother l' Hne). cbn. unfold upd.
      apply Nat.eqb_neq in Hne. now rewrite Hne.
    + exact Hfiles.
    + exact Henv.
Qed.

(** X4.  With [max_retries <= 0] a run calls no node at all and still
    ends without error: when every name of the order is in the node map
    and the run starts without error, [run_graph] returns the state it
    was given, the log is as it was, and nothing has changed but
    [current_step] of that state. *)
Theorem run_graph_without_attempts nodes l node_order s :
  max_retries config <= 0 ->
  Forall (known nodes) (order_followed nodes node_order) ->
  truthy_str (error (heap (world s) l)) = false ->
  let out := run_graph config nodes l node_order s in
  fst out = Ok l /\
  trace (snd out) = trace s /\
  (exists step, heap (world (snd out)) l = with_current_step step (heap (world s) l)) /\
  (forall l', l' <> l -> heap (world (snd out)) l' = heap (world s) l') /\
  files (world (snd out)) = files (world s) /\
  env (world (snd out)) = env (world s).
Proof.
  intros Hn Hall Herr out. subst out. rewrite run_graph_order.
  now apply graph_loop_without_attempts.
Qed.

(** [run_conditional], outcome by outcome. *)
Lemma run_conditional_eq (condition_func : CondFunc U) (true_node false_node : NodeFunc U)
      l node_name s :
  run_conditional config condition_func true_node false_node l node_name s =
  match cond_call condition_func l (world s) with
  | (Ok b, w') =>
      match run_node config (if b then true_node else false_node) l
              (if b then node_name +:+ "_true" else node_name +:+ "_false")
              (mkSys w' (trace s ++ [EvCondition node_name])) with
      | (Ok l', s') => (Ok l', s')
      | (Raise e, s') =>
          (Ok l, mkSys (mutate l (with_error (Some (conditional_message node_name e)))
                               (world s'))
                       (trace s'))
      end
  | (Raise e, w') =>
      (Ok l, mkSys (mutate l (with_error (Some (conditional_message node_name e))) w')
                   (trace s ++ [EvCondition node_name]))
  end.
Proof.
  unfold run_conditional, try_except.
  unfold bind at 1 2, log. cbn [world trace].
  destruct (cond_is_coroutine condition_func); unfold on_world; cbn [world trace];
    destruct (cond_call condition_func l (world s)) as [[b|e] w'];
    try reflexivity;
    destruct (run_node config _ l _ _) as [[l'|e] s']; reflexivity.
Qed.

(** The retry loop logs calls of the node and pauses, nothing else. *)
Lemma attempts_trace f l node_name rng : forall s,
  exists evs,
    trace (snd (attempts config f l node_name rng s)) = trace s ++ evs /\
    Forall (fun ev => ev = EvAttempt node_name \/ ev = EvSleep (retry_delay config)) evs.
Proof.
  induction rng as [|attempt rest IH]; intros [w tr].
  - exists []. cbn. split; [now rewrite app_nil_r | constructor].
  - destruct (call f l w) as [[l'|e] w'] eqn:Hw.
    + rewrite (attempts_return _ _ _ _ _ _ _ _ _ _ Hw).
      exists [EvAttempt node_name]. split; [reflexivity|].
      repeat constructor.
    + destruct (attempt =? max_retries config - 1) eqn:Hlast.
      * rewrite (attempts_give_up _ _ _ _ _ _ _ _ _ _ Hw Hlast).
        exists [EvAttempt node_name]. split; [reflexivity|].
        repeat constructor.
      * rewrite (attempts_retry _ _ _ _ _ _ _ _ _ _ Hw Hlast).
        destruct (IH (mkSys w' (tr ++ [EvAttempt node_name;
                                      EvSleep (retry_delay config)])))
          as (evs & Ht & Hall).
        exists ([EvAttempt node_name; EvSleep (retry_delay config)] ++ evs).
        split.
        -- rewrite Ht. cbn [trace]. now rewrite <- app_assoc.
        -- apply Forall_app. split; [|exact Hall].
           constructor; [now left|]. constructor; [now right | constructor].
Qed.

(** X5.  [run_conditional] asks the condition once and runs one branch.
    The node of the branch that is not taken has no part in the outcome:
    any node in its place gives the same result and the same world.  The
    log holds the call of the condition, and after it only what the
    retry loop of the chosen branch logs, under the name of the
    conditional followed by [_true] or [_false]. *)
Theorem run_conditional_single_branch
        (condition_func : CondFunc U) (true_node false_node : NodeFunc U)
        l node_name s (b : bool) w' :
  cond_call condition_func l (world s) = (Ok b, w') ->
  let out := run_conditional config condition_func true_node false_node l node_name s in
  let branch_name := if b then node_name +:+ "_true" else node_name +:+ "_false" in
  (forall other,
      out = run_conditional config condition_func
              (if b then true_node else other) (if b then other else false_node)
              l node_name s) /\
  exists evs,
    trace (snd out) = trace s ++ EvCondition node_name :: evs /\
    Forall (fun ev => ev = EvAttempt branch_name \/ ev = EvSleep (retry_delay config)) evs.
Proof.
  intros Hc out branch_name. subst out. split.
  - intros other. rewrite !run_conditional_eq, Hc. now destruct b.
  - rewrite run_conditional_eq, Hc. fold branch_name.
    destruct (attempts_trace (if b then true_node else false_node) l branch_name
                (range (max_retries config))
                (mkSys (mutate l (with_current_step (Some branch_name)) w')
                       (trace s ++ [EvCondition node_name])))
      as (evs & Ht & Hall).
    exists evs. split; [|exact Hall].
    change (attempts config _ l branch_name _ _)
      with (run_node config (if b then true_node else false_node) l branch_name
                     (mkSys w' (trace s ++ [EvCondition node_name]))) in Ht.
    cbn [trace] in Ht. rewrite <- app_assoc in Ht.
    destruct (run_node config _ l branch_name _) as [[l'|e] s']; exact Ht.
Qed.

(** A round on a node whose first call returns the reference it got. *)
Lemma graph_body_first_call nodes l node_name s f w1 n :
  max_retries config = Z.of_nat n ->
  (1 <= n)%nat ->
  dict_get node_name nodes = Some f ->
  truthy_str (error (heap (world s) l)) = false ->
  call f l (mutate l (with_current_step (Some node_name)) (world s)) = (Ok l, w1) ->
  graph_body config nodes l node_name s =
  (Ok (Continue l), mkSys w1 (trace s ++ [EvAttempt node_name])).
Proof.
  intros Hn Hpos Hf Herr Hcall.
  rewrite (graph_body_run _ _ _ _ _ _ Hf Herr).
  now rewrite (run_node_returns config f l node_name s n O _ l w1 Hn ltac:(lia)
                 eq_refl Hcall).
Qed.

Lemma passes_snoc nodes pre node_name : forall l s l1 s1,
  passes config nodes l pre s = Some (l1, s1) ->
  passes config nodes l (pre ++ [node_name]) s =
  match graph_body config nodes l1 node_name s1 with
  | (Ok (Continue l2), s2) => Some (l2, s2)
  | _ => None
  end.
Proof.
  induction pre as [|name pre IH]; intros l s l1 s1 H.
  - injection H as <- <-. cbn [app passes].
    now destruct (graph_body config nodes l node_name s) as [[[l2|l2]|e] s2].
  - cbn [app passes] in *.
    destruct (graph_body config nodes l name s) as [[[l'|l']|e] s']; try discriminate.
    now apply IH.
Qed.

(** A name that is not in the node map ends the run, whatever the
    state holds: when the loop of [run_graph] reaches such a name,
    [run_graph] returns the current state with the not-found message,
    which names the node, in [error]; nothing else changes, and no node
    function is called from there on. *)
Theorem run_graph_unknown_node
        nodes l s node_order pre node_name post l1 s1 :
  order_followed nodes node_order = pre ++ node_name :: post ->
  passes config nodes l pre s = Some (l1, s1) ->
  dict_get node_name nodes = None ->
  let out := run_graph config nodes l node_order s in
  out = (Ok l1,
         mkSys (mutate l1 (with_error (Some (not_found_message node_name))) (world s1))
               (trace s1)) /\
  error (heap (world (snd out)) l1) = Some ("Node '" +:+ node_name +:+ "' not found in graph") /\
  truthy_str (error (heap (world (snd out)) l1)) = true /\
  node_calls (trace (snd out)) = node_calls (trace s1).
Proof.
  intros Horder Hpre Hf out.
  assert (Hout : out =
    (Ok l1, mkSys (mutate l1 (with_error (Some (not_found_message node_name))) (world s1))
                  (trace s1))).
  { subst out.
    rewrite run_graph_order, Horder, (graph_loop_passes _ _ _ _ _ _ _ _ Hpre).
    cbn [graph_loop]. unfold bind at 1.
    now rewrite (graph_body_missing _ _ _ _ _ Hf). }
  rewrite Hout. cbn [snd world trace]. split; [reflexivity|].
  assert (Herr : error (heap (mutate l1 (with_error (Some (not_found_message node_name)))
                                     (world s1)) l1)
                 = Some (not_found_message node_name)).
  { cbn. unfold upd. now rewrite Nat.eqb_refl. }
  rewrite Herr. repeat split.
Qed.

End RunnerCoverage.

(** *** On the scenarios of [tests/test_async_graph.py] *)

Lemma marking_node_settles (key : string) : settles (marking_node key).
Proof.
  intros l w Herr. exists l. eexists. split; [reflexivity|].
  cbn. unfold upd. now rewrite Nat.eqb_refl.
Qed.

Lemma run_graph_clean_result_witness :
  let out := run_graph default_config two_nodes O None (sys0 "test-1") in
  passes default_config two_nodes O ["node1"; "node3"] (sys0 "test-1")
    = Some (O, snd out) /\
  exists evs, trace (snd out) = evs /\ (2 <= node_calls evs)%nat.
Proof.
  intros out.
  destruct (run_graph_clean_result (U := nat) default_config two_nodes O None
              (sys0 "test-1") O (snd out) 3%nat eq_refl ltac:(lia) eq_refl eq_refl)
    as (Hpass & _ & Hcalls).
  split; [exact Hpass | exact Hcalls].
Defined.

Lemma run_graph_runs_all_in_order_witness :
  exists l' s',
    run_graph default_config two_nodes O None (sys0 "test-1") = (Ok l', s') /\
    trace s' = [EvAttempt "node1"; EvAttempt "node3"] /\
    truthy_str (error (heap (world s') l')) = false.
Proof.
  apply (run_graph_runs_all_in_order (U := nat) default_config two_nodes None 3%nat
           O (sys0 "test-1") eq_refl eq_refl); [lia | | reflexivity].
  repeat constructor; eexists; (split; [reflexivity | apply marking_node_settles]).
Defined.

Lemma run_graph_without_attempts_witness :
  let out := run_graph (mkRunnerConfig 5 0 1%Q) two_nodes O None (sys0 "test-1") in
  fst out = Ok O /\
  trace (snd out) = [] /\
  metadata (heap (world (snd out)) O) = [].
Proof.
  intros out.
  destruct (run_graph_without_attempts (U := nat) (mkRunnerConfig 5 0 1%Q) two_nodes O
              None (sys0 "test-1"))
    as (Hret & Htr & (step & Hstep) & _).
  - cbn. lia.
  - repeat constructor; discriminate.
  - reflexivity.
  - split; [exact Hret|]. split; [exact Htr|].
    subst out. rewrite Hstep. reflexivity.
Defined.

Lemma run_conditional_single_branch_witness :
  run_conditional two_tries flag_condition node1 failing_node O "conditional"
                  (sys0 "test-7")
  = run_conditional two_tries flag_condition error_node failing_node O "conditional"
                    (sys0 "test-7").
Proof.
  exact (proj1 (run_conditional_single_branch (U := nat) two_tries flag_condition
                  node1 failing_node O "conditional" (sys0 "test-7") false
                  (world0 "test-7") eq_refl) error_node).
Defined.

Lemma run_graph_unknown_node_witness :
  let out := run_graph default_config three_nodes O (Some ["node1"; "ghost"; "node3"])
                       (sys0 "test-2") in
  fst out = Ok O /\
  error (heap (world (snd out)) O) = Some "Node 'ghost' not found in graph" /\
  trace (snd out) = [EvAttempt "node1"].
Proof.
  intros out.
  edestruct (run_graph_unknown_node (U := nat) default_config three_nodes O
               (sys0 "test-2") (Some ["node1"; "ghost"; "node3"])
               ["node1"] "ghost" ["node3"])
    as (Hout & Herr & _); [reflexivity | reflexivity | reflexivity |].
  subst out. split; [now rewrite Hout|]. split; [exact Herr | now rewrite Hout].
Defined.

(** ** The enforcers: failing closed *)

Section CompositeCoverage.
Context {St : Type}.

(** X6.  A composite whose fallback is [LocalDenyEnforcer] fails
    closed: it never raises, and it returns a value that counts as allow
    only when the primary enforcer itself returned that value. *)
Theorem composite_deny_fallback_fails_closed
        (primary : PolicyEnforcer.t St)
        (action resource : string) (context : option (Dict Json)) (s : St) :
  let self := CompositePolicyEnforcer.mk primary LocalDenyEnforcer.new in
  let out := CompositePolicyEnforcer.enforce self action resource context s in
  (exists v, fst out = Ok v) /\
  (forall v, fst out = Ok v -> truthy v = true ->
             PolicyEnforcer.enforce primary action resource context s = (Ok v, snd out)) /\
  (forall e s',
      PolicyEnforcer.enforce primary action resource context s = (Raise e, s') ->
      out = (Ok (JBool false), s')).
Proof.
  intros self out. subst out self.
  unfold CompositePolicyEnforcer.enforce, CompositePolicyEnforcer.enforce_logged,
    try_except, CompositePolicyEnforcer.call_member.
  cbn [CompositePolicyEnforcer.primary CompositePolicyEnforcer.fallback].
  destruct (PolicyEnforcer.enforce primary action resource context s) as [[v|e] s'];
    cbn; repeat split.
  - now exists v.
  - now intros v' [= ->] _.
  - discriminate.
  - now exists (JBool false).
  - intros v' [= <-]. discriminate.
  - now intros e' s'' [= _ ->].
Qed.

End CompositeCoverage.

Section OPACoverage.
Context {U : Type}.
Import OPAHttpPolicyEnforcer.
Variable post : ClientSession -> string -> Json -> Z -> M U Response.

(** X7.  [OPAHttpPolicyEnforcer.enforce] allows on the word of the
    server only: if it returns a value that counts as allow, then the
    request was answered, with status 200 and a document that is a
    mapping, and the value is the ["result"] of that document. *)
Theorem opa_enforce_allows_on_server_word self u action resource context v :
  fst (enforce post action resource context (self, u)) = Ok v ->
  truthy v = true ->
  exists response u' kvs,
    post (session_in_use self) (opa_url self +:+ "/" +:+ policy_path self)
         (opa_input action resource context) (timeout self) u = (Ok response, u') /\
    status response = 200 /\
    json response = Ok (JObj kvs) /\
    dict_get "result" kvs = Some v.
Proof.
  rewrite enforce_eq. intros Hout Hv.
  destruct (post _ _ _ _ u) as [[response|e] u']; [|discriminate].
  exists response, u'.
  destruct (status response =? 200) eqn:Hs;
    [|injection Hout as <-; discriminate].
  apply Z.eqb_eq in Hs.
  destruct (json response) as [doc|e]; [|discriminate].
  destruct doc as [| | | | |kvs]; try discriminate.
  exists kvs. cbn in Hout.
  destruct (dict_get "result" kvs) as [x|].
  - injection Hout as ->. now repeat split.
  - injection Hout as <-. discriminate.
Qed.

(** What [enforce] leaves of the enforcer object. *)
Lemma enforce_self self u action resource context :
  fst (snd (enforce post action resource context (self, u))) =
  mk (opa_url self) (policy_path self) (timeout self) (Some (session_in_use self)).
Proof.
  unfold enforce, session_in_use.
  unfold bind at 1, _get_session, on_self.
  destruct self as [url path t [[[|]]|]]; cbn [_session closed opa_url policy_path timeout];
    unfold bind at 1, gets; cbn [fst opa_url policy_path timeout];
    unfold try_except, bind, on_network;
    (destruct (post _ _ _ _ u) as [[response|e] u']; cbn [fst snd];
     [ destruct (status response =? 200);
       [ destruct (json response) as [a|e];
         [ destruct (py_get a "result" (JBool false)) as [x|e] | ] | ];
       cbn; try reflexivity
     | ]);
    destruct (exn_class e); reflexivity.
Qed.

(** X8.  The session of the enforcer.  Whatever the outcome of
    [enforce], a raise included, the enforcer is left holding an open
    session, and its address, path and timeout are as they were.
    [close] closes that session and touches nothing else; on an enforcer
    that holds no session, or a closed one, it does nothing, so closing
    twice is closing once; and the next [enforce] after a [close] works
    with a new open session. *)
Theorem opa_session_lifecycle self u action resource context :
  let after := snd (enforce post action resource context (self, u)) in
  let shut := snd (close (U := U) after) in
  fst after =
    mk (opa_url self) (policy_path self) (timeout self) (Some (mkSession false)) /\
  fst shut =
    mk (opa_url self) (policy_path self) (timeout self) (Some (mkSession true)) /\
  snd shut = snd after /\
  close shut = (Ok tt, shut) /\
  close (mk (opa_url self) (policy_path self) (timeout self) None, u)
    = (Ok tt, (mk (opa_url self) (policy_path self) (timeout self) None, u)) /\
  session_in_use (fst shut) = mkSession false.
Proof.
  intros after shut.
  assert (Hafter : fst after =
            mk (opa_url self) (policy_path self) (timeout self) (Some (mkSession false))).
  { subst after. rewrite enforce_self. f_equal. unfold session_in_use.
    now destruct (_session self) as [[[|]]|]. }
  subst shut. destruct after as [self' u']. cbn [fst] in Hafter. subst self'.
  cbn. repeat split.
Qed.

End OPACoverage.

(** X9.  The address a request is posted to.  The constructor removes
    slashes, and only slashes, from the end of the server address and
    from the beginning of the policy path, all of them: the address kept
    does not end with a slash, the path kept does not begin with one,
    and the two are joined by the single slash [enforce] puts between
    them. *)
Theorem opa_new_strips_slashes (opa_url policy_path : string) (timeout : Z) :
  let self := OPAHttpPolicyEnforcer.new opa_url policy_path timeout in
  (exists tail, opa_url = OPAHttpPolicyEnforcer.opa_url self +:+ tail /\
                all_slashes tail = true) /\
  ends_with_slash (OPAHttpPolicyEnforcer.opa_url self) = false /\
  (exists head, policy_path = head +:+ OPAHttpPolicyEnforcer.policy_path self /\
                all_slashes head = true) /\
  starts_with_slash (OPAHttpPolicyEnforcer.policy_path self) = false.
Proof.
  cbn. split; [|split; [|split]].
  - induction opa_url as [|c s (tail & Hs & Ht)]; [now exists EmptyString|].
    cbn [OPAHttpPolicyEnforcer.rstrip_slash].
    destruct (OPAHttpPolicyEnforcer.rstrip_slash s) as [|d r].
    + cbn in Hs. subst tail.
      destruct (Ascii.eqb c "/") eqn:Hc.
      * exists (String c s). cbn. now rewrite Hc.
      * now exists s.
    + exists tail. cbn. cbn in Hs. now rewrite <- Hs.
  - induction opa_url as [|c s IH]; [reflexivity|].
    cbn [OPAHttpPolicyEnforcer.rstrip_slash].
    destruct (OPAHttpPolicyEnforcer.rstrip_slash s) as [|d r].
    + destruct (Ascii.eqb c "/") eqn:Hc; cbn; [reflexivity | exact Hc].
    + exact IH.
  - induction policy_path as [|c s (head & Hs & Hh)]; [now exists EmptyString|].
    cbn [OPAHttpPolicyEnforcer.lstrip_slash].
    destruct (Ascii.eqb c "/") eqn:Hc.
    + exists (String c head). cbn. rewrite Hc. now rewrite <- Hs.
    + now exists EmptyString.
  - induction policy_path as [|c s IH]; [reflexivity|].
    cbn [OPAHttpPolicyEnforcer.lstrip_slash].
    destruct (Ascii.eqb c "/") eqn:Hc; [exact IH | cbn; exact Hc].
Qed.

Lemma opa_enforce_allows_on_server_word_witness :
  exists response u' kvs,
    post_reply 200 (JObj [("result", JBool true)])
               (session_in_use test_opa)
               "http://test-opa:8181/v1/data/authz/allow"
               (opa_input "read" "document1" None) 5 tt = (Ok response, u') /\
    OPAHttpPolicyEnforcer.status response = 200 /\
    OPAHttpPolicyEnforcer.json response = Ok (JObj kvs) /\
    dict_get "result" kvs = Some (JBool true).
Proof.
  exact (opa_enforce_allows_on_server_word
           (post_reply 200 (JObj [("result", JBool true)]))
           test_opa tt "read" "document1" None (JBool true) eq_refl eq_refl).
Defined.

(** ** The supervisor: saving, restoring, and the policy check *)

Section SupervisorCoverage.
Context {U : Type}.
Variable utcnow : M U datetime.
Variable path_of : string -> string.
Variable uuid4_hex : M U string.
Import Supervisor.

Implicit Types (self : Supervisor.t U) (s : Sys U).

(** X10.  No checkpoint without a clean end.  When an allowed run is
    made with [auto_checkpoint] off, or its graph ends with an error in
    the state, [run_conversation] returns the state of the graph and
    leaves the system exactly as the graph left it: nothing is saved, no
    id is recorded in the state, neither the clock nor the random source
    is consulted. *)
Theorem run_conversation_without_checkpoint
        self cid nodes (auto_checkpoint : bool) s allowed u lf s2 :
  gate self cid (env (world s)) = (Ok allowed, u) ->
  truthy allowed = true ->
  run_graph (runner self) nodes (next_loc (world s)) (Some (keys nodes))
            (started cid s u) = (Ok lf, s2) ->
  auto_checkpoint = false \/ truthy_str (error (heap (world s2) lf)) = true ->
  Supervisor.run_conversation utcnow path_of uuid4_hex self cid (Some nodes)
                              auto_checkpoint s = (Ok lf, s2).
Proof.
  intros Hgate Hallow Hgraph Hno.
  rewrite run_conversation_gate, Hgate, Hallow. cbn [negb].
  unfold bind at 1, ret. unfold bind at 1. rewrite Hgraph.
  unfold bind at 1, read at 1, gets.
  destruct Hno as [-> | ->]; [reflexivity|].
  now rewrite andb_false_r.
Qed.

(** X11.  Without [custom_nodes] no node is ever run.  The default
    workflow is built with a call of [finalize_node] that lacks its
    argument, so [run_conversation] called without [custom_nodes] has
    three outcomes and no other: the enforcer raises, and so does the
    call; the enforcer denies, and the call returns the state with the
    policy message; the enforcer allows, and the call raises
    [TypeError].  It never calls a node function, never saves a
    checkpoint, and logs the request to the enforcer and nothing else. *)
Theorem run_conversation_without_custom_nodes self cid (auto_checkpoint : bool) s :
  let out := Supervisor.run_conversation utcnow path_of uuid4_hex self cid None
                                         auto_checkpoint s in
  trace (snd out) = trace s ++ [gate_event cid] /\
  node_calls (trace (snd out)) = node_calls (trace s) /\
  files (world (snd out)) = files (world s) /\
  (forall e u, gate self cid (env (world s)) = (Raise e, u) -> fst out = Raise e) /\
  (forall allowed u,
      gate self cid (env (world s)) = (Ok allowed, u) -> truthy allowed = true ->
      fst out = Raise (Exn TypeError
                         "finalize_node() missing 1 required positional argument: 'state'")) /\
  (forall l, fst out = Ok l ->
             l = next_loc (world s) /\
             heap (world (snd out)) l =
               with_error (Some "Policy denied conversation execution") (State.new cid)).
Proof.
  intros out.
  assert (Hout :
    out =
    match gate self cid (env (world s)) with
    | (Raise e, u) =>
        (Raise e, mkSys (mkWorld (heap (world s)) (next_loc (world s))
                                 (files (world s)) u)
                        (trace s ++ [gate_event cid]))
    | (Ok allowed, u) =>
        if negb (truthy allowed) then
          (Ok (next_loc (world s)),
           mkSys (mutate (next_loc (world s))
                         (with_error (Some "Policy denied conversation execution"))
                         (world (started cid s u)))
                 (trace s ++ [gate_event cid]))
        else
          (Raise (Exn TypeError
                    "finalize_node() missing 1 required positional argument: 'state'"),
           started cid s u)
    end).
  { subst out. rewrite run_conversation_gate.
    destruct (gate self cid (env (world s))) as [[allowed|e] u]; [|reflexivity].
    now destruct (negb (truthy allowed)). }
  rewrite Hout. clear Hout out.
  destruct (gate self cid (env (world s))) as [[allowed|e] u].
  - destruct (truthy allowed) eqn:Hallow; cbn [negb fst snd world trace started files].
    + split; [reflexivity|]. split; [rewrite node_calls_app; cbn; lia|].
      split; [reflexivity|]. split; [discriminate|].
      split; [reflexivity | discriminate].
    + split; [reflexivity|]. split; [rewrite node_calls_app; cbn; lia|].
      split; [reflexivity|]. split; [discriminate|]. split.
      * intros allowed' u' [= -> _] Ht. congruence.
      * intros l [= <-]. split; [reflexivity|].
        cbn. unfold upd. now rewrite Nat.eqb_refl.
  - cbn [fst snd world trace files].
    split; [reflexivity|]. split; [rewrite node_calls_app; cbn; lia|].
    split; [reflexivity|]. split; [now intros e' u' [= -> _]|].
    split; discriminate.
Qed.

(** What [save_checkpoint] does when it is given an id, for a state that
    holds JSON values. *)
Lemma save_checkpoint_eq self l id s now u :
  id <> EmptyString ->
  utcnow (env (world s)) = (Ok now, u) ->
  proper (to_dict (heap (world s) l)) = true ->
  save_checkpoint utcnow path_of uuid4_hex self l (Some id) s =
  (Ok id,
   mkSys (mkWorld (heap (world s)) (next_loc (world s))
                  (dict_set id (FJson (snapshot (heap (world s) l) now id))
                            (files (world s)))
                  u)
         (trace s ++ [EvSave id])).
Proof.
  intros Hid Hnow Hproper. unfold save_checkpoint.
  assert (Ht : truthy_str (Some id) = true).
  { cbn. apply negb_true_iff. now apply String.eqb_neq. }
  rewrite Ht. unfold bind at 1, ret at 1.
  unfold bind at 1, read at 1, gets. unfold bind at 1, log. cbn [world trace].
  unfold bind at 1, on_world at 1. cbn [world trace].
  rewrite (save_snapshot utcnow path_of (heap (world s) l) _ _ now u) by assumption.
  reflexivity.
Qed.

(** X12.  A checkpoint saved by the supervisor under a given id is
    restored by it.  Let the id name a file of the directory, and let
    the state hold JSON values, in mappings as Python has them.  Then
    [save_checkpoint(state, id)] returns [id], logs one save, changes no
    state object, and stores the snapshot of the state;
    [load_checkpoint(id)] then constructs a new state object, and that
    object is equal, field by field, to the state that was saved. *)
Theorem save_checkpoint_then_load self l id s now u :
  id <> EmptyString ->
  file_stem id = true ->
  utcnow (env (world s)) = (Ok now, u) ->
  proper (to_dict (heap (world s) l)) = true ->
  let st := heap (world s) l in
  let saved := save_checkpoint utcnow path_of uuid4_hex self l (Some id) s in
  fst saved = Ok id /\
  trace (snd saved) = trace s ++ [EvSave id] /\
  heap (world (snd saved)) = heap (world s) /\
  dict_get id (files (world (snd saved))) = Some (FJson (snapshot st now id)) /\
  exists s',
    load_checkpoint self id (snd saved) = Some (Ok (Some (next_loc (world s))), s') /\
    heap (world s') (next_loc (world s)) = st /\
    files (world s') = files (world (snd saved)) /\
    trace s' = trace (snd saved).
Proof.
  intros Hid Hstem Hnow Hproper st saved. subst saved.
  rewrite (save_checkpoint_eq _ _ _ _ _ _ Hid Hnow Hproper). fold st.
  cbn [fst snd world trace heap files].
  split; [reflexivity|]. split; [reflexivity|]. split; [reflexivity|].
  split; [apply dict_get_set_same|].
  eexists. split; [|split; [|split]].
  - unfold load_checkpoint, on_world at 1, CheckpointStore.load.
    unfold bind, gets. cbn [world files].
    rewrite dict_get_set_same. cbn [ret snapshot truthy negb py_get dict_get].
    cbn [String.eqb Ascii.eqb Bool.eqb].
    rewrite from_dict_to_dict. unfold on_world, alloc. cbn [world].
    reflexivity.
  - cbn. unfold upd. now rewrite Nat.eqb_refl.
  - reflexivity.
  - reflexivity.
Qed.

(** X13.  The two ways back to a checkpoint.  On a stored document
    whose ["state"] counts as true, [rollback_to_checkpoint] and
    [load_checkpoint] do the same.  On a document without ["state"] they
    part: [rollback_to_checkpoint] answers [None], [load_checkpoint]
    raises [KeyError], for it reads the state from an empty mapping. *)
Theorem rollback_and_load_checkpoint self id s kvs :
  dict_get id (files (world s)) = Some (FJson (JObj kvs)) ->
  kvs <> [] ->
  (forall v, dict_get "state" kvs = Some v -> truthy v = true ->
             rollback_to_checkpoint self id s = load_checkpoint self id s) /\
  (dict_get "state" kvs = None ->
   rollback_to_checkpoint self id s = Some (Ok None, s) /\
   load_checkpoint self id s = Some (Raise (Exn KeyError "'conversation_id'"), s)).
Proof.
  intros Hfile Hkvs.
  assert (Hdoc : truthy (JObj kvs) = true) by now destruct kvs.
  assert (Hload : on_world (CheckpointStore.load id) s = (Ok (JObj kvs), s)).
  { unfold on_world, CheckpointStore.load, bind, gets. rewrite Hfile.
    now destruct s. }
  assert (Hroll : forall v, field kvs "state" JNull = v ->
            on_world (CheckpointStore.rollback id) s = (Ok v, s)).
  { intros v Hv. unfold on_world, CheckpointStore.rollback, CheckpointStore.load.
    unfold bind, gets. rewrite Hfile. cbn [ret]. rewrite Hdoc. cbn [negb].
    unfold lift, py_get. unfold field in Hv.
    destruct (dict_get "state" kvs); subst v; now destruct s. }
  split.
  - intros v Hv Htrue.
    unfold rollback_to_checkpoint, load_checkpoint.
    rewrite Hload, (Hroll v) by (unfold field; now rewrite Hv).
    rewrite Hdoc, Htrue. cbn [negb]. unfold py_get. now rewrite Hv.
  - intros Hnone.
    unfold rollback_to_checkpoint, load_checkpoint.
    rewrite Hload, (Hroll JNull) by (unfold field; now rewrite Hnone).
    rewrite Hdoc. cbn [negb truthy]. unfold py_get. rewrite Hnone.
    split; reflexivity.
Qed.

End SupervisorCoverage.

(** *** The enforcer a supervisor is built with *)

Section SupervisorEnforcers.

(** The network. *)
Context {N : Type}.
Variable post : OPAHttpPolicyEnforcer.ClientSession -> string -> Json -> Z ->
                M N OPAHttpPolicyEnforcer.Response.
Variable utcnow : M (OPAHttpPolicyEnforcer.t * N) datetime.
Variable path_of : string -> string.
Variable uuid4_hex : M (OPAHttpPolicyEnforcer.t * N) string.
Import Supervisor.

Implicit Types (s : Sys (OPAHttpPolicyEnforcer.t * N)).

(** X14.  Deny by default.  A supervisor built without an enforcer and
    without [enable_opa] lets no conversation run: for every
    conversation id, whatever nodes are supplied, [run_conversation]
    returns a new state with the policy message in [error], calls no
    node, saves nothing, and leaves the environment alone. *)
Theorem supervisor_denies_by_default
        runner_config opa_url cid custom_nodes auto_checkpoint s :
  let built := __init__ post runner_config None false opa_url (env (world s)) in
  exists self,
    built = (Ok self, env (world s)) /\
    let out := Supervisor.run_conversation utcnow path_of uuid4_hex self cid
                                           custom_nodes auto_checkpoint s in
    fst out = Ok (next_loc (world s)) /\
    heap (world (snd out)) (next_loc (world s)) =
      with_error (Some "Policy denied conversation execution") (State.new cid) /\
    trace (snd out) = trace s ++ [gate_event cid] /\
    files (world (snd out)) = files (world s) /\
    env (world (snd out)) = env (world s).
Proof.
  cbn. eexists. split; [reflexivity|].
  rewrite run_conversation_gate. cbn. repeat split.
  unfold upd. now rewrite Nat.eqb_refl.
Qed.

(** The request [run_conversation] has the OPA enforcer post. *)
Lemma opa_gate_raises (self : OPAHttpPolicyEnforcer.t) (n : N) cid e n' :
  post (session_in_use self)
       (OPAHttpPolicyEnforcer.opa_url self +:+ "/" +:+ OPAHttpPolicyEnforcer.policy_path self)
       (opa_input "execute" ("conversation/" +:+ cid)
                  (Some [("conversation_id", JStr cid)]))
       (OPAHttpPolicyEnforcer.timeout self) n = (Raise e, n') ->
  exists u,
    OPAHttpPolicyEnforcer.enforce post "execute" ("conversation/" +:+ cid)
      (Some [("conversation_id", JStr cid)]) (self, n) = (Raise e, u).
Proof.
  intros Hpost.
  pose proof (enforce_eq post self n "execute" ("conversation/" +:+ cid)
                (Some [("conversation_id", JStr cid)])) as Heq.
  rewrite Hpost in Heq.
  destruct (OPAHttpPolicyEnforcer.enforce _ _ _ _ _) as [r u].
  cbn in Heq. subst r. now exists u.
Qed.

(** X15.  With OPA enabled the supervisor fails closed.  A supervisor
    built with [enable_opa] asks the server at the given address, with
    the default policy path and timeout; when the request raises, the
    fallback answers, and the conversation is denied: [run_conversation]
    does not raise, returns a new state with the policy message in
    [error], calls no node and saves nothing. *)
Theorem supervisor_opa_unreachable_denies
        runner_config opa_url cid custom_nodes auto_checkpoint s e n' :
  let opa := OPAHttpPolicyEnforcer.new opa_url "v1/data/authz/allow" 5 in
  post (session_in_use opa)
       (OPAHttpPolicyEnforcer.opa_url opa +:+ "/" +:+ OPAHttpPolicyEnforcer.policy_path opa)
       (opa_input "execute" ("conversation/" +:+ cid)
                  (Some [("conversation_id", JStr cid)]))
       5 (snd (env (world s))) = (Raise e, n') ->
  let built := __init__ post runner_config None true opa_url (env (world s)) in
  exists self,
    built = (Ok self, (opa, snd (env (world s)))) /\
    let out := Supervisor.run_conversation utcnow path_of uuid4_hex self cid
                 custom_nodes auto_checkpoint (with_env (snd built) s) in
    fst out = Ok (next_loc (world s)) /\
    heap (world (snd out)) (next_loc (world s)) =
      with_error (Some "Policy denied conversation execution") (State.new cid) /\
    trace (snd out) = trace s ++ [gate_event cid] /\
    files (world (snd out)) = files (world s).
Proof.
  intros opa Hpost built. subst built.
  destruct s as [[h nl fs [o n]] tr]. cbn [env world snd] in *.
  eexists. split; [reflexivity|].
  destruct (opa_gate_raises opa n cid e n' Hpost) as [u Hraise].
  rewrite run_conversation_gate.
  cbn [with_env world env snd __init__ bind modify ret fst gate policy_enforcer
       CompositePolicyEnforcer.as_enforcer PolicyEnforcer.enforce].
  unfold CompositePolicyEnforcer.enforce, CompositePolicyEnforcer.enforce_logged,
    try_except, CompositePolicyEnforcer.call_member.
  cbn [CompositePolicyEnforcer.primary CompositePolicyEnforcer.fallback
       OPAHttpPolicyEnforcer.as_enforcer PolicyEnforcer.enforce].
  fold opa. rewrite Hraise. cbn. repeat split.
  unfold upd. now rewrite Nat.eqb_refl.
Qed.

(** X16.  The OPA enforcer on its own does not fail closed.  A
    supervisor built with an [OPAHttpPolicyEnforcer] as its enforcer, not
    wrapped in a composite, does not deny when the request raises:
    [run_conversation] raises that exception; no state is constructed,
    no node is called and nothing is saved. *)
Theorem supervisor_bare_opa_raises
        runner_config enable_opa opa_url cid custom_nodes auto_checkpoint s e n' :
  post (session_in_use (fst (env (world s))))
       (OPAHttpPolicyEnforcer.opa_url (fst (env (world s))) +:+ "/"
        +:+ OPAHttpPolicyEnforcer.policy_path (fst (env (world s))))
       (opa_input "execute" ("conversation/" +:+ cid)
                  (Some [("conversation_id", JStr cid)]))
       (OPAHttpPolicyEnforcer.timeout (fst (env (world s))))
       (snd (env (world s))) = (Raise e, n') ->
  let built := __init__ post runner_config
                        (Some (OPAHttpPolicyEnforcer.as_enforcer post))
                        enable_opa opa_url (env (world s)) in
  exists self,
    built = (Ok self, env (world s)) /\
    let out := Supervisor.run_conversation utcnow path_of uuid4_hex self cid
                 custom_nodes auto_checkpoint s in
    fst out = Raise e /\
    next_loc (world (snd out)) = next_loc (world s) /\
    heap (world (snd out)) = heap (world s) /\
    files (world (snd out)) = files (world s) /\
    trace (snd out) = trace s ++ [gate_event cid].
Proof.
  intros Hpost built. subst built.
  destruct s as [[h nl fs [o n]] tr]. cbn [env world fst snd] in *.
  eexists. split; [reflexivity|].
  destruct (opa_gate_raises o n cid e n' Hpost) as [u Hraise].
  rewrite run_conversation_gate.
  cbn [world env gate policy_enforcer OPAHttpPolicyEnforcer.as_enforcer
       PolicyEnforcer.enforce].
  rewrite Hraise. cbn. repeat split.
Qed.

End SupervisorEnforcers.

(** ** The checkpoint store: files come and go *)

Section StoreCoverage.
Context {U : Type}.
Variable utcnow : M U datetime.
Variable path_of : string -> string.
Import CheckpointStore.

Implicit Types (w : World U).

Lemma load_eq id w :
  load id w =
  (match dict_get id (files w) with
   | None => Ok JNull
   | Some (FJson doc) => Ok doc
   | Some (FError e) => Raise e
   end, w).
Proof.
  unfold load, bind, gets.
  now destruct (dict_get id (files w)) as [[doc|e]|].
Qed.



(** X19.  [rollback] reads and does not write.  It never changes the
    store; for an id that names a file of the directory and is not there
    it answers [None]; and after [save(id, state, metadata)], for such
    an id and for a state and metadata [json] can write, it returns the
    state as [json] writes it and reads it back: the state itself when
    that is a JSON value. *)
Theorem rollback_returns_saved_state id state metadata w now u state_doc caller_doc :
  utcnow (env w) = (Ok now, u) ->
  file_stem id = true ->
  json_dump state = Ok state_doc ->
  dump_values (given metadata) = Ok caller_doc ->
  let w1 := snd (save utcnow path_of id state metadata w) in
  rollback id w1 = (Ok state_doc, w1) /\
  (forall v, proper v = true -> state = of_json v -> state_doc = v) /\
  (forall id' w', snd (rollback id' w') = w') /\
  (forall id' w', file_stem id' = true -> dict_get id' (files w') = None ->
                  rollback id' w' = (Ok JNull, w')).
Proof.
  intros Hnow Hstem Hs Hc w1. subst w1. rewrite (save_eq _ _ _ _ _ _ _ _ Hnow).
  rewrite (json_dump_checkpoint_members _ _ _ _ Hs
             (dump_values_stamped _ now id _ Hc)).
  cbn [snd]. split; [|split; [|split]].
  - unfold rollback, bind. rewrite load_eq. cbn [files].
    now rewrite dict_get_set_same.
  - intros v Hp ->. rewrite (json_dump_of_json v Hp) in Hs. now injection Hs.
  - intros id' w'. unfold rollback, bind. rewrite load_eq.
    destruct (dict_get id' (files w')) as [[doc|e]|]; try reflexivity.
    destruct (negb (truthy doc)); [reflexivity|].
    unfold lift. now destruct (py_get doc "state" JNull).
  - intros id' w' _ Hnone. unfold rollback, bind. rewrite load_eq.
    now rewrite Hnone.
Qed.

End StoreCoverage.

(** ** Listing: what is saved is listed, what has no timestamp breaks the sort *)

Section ListingCoverage.
Context {U : Type}.
Variable utcnow : M U datetime.
Variable path_of : string -> string.
Import CheckpointStore.

Implicit Types (w : World U).

Lemma listable_dict_set k entry dir :
  forallb listable dir = true ->
  listable (k, entry) = true ->
  forallb listable (dict_set k entry dir) = true.
Proof.
  intros Hdir He. induction dir as [|[k0 e0] dir IH]; cbn [dict_set forallb].
  - now rewrite He.
  - cbn [forallb] in Hdir. apply andb_true_iff in Hdir as [H0 Hrest].
    destruct (String.eqb k k0); cbn [forallb].
    + now rewrite He, Hrest.
    + now rewrite H0, IH.
Qed.

Lemma listed_In conversation_id stem doc dir :
  In (stem, FJson doc) dir ->
  selected conversation_id doc = true ->
  In (summary_of stem doc) (listed conversation_id dir).
Proof.
  intros Hin Hsel. induction dir as [|[k0 e0] dir IH]; [contradiction|].
  cbn [listed]. destruct Hin as [[= -> ->]|Hin].
  - rewrite Hsel. now left.
  - specialize (IH Hin). destruct e0 as [doc0|e]; [|exact IH].
    destruct (selected conversation_id doc0); [now right | exact IH].
Qed.

(** X20.  What is saved is listed.  In a store of listable files, after
    [save(id, state, metadata)] with an id that names a file of the
    directory, a state that is a mapping and metadata that [json] can
    write, the store is still one of listable files, and
    [list_checkpoints] returns a sorted list that holds the summary of
    the new checkpoint, under the id it was saved with and the timestamp
    [save] gave it, whenever the checkpoint is of the conversation asked
    for. *)
Theorem saved_checkpoint_is_listed
        id state kvs metadata caller_doc conversation_id w now u :
  utcnow (env w) = (Ok now, u) ->
  file_stem id = true ->
  json_dump state = Ok (JObj kvs) ->
  NoDup (keys (given metadata)) ->
  dump_values (given metadata) = Ok caller_doc ->
  forallb listable (files w) = true ->
  let doc := JObj [("state", JObj kvs);
                   ("metadata", JObj (stamped (Some caller_doc) now id))] in
  selected conversation_id doc = true ->
  let w1 := snd (save utcnow path_of id state metadata w) in
  forallb listable (files w1) = true /\
  py_get (summary_of id doc) "checkpoint_id" JNull = Ok (JStr id) /\
  py_get (summary_of id doc) "timestamp" JNull = Ok (JStr (isoformat now)) /\
  exists result,
    list_checkpoints conversation_id w1 = (Ok result, w1) /\
    In (summary_of id doc) result /\
    StronglySorted newest_first result.
Proof.
  intros Hnow Hstem Hstate Hnd Hc Hok doc Hsel w1. subst w1.
  rewrite (save_ok _ _ _ _ _ _ _ _ _ _ Hnow Hstate Hnd Hc). cbn [snd]. fold doc.
  set (w1 := mkWorld (heap w) (next_loc w) (dict_set id (FJson doc) (files w)) u).
  assert (Hts : dict_get "timestamp" (stamped (Some caller_doc) now id)
                = Some (JStr (isoformat now))).
  { unfold stamped. rewrite dict_get_set_other by discriminate.
    apply dict_get_set_same. }
  assert (Hid : dict_get "checkpoint_id" (stamped (Some caller_doc) now id)
                = Some (JStr id))
    by apply dict_get_set_same.
  assert (Hdoc : listable (id, FJson doc) = true).
  { cbn. cbn in Hts. now rewrite Hts. }
  assert (Hok1 : forallb listable (files w1) = true)
    by now apply listable_dict_set.
  split; [exact Hok1|].
  split; [cbn; cbn in Hid; unfold field; now rewrite Hid|].
  split; [cbn; cbn in Hts; unfold field; now rewrite Hts|].
  destruct (sort_reverse_dated _ (listed_dated conversation_id _ Hok1))
    as (r & Hr & Hp & Hs).
  exists r. split; [|split; [|exact Hs]].
  - unfold list_checkpoints, bind, gets, lift.
    rewrite (scan_listable _ _ [] w1 Hok1). cbn [app]. now rewrite Hr.
  - apply (Permutation_in _ (Permutation_sym Hp)).
    apply listed_In; [apply In_dict_set | exact Hsel].
Qed.

(** *** A summary without timestamp *)

Lemma summarize_shaped conversation_id stem doc w :
  shaped (stem, FJson doc) = true ->
  summarize conversation_id stem (FJson doc) w =
  (Ok (if selected conversation_id doc then Some (summary_of stem doc) else None), w).
Proof.
  intros Hwf. destruct doc as [| | | | |kvs]; try discriminate.
  cbn [shaped snd] in Hwf. apply andb_true_iff in Hwf as [Hst Hmd].
  destruct (dict_get "metadata" kvs) as [[| | | | |md]|] eqn:Emd; try discriminate.
  clear Hmd.
  assert (Hstate : field kvs "state" (JObj []) = JObj (stored_part "state" (JObj kvs))).
  { unfold field, stored_part.
    now destruct (dict_get "state" kvs) as [[| | | | |st]|]. }
  clear Hst.
  assert (Hmeta : field kvs "metadata" (JObj []) = JObj md).
  { unfold field. now rewrite Emd. }
  unfold summarize, summary_of, selected, belongs_to.
  replace (stored_part "metadata" (JObj kvs)) with md
    by (unfold stored_part; now rewrite Emd).
  generalize dependent (stored_part "state" (JObj kvs)). intros st Hstate.
  unfold bind at 1, ret at 1.
  rewrite bind_lift_get, Hmeta.
  assert (Htail :
    (checkpoint_id <- lift (py_get (JObj md) "checkpoint_id" (JStr stem));;
     timestamp <- lift (py_get (JObj md) "timestamp" JNull);;
     state1 <- lift (py_get (JObj kvs) "state" (JObj []));;
     conv <- lift (py_get state1 "conversation_id" JNull);;
     state2 <- lift (py_get (JObj kvs) "state" (JObj []));;
     step <- lift (py_get state2 "current_step" JNull);;
     ret (Some (JObj [("checkpoint_id", checkpoint_id); ("timestamp", timestamp);
                      ("conversation_id", conv); ("current_step", step);
                      ("metadata", JObj md)]))) w =
    (Ok (Some (JObj [("checkpoint_id", field md "checkpoint_id" (JStr stem));
                     ("timestamp", field md "timestamp" JNull);
                     ("conversation_id", field st "conversation_id" JNull);
                     ("current_step", field st "current_step" JNull);
                     ("metadata", JObj md)])), w)).
  { rewrite bind_lift_get. rewrite bind_lift_get.
    rewrite bind_lift_get, Hstate. rewrite bind_lift_get.
    rewrite bind_lift_get, Hstate. now rewrite bind_lift_get. }
  destruct conversation_id as [x|]; cbn [truthy_str].
  - destruct (String.eqb x EmptyString) eqn:Ex; cbn [negb].
    + unfold bind at 1, ret at 1. exact Htail.
    + unfold bind at 1. rewrite bind_lift_get, Hstate, bind_lift_get.
      unfold ret at 1, differs.
      destruct (field st "conversation_id" JNull) as [| | |c| |];
        try reflexivity.
      destruct (String.eqb c x); cbn [negb]; [exact Htail | reflexivity].
  - unfold bind at 1, ret at 1. exact Htail.
Qed.

Lemma scan_shaped conversation_id dir : forall acc w,
  forallb shaped dir = true ->
  scan conversation_id dir acc w = (Ok (acc ++ listed conversation_id dir), w).
Proof.
  induction dir as [|[stem entry] dir IH]; intros acc w Hok.
  - cbn. now rewrite app_nil_r.
  - cbn [forallb] in Hok. apply andb_true_iff in Hok as [He Hrest].
    cbn [scan listed]. unfold bind at 1, try_except.
    destruct entry as [doc|e].
    + rewrite (summarize_shaped _ _ _ _ He).
      destruct (selected conversation_id doc).
      * rewrite (IH _ _ Hrest). now rewrite <- app_assoc.
      * now apply IH.
    + cbn [shaped snd] in He. unfold summarize, bind at 1, raise.
      destruct (exn_class e); try discriminate; cbn [ret]; now apply IH.
Qed.

Lemma py_lt_none_left (b : Json) :
  exists e, py_lt JNull b = Raise e /\ exn_class e = TypeError.
Proof. destruct b; eexists; split; reflexivity. Qed.

Lemma py_lt_keys (a b : Json) :
  date_or_none a -> date_or_none b ->
  (exists ta tb r, a = JStr ta /\ b = JStr tb /\ py_lt a b = Ok r) \/
  (exists e, py_lt a b = Raise e /\ exn_class e = TypeError).
Proof.
  intros [[ta ->]| ->] Hb.
  - destruct Hb as [[tb ->]| ->].
    + left. now exists ta, tb, (String.ltb ta tb).
    + right. eexists. split; reflexivity.
  - right. apply py_lt_none_left.
Qed.

Lemma insert_desc_keys x l :
  date_or_none (fst x) ->
  Forall (fun p => date_or_none (fst p)) l ->
  match insert_desc x l with
  | Ok r => length r = S (length l) /\
            Forall (fun p => date_or_none (fst p)) r /\
            (l <> [] -> exists ts, fst x = JStr ts) /\
            (forall y, l = [y] -> exists ts, fst y = JStr ts)
  | Raise e => exn_class e = TypeError
  end.
Proof.
  intros Hx Hl. induction Hl as [|y l Hy Hl IH].
  - cbn. split; [reflexivity|]. split; [|split].
    + constructor; [exact Hx | constructor].
    + congruence.
    + discriminate.
  - cbn [insert_desc].
    destruct (py_lt_keys (fst x) (fst y) Hx Hy)
      as [(ta & tb & r & Ha & Hb & Hlt)|(e & Hlt & He)]; rewrite Hlt; [|exact He].
    assert (Hone : forall y0, y :: l = [y0] -> exists ts, fst y0 = JStr ts)
      by (intros y0 [= <- _]; now exists tb).
    destruct r.
    + destruct (insert_desc x l) as [r'|e]; [|exact IH].
      destruct IH as (Hlen & Hall & _ & _).
      split; [cbn; now rewrite Hlen|]. split; [now constructor|].
      split; [intros _; now exists ta | exact Hone].
    + split; [reflexivity|]. split; [constructor; [exact Hx | now constructor]|].
      split; [intros _; now exists ta | exact Hone].
Qed.

Lemma sort_keyed_desc_keys l :
  Forall (fun p => date_or_none (fst p)) l ->
  match sort_keyed_desc l with
  | Ok r => length r = length l /\
            Forall (fun p => date_or_none (fst p)) r /\
            ((2 <= length l)%nat -> Forall (fun p => exists ts, fst p = JStr ts) l)
  | Raise e => exn_class e = TypeError
  end.
Proof.
  induction 1 as [|x l Hx Hl IH].
  { cbn. split; [reflexivity|]. split; [constructor | lia]. }
  cbn [sort_keyed_desc].
  destruct (sort_keyed_desc l) as [r|e] eqn:Hsort; [|exact IH].
  destruct IH as (Hlen & Hall & Hdated).
  pose proof (insert_desc_keys x r Hx Hall) as Hins.
  destruct (insert_desc x r) as [r'|e]; [|exact Hins].
  destruct Hins as (Hlen' & Hall' & Hxs & Hone).
  split; [cbn; now rewrite Hlen', Hlen|]. split; [exact Hall'|].
  intros Htwo. cbn [length] in Htwo.
  assert (Hr : r <> []) by (destruct r; cbn in Hlen; [lia | discriminate]).
  constructor; [now apply Hxs|].
  destruct l as [|y [|z l']].
  - cbn in Htwo. lia.
  - cbn in Hsort. injection Hsort as <-.
    constructor; [now apply Hone | constructor].
  - apply Hdated. cbn. lia.
Qed.

Lemma keyed_mixed l :
  Forall (fun x => dated x \/ undated_summary x) l ->
  exists kl,
    keyed (fun x => py_get x "timestamp" (JStr EmptyString)) l = Ok kl /\
    length kl = length l /\
    Forall (fun p => date_or_none (fst p)) kl /\
    (Exists undated_summary l -> Exists (fun p => fst p = JNull) kl).
Proof.
  induction 1 as [|x l Hx _ (kl & Hk & Hlen & Hall & Hex)].
  - exists []. repeat split; [constructor | intros H; inversion H].
  - assert (Hkey : exists k, py_get x "timestamp" (JStr EmptyString) = Ok k /\
                             date_or_none k /\ (undated_summary x -> k = JNull)).
    { destruct Hx as [[ts Hts]|Hnone].
      - exists (JStr ts). split; [exact Hts|]. split; [left; now exists ts|].
        unfold undated_summary. rewrite Hts. discriminate.
      - exists JNull. split; [exact Hnone|]. split; [now right | reflexivity]. }
    destruct Hkey as (k & Hk1 & Hk2 & Hk3).
    exists ((k, x) :: kl). cbn [keyed]. rewrite Hk1, Hk.
    split; [reflexivity|]. split; [cbn; now rewrite Hlen|].
    split; [now constructor|].
    intros Hu. inversion Hu as [? ? Hhead|? ? Htail]; subst.
    + left. now apply Hk3.
    + right. now apply Hex.
Qed.

(** X21.  One summary without timestamp is enough to break the listing.
    Take a store whose files are mappings with a mapping for
    ["metadata"], or unreadable.  If two or more checkpoints are to be
    listed, each with a string or nothing for timestamp, and at least
    one with nothing, then [list_checkpoints] raises [TypeError]: the
    sort compares [None] with another key.  The store is not changed. *)
Theorem list_checkpoints_raises_without_timestamp conversation_id w :
  forallb shaped (files w) = true ->
  Forall (fun x => dated x \/ undated_summary x) (listed conversation_id (files w)) ->
  (2 <= length (listed conversation_id (files w)))%nat ->
  Exists undated_summary (listed conversation_id (files w)) ->
  exists e,
    list_checkpoints conversation_id w = (Raise e, w) /\
    exn_class e = TypeError.
Proof.
  intros Hshaped Hkinds Htwo Hundated.
  destruct (keyed_mixed _ Hkinds) as (kl & Hk & Hlen & Hall & Hex).
  specialize (Hex Hundated).
  pose proof (sort_keyed_desc_keys kl Hall) as Hsort.
  assert (Hraise : exists e, sort_keyed_desc kl = Raise e /\ exn_class e = TypeError).
  { destruct (sort_keyed_desc kl) as [r|e]; [|now exists e].
    destruct Hsort as (_ & _ & Hdated). exfalso.
    rewrite Hlen in Hdated. specialize (Hdated Htwo).
    apply Exists_exists in Hex as (p & Hin & Hp).
    rewrite Forall_forall in Hdated. destruct (Hdated p Hin) as [ts Hts].
    congruence. }
  destruct Hraise as (e & Hr & He). exists e. split; [|exact He].
  unfold list_checkpoints, bind, gets, lift.
  rewrite (scan_shaped _ _ [] w Hshaped). cbn [app].
  unfold sort_reverse. now rewrite Hk, Hr.
Qed.

End ListingCoverage.

(** ** Cleaning up old checkpoints *)

Section CleanupCoverage.
Context {U Time : Type}.
Variable now_timestamp : M U Time.
Variable minus_seconds : Time -> Z -> Time.
Variable before : Time -> Time -> bool.
Variable st_mtime : string -> Res Time.
Import CheckpointStore.



End CleanupCoverage.

(** ** The state document and the messages *)

(** X23.  A state survives the trip through its document: [from_dict]
    applied to [to_dict] of a state gives that state back, so no two
    states have the same document; a document that holds a conversation
    id and nothing else gives the new state of that conversation; and a
    mapping without ["conversation_id"] makes [from_dict] raise
    [KeyError]. *)
Theorem graph_state_round_trip (st : GraphState) :
  from_dict (to_dict st) = Some (Ok st) /\
  (forall st', to_dict st' = to_dict st -> st' = st) /\
  from_dict (JObj [("conversation_id", JStr (State.conversation_id st))])
    = Some (Ok (State.new (State.conversation_id st))) /\
  (forall kvs, dict_get "conversation_id" kvs = None ->
               from_dict (JObj kvs) = Some (Raise (Exn KeyError "'conversation_id'"))).
Proof.
  split; [apply from_dict_to_dict|]. split; [|split].
  - intros st' Heq.
    pose proof (from_dict_to_dict st') as H'. rewrite Heq, from_dict_to_dict in H'.
    now injection H' as ->.
  - reflexivity.
  - intros kvs Hnone. cbn. now rewrite Hnone.
Qed.

Section MessageCoverage.
Context {U : Type}.
Variable utcnow : M U datetime.
Variable fromisoformat : string -> Res datetime.

(** A performative and its value.  Looking a member up by its
    value finds that member; a lookup that succeeds was given the value
    of the member it returns; so the eleven values are distinct, and the
    strings that name a performative are exactly these. *)
Theorem performative_value_round_trip :
  (forall p, Fipa.of_value (JStr (Fipa.value p)) = Some (Ok p)) /\
  (forall v p, Fipa.of_value v = Some (Ok p) -> v = JStr (Fipa.value p)) /\
  (forall p q, Fipa.value p = Fipa.value q -> p = q).
Proof.
  assert (Hround : forall p, Fipa.of_value (JStr (Fipa.value p)) = Some (Ok p))
    by (intros p; now destruct p).
  split; [exact Hround|]. split.
  - intros v p H. unfold Fipa.of_value in H.
    destruct v as [| | |s| |];
      try (destruct (Fipa.py_repr _); discriminate).
    destruct (Fipa.by_value s) as [q|] eqn:Hq.
    + injection H as ->. unfold Fipa.by_value in Hq.
      apply find_some in Hq as [_ Hq]. apply String.eqb_eq in Hq. now subst s.
    + destruct (Fipa.py_repr (JStr s)); discriminate.
  - intros p q Heq. pose proof (Hround p) as Hp. rewrite Heq, Hround in Hp.
    now injection Hp as ->.
Qed.

(** X24.  A message survives the trip through its document: where
    [fromisoformat] reads back the timestamp [isoformat] wrote,
    [Message.from_dict] applied to [to_dict] of a message returns that
    message, all twelve fields, without reading the clock. *)
Theorem message_round_trip (m : Fipa.Message) :
  fromisoformat (Fipa.isoformat_naive (Fipa.timestamp m)) = Ok (Fipa.timestamp m) ->
  exists run,
    Fipa.from_dict utcnow fromisoformat (Fipa.to_dict m) = Some run /\
    forall u, run u = (Ok m, u).
Proof.
  intros Hts. destruct m as [p s r c cid re pr la on ts mid md].
  cbn [Fipa.timestamp] in Hts.
  unfold Fipa.from_dict, Fipa.to_dict.
  cbn [Fipa.performative Fipa.sender Fipa.receiver Fipa.content Fipa.conversation_id
       Fipa.reply_to Fipa.protocol Fipa.language Fipa.ontology Fipa.timestamp
       Fipa.message_id Fipa.metadata].
  cbn [dict_get String.eqb Ascii.eqb Bool.eqb].
  replace (Fipa.of_value (JStr (Fipa.value p))) with (Some (Ok p))
    by now destruct p.
  rewrite Hts. eexists. split; [reflexivity|]. intros u. reflexivity.
Qed.


(** X26.  Replies.  [create_reply] addresses the reply to the sender of
    the message, keeps its conversation and its protocol, and refers to
    it by its id; the language and the ontology are not taken over but
    set to their defaults, and the reply is given no id of its own.  So
    a reply to the reply goes back to the one who replied, in the same
    conversation, and refers to nothing: its [reply_to] is [None]. *)
Theorem create_reply_chain
        (m : Fipa.Message) p1 content1 sender1 p2 content2 sender2 u now1 u1 now2 u2 :
  utcnow u = (Ok now1, u1) ->
  utcnow u1 = (Ok now2, u2) ->
  exists r1 r2,
    Fipa.create_reply utcnow m p1 content1 sender1 u = (Ok r1, u1) /\
    Fipa.create_reply utcnow r1 p2 content2 sender2 u1 = (Ok r2, u2) /\
    Fipa.receiver r1 = Fipa.sender m /\
    Fipa.reply_to r1 = Fipa.message_id m /\
    Fipa.conversation_id r1 = Fipa.conversation_id m /\
    Fipa.protocol r1 = Fipa.protocol m /\
    Fipa.language r1 = JStr "json" /\
    Fipa.ontology r1 = JNull /\
    Fipa.message_id r1 = JNull /\
    Fipa.timestamp r1 = now1 /\
    Fipa.receiver r2 = sender1 /\
    Fipa.reply_to r2 = JNull /\
    Fipa.conversation_id r2 = Fipa.conversation_id m /\
    Fipa.protocol r2 = Fipa.protocol m.
Proof.
  intros Hnow1 Hnow2. eexists. eexists.
  split; [unfold Fipa.create_reply, bind; rewrite Hnow1; reflexivity|].
  split; [unfold Fipa.create_reply, bind; rewrite Hnow2; reflexivity|].
  cbn. repeat split.
Qed.

End MessageCoverage.

Lemma create_reply_chain_witness :
  exists r1 r2,
    Fipa.create_reply (U := unit) stopped confirmation Fipa.INFORM
                      (JObj [("status", JStr "active")]) (JStr "agent-b") tt = (Ok r1, tt) /\
    Fipa.create_reply (U := unit) stopped r1 Fipa.AGREE JNull (JStr "agent-a") tt
      = (Ok r2, tt) /\
    Fipa.receiver r1 = JStr "agent-a" /\
    Fipa.reply_to r1 = JStr "msg-roundtrip" /\
    Fipa.receiver r2 = JStr "agent-b" /\
    Fipa.reply_to r2 = JNull.
Proof.
  destruct (create_reply_chain (U := unit) stopped confirmation Fipa.INFORM
              (JObj [("status", JStr "active")]) (JStr "agent-b")
              Fipa.AGREE JNull (JStr "agent-a") tt noon tt noon tt eq_refl eq_refl)
    as (r1 & r2 & H1 & H2 & Hrecv & Hreply & _ & _ & _ & _ & _ & _ & Hrecv2 & Hreply2 & _).
  exists r1, r2. repeat split; assumption.
Defined.

Lemma message_round_trip_witness :
  exists run,
    Fipa.from_dict (U := unit) stopped parse_noon (Fipa.to_dict confirmation) = Some run /\
    forall u, run u = (Ok confirmation, u).
Proof.
  exact (message_round_trip (U := unit) stopped parse_noon confirmation eq_refl).
Defined.


(** ** The nodes of the library *)

Section NodesCoverage.
Context {U : Type}.
Variable utcnow : M U datetime.
Variable uuid4_hex : M U string.
Variable py_str : Json -> string.

Implicit Types (l : loc) (w : World U).

(** Building a message: the id is drawn, then the clock is read; if
    either raises, only the environment has changed. *)
Lemma say_eq {A : Type} p receiver content cid reply_to w
      (k : Fipa.Message -> M (World U) A) :
  bind (on_env (Nodes.message utcnow uuid4_hex p receiver content cid reply_to)) k w =
  match uuid4_hex (env w) with
  | (Ok hex, u1) =>
      match utcnow u1 with
      | (Ok now, u2) =>
          k (Fipa.mkMessage p (JStr "jayz-wayz") receiver content (JStr cid) reply_to
                            (JStr "fipa-request") (JStr "json") JNull now
                            (JStr (Nodes.uuid_str hex)) (JObj []))
            (mkWorld (heap w) (next_loc w) (files w) u2)
      | (Raise e, u2) => (Raise e, mkWorld (heap w) (next_loc w) (files w) u2)
      end
  | (Raise e, u1) => (Raise e, mkWorld (heap w) (next_loc w) (files w) u1)
  end.
Proof.
  unfold bind at 1, on_env, Nodes.message, bind.
  destruct (uuid4_hex (env w)) as [[hex|e] u1]; [|reflexivity].
  now destruct (utcnow u1) as [[now|e] u2].
Qed.

(** A world that differs from [w] in the environment only. *)
Lemma appends_only_unchanged l w (r : Res loc) (u : U) :
  r = Ok l \/ (exists e, r = Raise e) ->
  let out := (r, mkWorld (heap w) (next_loc w) (files w) u) in
  (fst out = Ok l \/ exists e, fst out = Raise e /\ heap (snd out) l = heap w l) /\
  (exists new, messages (heap (snd out) l) = messages (heap w l) ++ new /\
               (length new <= 1)%nat) /\
  State.conversation_id (heap (snd out) l) = State.conversation_id (heap w l) /\
  metadata (heap (snd out) l) = metadata (heap w l) /\
  checkpoints (heap (snd out) l) = checkpoints (heap w l) /\
  files (snd out) = files w /\
  next_loc (snd out) = next_loc w.
Proof.
  intros Hr out. subst out. cbn [fst snd heap files next_loc].
  split; [destruct Hr as [->|[e ->]]; [now left | right; now exists e]|].
  split; [exists []; rewrite app_nil_r; split; [reflexivity | cbn; lia]|].
  repeat split.
Qed.

(** A world in which the state at [l] has been rewritten by [change],
    a change that appends one message or none. *)
Lemma appends_only_changed l w (u : U) (change : GraphState -> GraphState) new :
  (forall st, messages (change st) = messages st ++ new) ->
  (length new <= 1)%nat ->
  (forall st, State.conversation_id (change st) = State.conversation_id st) ->
  (forall st, metadata (change st) = metadata st) ->
  (forall st, checkpoints (change st) = checkpoints st) ->
  let out := (Ok l, mutate l change (mkWorld (heap w) (next_loc w) (files w) u)) in
  (fst out = Ok l \/ exists e, fst out = Raise e /\ heap (snd out) l = heap w l) /\
  (exists new, messages (heap (snd out) l) = messages (heap w l) ++ new /\
               (length new <= 1)%nat) /\
  State.conversation_id (heap (snd out) l) = State.conversation_id (heap w l) /\
  metadata (heap (snd out) l) = metadata (heap w l) /\
  checkpoints (heap (snd out) l) = checkpoints (heap w l) /\
  files (snd out) = files w /\
  next_loc (snd out) = next_loc w.
Proof.
  intros Hm Hlen Hc Hmd Hcp out. subst out.
  cbn [fst snd heap files next_loc mutate]. unfold upd. rewrite Nat.eqb_refl.
  split; [now left|]. split; [exists new; now rewrite Hm|].
  rewrite Hc, Hmd, Hcp. repeat split.
Qed.

Lemma greeting_eq l w :
  call (Nodes.create_greeting_node utcnow uuid4_hex) l w =
  match uuid4_hex (env w) with
  | (Ok hex, u1) =>
      match utcnow u1 with
      | (Ok now, u2) =>
          (Ok l,
           mutate l (add_message
                       (node_message Fipa.INFORM (JStr "user")
                          (JObj [("text", JStr ("Hello! Starting conversation "
                                                 +:+ State.conversation_id (heap w l)))])
                          (State.conversation_id (heap w l)) JNull now hex))
                  (mkWorld (heap w) (next_loc w) (files w) u2))
      | (Raise e, u2) => (Raise e, mkWorld (heap w) (next_loc w) (files w) u2)
      end
  | (Raise e, u1) => (Raise e, mkWorld (heap w) (next_loc w) (files w) u1)
  end.
Proof.
  cbn [call Nodes.create_greeting_node]. unfold bind at 1, gets.
  rewrite say_eq.
  destruct (uuid4_hex (env w)) as [[hex|e] u1]; [|reflexivity].
  now destruct (utcnow u1) as [[now|e] u2].
Qed.

Lemma greeting_appends_only :
  appends_only (Nodes.create_greeting_node utcnow uuid4_hex).
Proof.
  intros l w. rewrite greeting_eq.
  destruct (uuid4_hex (env w)) as [[hex|e] u1];
    [|apply appends_only_unchanged; right; now exists e].
  destruct (utcnow u1) as [[now|e] u2];
    [|apply appends_only_unchanged; right; now exists e].
  eapply appends_only_changed; [intros st; reflexivity | cbn; lia | reflexivity..].
Qed.

Lemma appends_only_same l w :
  let out := (Ok l, w) in
  (fst out = Ok l \/ exists e, fst out = Raise e /\ heap (snd out) l = heap w l) /\
  (exists new, messages (heap (snd out) l) = messages (heap w l) ++ new /\
               (length new <= 1)%nat) /\
  State.conversation_id (heap (snd out) l) = State.conversation_id (heap w l) /\
  metadata (heap (snd out) l) = metadata (heap w l) /\
  checkpoints (heap (snd out) l) = checkpoints (heap w l) /\
  files (snd out) = files w /\
  next_loc (snd out) = next_loc w.
Proof.
  cbn. split; [now left|].
  split; [exists []; rewrite app_nil_r; split; [reflexivity | cbn; lia]|].
  repeat split.
Qed.

Lemma processing_eq process_func l w :
  call (Nodes.create_processing_node utcnow uuid4_hex py_str process_func) l w =
  match Nodes.last_message (messages (heap w l)) with
  | None => (Ok l, w)
  | Some last_msg =>
      match field last_msg "content" (JObj []) with
      | JObj content =>
          match dict_get "text" content with
          | Some text =>
              match (match process_func with
                     | Some f => f
                     | None => Nodes.default_process py_str
                     end) text (env w) with
              | (Ok processed_text, u0) =>
                  match uuid4_hex u0 with
                  | (Ok hex, u1) =>
                      match utcnow u1 with
                      | (Ok now, u2) =>
                          (Ok l,
                           mutate l (add_message
                                       (node_message Fipa.INFORM
                                          (field last_msg "sender" (JStr "user"))
                                          (JObj [("text", processed_text)])
                                          (State.conversation_id (heap w l))
                                          (field last_msg "message_id" JNull) now hex))
                                  (mkWorld (heap w) (next_loc w) (files w) u2))
                      | (Raise e, u2) => (Raise e, mkWorld (heap w) (next_loc w) (files w) u2)
                      end
                  | (Raise e, u1) => (Raise e, mkWorld (heap w) (next_loc w) (files w) u1)
                  end
              | (Raise e, u0) => (Raise e, mkWorld (heap w) (next_loc w) (files w) u0)
              end
          | None => (Ok l, w)
          end
      | _ => (Ok l, w)
      end
  end.
Proof.
  cbn [call Nodes.create_processing_node]. unfold bind at 1, gets.
  destruct (Nodes.last_message (messages (heap w l))) as [last_msg|]; [|reflexivity].
  destruct (field last_msg "content" (JObj [])) as [| | | | |content]; try reflexivity.
  destruct (dict_get "text" content) as [text|]; [|reflexivity].
  unfold bind at 1, on_env at 1.
  destruct (_ text (env w)) as [[processed_text|e] u0]; [|reflexivity].
  unfold bind at 1, gets. rewrite say_eq. cbn [env heap next_loc files].
  destruct (uuid4_hex u0) as [[hex|e] u1]; [|reflexivity].
  now destruct (utcnow u1) as [[now|e] u2].
Qed.

Lemma validate_eq l w :
  call (Nodes.validate_node (U := U)) l w =
  (Ok l,
   if String.eqb (State.conversation_id (heap w l)) EmptyString
   then mutate l (with_error (Some "Missing conversation_id")) w
   else w).
Proof.
  cbn [call Nodes.validate_node]. unfold bind, gets, modify, ret.
  now destruct (String.eqb (State.conversation_id (heap w l)) EmptyString).
Qed.

Lemma error_handler_eq l w :
  call (Nodes.error_handler_node utcnow uuid4_hex) l w =
  if truthy_str (error (heap w l)) then
    match uuid4_hex (env w) with
    | (Ok hex, u1) =>
        match utcnow u1 with
        | (Ok now, u2) =>
            (Ok l,
             mutate l (add_message
                         (node_message Fipa.FAILURE (JStr "user")
                            (JObj [("error", of_opt_str (error (heap w l)))])
                            (State.conversation_id (heap w l)) JNull now hex))
                    (mkWorld (heap w) (next_loc w) (files w) u2))
        | (Raise e, u2) => (Raise e, mkWorld (heap w) (next_loc w) (files w) u2)
        end
    | (Raise e, u1) => (Raise e, mkWorld (heap w) (next_loc w) (files w) u1)
    end
  else (Ok l, w).
Proof.
  cbn [call Nodes.error_handler_node]. unfold bind at 1, gets.
  destruct (truthy_str (error (heap w l))); [|reflexivity].
  unfold bind at 1. unfold bind at 1, gets. rewrite say_eq.
  destruct (uuid4_hex (env w)) as [[hex|e] u1]; [|reflexivity].
  now destruct (utcnow u1) as [[now|e] u2].
Qed.

Lemma finalize_eq l w :
  call (Nodes.finalize_node utcnow uuid4_hex) l w =
  match uuid4_hex (env w) with
  | (Ok hex, u1) =>
      match utcnow u1 with
      | (Ok now, u2) =>
          (Ok l,
           mutate l (with_current_step (Some "completed"))
             (mutate l (add_message
                          (node_message Fipa.INFORM (JStr "user")
                             (JObj [("text", JStr "Conversation complete. Goodbye!")])
                             (State.conversation_id (heap w l)) JNull now hex))
                     (mkWorld (heap w) (next_loc w) (files w) u2)))
      | (Raise e, u2) => (Raise e, mkWorld (heap w) (next_loc w) (files w) u2)
      end
  | (Raise e, u1) => (Raise e, mkWorld (heap w) (next_loc w) (files w) u1)
  end.
Proof.
  cbn [call Nodes.finalize_node]. unfold bind at 1, gets.
  rewrite say_eq.
  destruct (uuid4_hex (env w)) as [[hex|e] u1]; [|reflexivity].
  now destruct (utcnow u1) as [[now|e] u2].
Qed.

Lemma processing_appends_only process_func :
  appends_only (Nodes.create_processing_node utcnow uuid4_hex py_str process_func).
Proof.
  intros l w. rewrite processing_eq.
  destruct (Nodes.last_message (messages (heap w l))) as [last_msg|];
    [|apply appends_only_same].
  destruct (field last_msg "content" (JObj [])) as [| | | | |content];
    try apply appends_only_same.
  destruct (dict_get "text" content) as [text|]; [|apply appends_only_same].
  destruct (_ text (env w)) as [[processed_text|e] u0];
    [|apply appends_only_unchanged; right; now exists e].
  destruct (uuid4_hex u0) as [[hex|e] u1];
    [|apply appends_only_unchanged; right; now exists e].
  destruct (utcnow u1) as [[now|e] u2];
    [|apply appends_only_unchanged; right; now exists e].
  eapply appends_only_changed; [intros st; reflexivity | cbn; lia | reflexivity..].
Qed.

Lemma validate_appends_only : appends_only (Nodes.validate_node (U := U)).
Proof.
  intros l w. rewrite validate_eq.
  destruct (String.eqb (State.conversation_id (heap w l)) EmptyString);
    [|apply appends_only_same].
  change (mutate l (with_error (Some "Missing conversation_id")) w)
    with (mutate l (with_error (Some "Missing conversation_id"))
                 (mkWorld (heap w) (next_loc w) (files w) (env w))).
  eapply appends_only_changed with (new := []);
    [intros st; cbn; now rewrite app_nil_r | cbn; lia | reflexivity..].
Qed.

Lemma error_handler_appends_only :
  appends_only (Nodes.error_handler_node utcnow uuid4_hex).
Proof.
  intros l w. rewrite error_handler_eq.
  destruct (truthy_str (error (heap w l))); [|apply appends_only_same].
  destruct (uuid4_hex (env w)) as [[hex|e] u1];
    [|apply appends_only_unchanged; right; now exists e].
  destruct (utcnow u1) as [[now|e] u2];
    [|apply appends_only_unchanged; right; now exists e].
  eapply appends_only_changed; [intros st; reflexivity | cbn; lia | reflexivity..].
Qed.

Lemma finalize_appends_only :
  appends_only (Nodes.finalize_node utcnow uuid4_hex).
Proof.
  intros l w. rewrite finalize_eq.
  destruct (uuid4_hex (env w)) as [[hex|e] u1];
    [|apply appends_only_unchanged; right; now exists e].
  destruct (utcnow u1) as [[now|e] u2];
    [|apply appends_only_unchanged; right; now exists e].
  cbn [fst snd heap files next_loc mutate]. unfold upd. rewrite !Nat.eqb_refl.
  split; [now left|]. split; [eexists; split; [reflexivity | cbn; lia]|].
  repeat split.
Qed.

(** X27.  The nodes of the library keep to their state and only add to
    the conversation.  Each of the greeting node, the processing node
    (with any process function), [validate_node], [error_handler_node]
    and [finalize_node] returns the reference it was given, or raises
    and then has changed nothing in the state; appends at most one
    message and removes none; and never changes the conversation id, the
    metadata or the checkpoint list of the state, or the checkpoint
    directory, and constructs no state object. *)
Theorem library_nodes_append_only process_func :
  Forall appends_only
    [Nodes.create_greeting_node utcnow uuid4_hex;
     Nodes.create_processing_node utcnow uuid4_hex py_str process_func;
     Nodes.validate_node;
     Nodes.error_handler_node utcnow uuid4_hex;
     Nodes.finalize_node utcnow uuid4_hex].
Proof.
  apply Forall_cons; [apply greeting_appends_only|].
  apply Forall_cons; [apply processing_appends_only|].
  apply Forall_cons; [apply validate_appends_only|].
  apply Forall_cons; [apply error_handler_appends_only|].
  apply Forall_cons; [apply finalize_appends_only|].
  apply Forall_nil.
Qed.

Lemma heap_mutate_same l w (f : GraphState -> GraphState) :
  heap (mutate l f w) l = f (heap w l).
Proof. cbn. unfold upd. now rewrite Nat.eqb_refl. Qed.

(** X28.  The processing node answers the last message.  When the last
    message of the state carries a text and the process function, the
    random source and the clock return, the node appends exactly one
    message: an [inform] from ["jayz-wayz"], in the conversation of the
    state, addressed to the sender of the last message (to ["user"] if
    it names none), in reply to that message's id ([None] if it has
    none), whose text is what the process function made of the text, by
    default ["Processed: "] followed by it.  When the state has no
    message, or the last one carries no text, the node changes nothing. *)
Theorem processing_node_replies
        process_func l w last_msg content text processed_text u0 hex u1 now u2 :
  Nodes.last_message (messages (heap w l)) = Some last_msg ->
  field last_msg "content" (JObj []) = JObj content ->
  dict_get "text" content = Some text ->
  (match process_func with
   | Some f => f
   | None => Nodes.default_process py_str
   end) text (env w) = (Ok processed_text, u0) ->
  uuid4_hex u0 = (Ok hex, u1) ->
  utcnow u1 = (Ok now, u2) ->
  let node := Nodes.create_processing_node utcnow uuid4_hex py_str process_func in
  let out := call node l w in
  let reply := node_message Fipa.INFORM (field last_msg "sender" (JStr "user"))
                 (JObj [("text", processed_text)])
                 (State.conversation_id (heap w l))
                 (field last_msg "message_id" JNull) now hex in
  fst out = Ok l /\
  messages (heap (snd out) l) = messages (heap w l) ++ [reply] /\
  dict_get "performative" reply = Some (JStr "inform") /\
  dict_get "sender" reply = Some (JStr "jayz-wayz") /\
  dict_get "receiver" reply = Some (field last_msg "sender" (JStr "user")) /\
  dict_get "reply_to" reply = Some (field last_msg "message_id" JNull) /\
  dict_get "conversation_id" reply = Some (JStr (State.conversation_id (heap w l))) /\
  dict_get "message_id" reply = Some (JStr (Nodes.uuid_str hex)) /\
  text_of reply = processed_text /\
  (process_func = None -> processed_text = JStr ("Processed: " +:+ py_str text)) /\
  (forall w0, Nodes.last_message (messages (heap w0 l)) = None ->
              call node l w0 = (Ok l, w0)) /\
  (forall w0 m c,
      Nodes.last_message (messages (heap w0 l)) = Some m ->
      field m "content" (JObj []) = JObj c -> dict_get "text" c = None ->
      call node l w0 = (Ok l, w0)).
Proof.
  intros Hlast Hcontent Htext Hproc Huuid Hnow node out reply.
  assert (Hout : out =
            (Ok l, mutate l (add_message reply)
                          (mkWorld (heap w) (next_loc w) (files w) u2))).
  { subst out node. rewrite processing_eq, Hlast, Hcontent, Htext, Hproc, Huuid, Hnow.
    reflexivity. }
  rewrite Hout. cbn [fst snd]. rewrite heap_mutate_same.
  split; [reflexivity|]. split; [reflexivity|].
  do 7 (split; [reflexivity|]).
  split; [|split].
  - intros ->. cbn in Hproc. now injection Hproc as <- _.
  - intros w0 Hnone. subst node. now rewrite processing_eq, Hnone.
  - intros w0 m c Hm Hc Ht. subst node. now rewrite processing_eq, Hm, Hc, Ht.
Qed.

Section Workflow.
Variable config : RunnerConfig.

Hypothesis uuid_returns : forall u, exists hex u', uuid4_hex u = (Ok hex, u').
Hypothesis clock_returns : forall u, exists now u', utcnow u = (Ok now, u').
Hypothesis str_of_str : forall t, py_str (JStr t) = t.

Lemma greeting_returns l w :
  exists hex now w',
    call (Nodes.create_greeting_node utcnow uuid4_hex) l w = (Ok l, w') /\
    heap w' l =
      add_message
        (node_message Fipa.INFORM (JStr "user")
           (JObj [("text", JStr ("Hello! Starting conversation "
                                  +:+ State.conversation_id (heap w l)))])
           (State.conversation_id (heap w l)) JNull now hex)
        (heap w l).
Proof.
  rewrite greeting_eq.
  destruct (uuid_returns (env w)) as (hex & u1 & ->).
  destruct (clock_returns u1) as (now & u2 & ->).
  exists hex, now. eexists. split; [reflexivity|]. now rewrite heap_mutate_same.
Qed.

Lemma processing_returns l w last_msg t :
  Nodes.last_message (messages (heap w l)) = Some last_msg ->
  field last_msg "content" (JObj []) = JObj [("text", JStr t)] ->
  exists hex now w',
    call (Nodes.create_processing_node utcnow uuid4_hex py_str None) l w = (Ok l, w') /\
    heap w' l =
      add_message
        (node_message Fipa.INFORM (field last_msg "sender" (JStr "user"))
           (JObj [("text", JStr ("Processed: " +:+ t))])
           (State.conversation_id (heap w l))
           (field last_msg "message_id" JNull) now hex)
        (heap w l).
Proof.
  intros Hlast Hcontent. rewrite processing_eq, Hlast, Hcontent.
  cbn [dict_get String.eqb Ascii.eqb Bool.eqb Nodes.default_process ret].
  rewrite str_of_str.
  destruct (uuid_returns (env w)) as (hex & u1 & ->).
  destruct (clock_returns u1) as (now & u2 & ->).
  exists hex, now. eexists. split; [reflexivity|]. now rewrite heap_mutate_same.
Qed.

Lemma finalize_returns l w :
  exists hex now w',
    call (Nodes.finalize_node utcnow uuid4_hex) l w = (Ok l, w') /\
    heap w' l =
      with_current_step (Some "completed")
        (add_message
           (node_message Fipa.INFORM (JStr "user")
              (JObj [("text", JStr "Conversation complete. Goodbye!")])
              (State.conversation_id (heap w l)) JNull now hex)
           (heap w l)).
Proof.
  rewrite finalize_eq.
  destruct (uuid_returns (env w)) as (hex & u1 & ->).
  destruct (clock_returns u1) as (now & u2 & ->).
  exists hex, now. eexists. split; [reflexivity|].
  now rewrite !heap_mutate_same.
Qed.

(** X29.  The default workflow, greeting, processing, finalize, on a
    new state.  With a positive deadline, within which each node is
    done, [max_retries >= 1], a random source and a clock that return,
    and [str] of a string being that string, [run_graph] on the three
    nodes in the order of the map calls each once and
    returns the state with three messages, without error and with
    [current_step] ["completed"]: the greeting, which names the
    conversation; the answer of the processing node, which echoes the
    greeting after ["Processed: "], is a reply to the greeting's id and
    is addressed to the sender of the greeting, ["jayz-wayz"] itself;
    and the farewell. *)
Theorem default_workflow_exchange n l (s : Sys U) cid :
  0 < timeout config ->
  max_retries config = Z.of_nat n ->
  (1 <= n)%nat ->
  heap (world s) l = State.new cid ->
  let nodes := [("greeting", Nodes.create_greeting_node utcnow uuid4_hex);
                ("processing", Nodes.create_processing_node utcnow uuid4_hex py_str None);
                ("finalize", Nodes.finalize_node utcnow uuid4_hex)] in
  let out := run_graph config nodes l None s in
  let final := heap (world (snd out)) l in
  fst out = Ok l /\
  trace (snd out) =
    trace s ++ [EvAttempt "greeting"; EvAttempt "processing"; EvAttempt "finalize"] /\
  State.conversation_id final = cid /\
  error final = None /\
  current_step final = Some "completed" /\
  exists greeting reply farewell,
    messages final = [greeting; reply; farewell] /\
    text_of greeting = JStr ("Hello! Starting conversation " +:+ cid) /\
    text_of reply = JStr ("Processed: Hello! Starting conversation " +:+ cid) /\
    dict_get "reply_to" reply = dict_get "message_id" greeting /\
    dict_get "receiver" reply = Some (JStr "jayz-wayz") /\
    dict_get "receiver" greeting = Some (JStr "user") /\
    text_of farewell = JStr "Conversation complete. Goodbye!".
Proof.
  intros _ Hn Hpos Hfresh nodes out final.
  (* greeting *)
  pose (w0 := mutate l (with_current_step (Some "greeting")) (world s)).
  assert (H0 : heap w0 l = with_current_step (Some "greeting") (State.new cid))
    by (subst w0; now rewrite heap_mutate_same, Hfresh).
  destruct (greeting_returns l w0) as (hex1 & now1 & w1 & Hcall1 & Hheap1).
  rewrite H0 in Hheap1. cbn [State.conversation_id with_current_step] in Hheap1.
  set (greeting := node_message Fipa.INFORM (JStr "user")
                     (JObj [("text", JStr ("Hello! Starting conversation " +:+ cid))])
                     cid JNull now1 hex1) in *.
  pose (s1 := mkSys w1 (trace s ++ [EvAttempt "greeting"])).
  assert (Hb1 : graph_body config nodes l "greeting" s = (Ok (Continue l), s1)).
  { apply graph_body_first_call with (f := Nodes.create_greeting_node utcnow uuid4_hex)
                                      (n := n); try assumption; try reflexivity.
    now rewrite Hfresh. }
  (* processing *)
  pose (w1' := mutate l (with_current_step (Some "processing")) w1).
  assert (H1 : heap w1' l =
               with_current_step (Some "processing")
                 (add_message greeting (State.new cid)))
    by (subst w1'; now rewrite heap_mutate_same, Hheap1).
  destruct (processing_returns l w1' greeting ("Hello! Starting conversation " +:+ cid))
    as (hex2 & now2 & w2 & Hcall2 & Hheap2);
    [now rewrite H1 | reflexivity |].
  rewrite H1 in Hheap2.
  cbn [State.conversation_id with_current_step add_message] in Hheap2.
  set (reply := node_message Fipa.INFORM (field greeting "sender" (JStr "user"))
                  (JObj [("text", JStr ("Processed: Hello! Starting conversation " +:+ cid))])
                  cid (field greeting "message_id" JNull) now2 hex2) in *.
  pose (s2 := mkSys w2 (trace s1 ++ [EvAttempt "processing"])).
  assert (Hb2 : graph_body config nodes l "processing" s1 = (Ok (Continue l), s2)).
  { apply graph_body_first_call
      with (f := Nodes.create_processing_node utcnow uuid4_hex py_str None) (n := n);
      try assumption; try reflexivity.
    cbn [world s1]. now rewrite Hheap1. }
  (* finalize *)
  pose (w2' := mutate l (with_current_step (Some "finalize")) w2).
  assert (H2 : heap w2' l =
               mkGraphState cid [greeting; reply] [] [] (Some "finalize") None)
    by (subst w2'; now rewrite heap_mutate_same, Hheap2).
  destruct (finalize_returns l w2') as (hex3 & now3 & w3 & Hcall3 & Hheap3).
  rewrite H2 in Hheap3.
  cbn [State.conversation_id with_current_step add_message messages metadata
       checkpoints current_step error app] in Hheap3.
  set (farewell := node_message Fipa.INFORM (JStr "user")
                     (JObj [("text", JStr "Conversation complete. Goodbye!")])
                     cid JNull now3 hex3) in *.
  pose (s3 := mkSys w3 (trace s2 ++ [EvAttempt "finalize"])).
  assert (Hb3 : graph_body config nodes l "finalize" s2 = (Ok (Continue l), s3)).
  { apply graph_body_first_call with (f := Nodes.finalize_node utcnow uuid4_hex) (n := n);
      try assumption; try reflexivity.
    cbn [world s2]. now rewrite Hheap2. }
  assert (Hout : out = (Ok l, s3)).
  { subst out. rewrite run_graph_order.
    change (order_followed nodes None) with ["greeting"; "processing"; "finalize"].
    cbn [graph_loop]. unfold bind at 1. rewrite Hb1.
    unfold bind at 1. rewrite Hb2. unfold bind at 1. now rewrite Hb3. }
  subst final. rewrite Hout. cbn [fst snd world trace s3 s2 s1]. rewrite Hheap3.
  split; [reflexivity|]. split; [now rewrite <- !app_assoc|].
  do 3 (split; [reflexivity|]).
  exists greeting, reply, farewell. repeat split.
Qed.

(** X30.  [error_handler_node] has nothing to report in a graph.  Let
    the deadline be positive, each node being done within it, and let
    the loop of [run_graph] come to a name bound to
    [error_handler_node].  If the state holds an error, the loop stops
    there and the node is not called.  If it holds none, the round goes
    through, the node is called at most once, and the messages of the
    state, and its error, are as they were.  In neither case is the
    failure message added. *)
Theorem error_handler_silent_in_graph
        nodes l s node_order pre node_name post l1 s1 :
  0 < timeout config ->
  order_followed nodes node_order = pre ++ node_name :: post ->
  passes config nodes l pre s = Some (l1, s1) ->
  dict_get node_name nodes = Some (Nodes.error_handler_node utcnow uuid4_hex) ->
  (truthy_str (error (heap (world s1) l1)) = true ->
   run_graph config nodes l node_order s = (Ok l1, s1)) /\
  (truthy_str (error (heap (world s1) l1)) = false ->
   exists s2,
     passes config nodes l (pre ++ [node_name]) s = Some (l1, s2) /\
     messages (heap (world s2) l1) = messages (heap (world s1) l1) /\
     error (heap (world s2) l1) = error (heap (world s1) l1) /\
     (node_calls (trace s2) <= node_calls (trace s1) + 1)%nat).
Proof.
  intros _ Horder Hpre Hf. split.
  - intros Herr.
    rewrite run_graph_order, Horder, (graph_loop_passes _ _ _ _ _ _ _ _ Hpre).
    cbn [graph_loop]. unfold bind at 1.
    now rewrite (graph_body_errored _ _ _ _ _ _ Hf Herr).
  - intros Herr. rewrite (passes_snoc _ _ _ _ _ _ _ _ Hpre).
    rewrite (graph_body_run _ _ _ _ _ _ Hf Herr), run_node_eq.
    set (w0 := mutate l1 (with_current_step (Some node_name)) (world s1)).
    assert (H0 : heap w0 l1 = with_current_step (Some node_name) (heap (world s1) l1))
      by (subst w0; now rewrite heap_mutate_same).
    assert (Hcall : call (Nodes.error_handler_node utcnow uuid4_hex) l1 w0 = (Ok l1, w0)).
    { rewrite error_handler_eq, H0. cbn [error with_current_step]. now rewrite Herr. }
    destruct (range (max_retries config)) as [|attempt rest].
    + cbn [attempts ret]. eexists. split; [reflexivity|].
      cbn [world trace]. rewrite H0. repeat split. lia.
    + rewrite (attempts_return _ _ _ _ _ _ _ _ _ _ Hcall).
      eexists. split; [reflexivity|].
      cbn [world trace]. rewrite H0. repeat split.
      rewrite node_calls_app. cbn. lia.
Qed.

End Workflow.

End NodesCoverage.

(** ** The further properties on scenarios *)

Lemma run_conversation_without_checkpoint_witness :
  exists s2,
    Supervisor.run_conversation ticking flat uuid open_house "conv-1" (Some two_nodes)
                                false (sys0 EmptyString) = (Ok 1%nat, s2) /\
    files (world s2) = [] /\
    checkpoints (heap (world s2) 1%nat) = [].
Proof.
  eexists. split.
  - eapply (run_conversation_without_checkpoint ticking flat uuid open_house "conv-1"
              two_nodes false (sys0 EmptyString));
      [reflexivity | reflexivity | reflexivity | now left].
  - split; reflexivity.
Defined.

Lemma save_checkpoint_then_load_witness :
  let saved := Supervisor.save_checkpoint ticking flat uuid open_house O (Some "cp-1")
                                          (sys0 "conv-1") in
  fst saved = Ok "cp-1" /\
  exists s',
    Supervisor.load_checkpoint open_house "cp-1" (snd saved) = Some (Ok (Some 1%nat), s') /\
    heap (world s') 1%nat = State.new "conv-1".
Proof.
  intros saved.
  destruct (save_checkpoint_then_load ticking flat uuid open_house O "cp-1" (sys0 "conv-1")
              (mkDatetime 2025 1 5 9 3 0 0) 1%nat ltac:(discriminate) eq_refl eq_refl
              eq_refl)
    as (Hret & _ & _ & _ & s' & Hload & Hheap & _).
  split; [exact Hret|]. exists s'. split; [exact Hload | exact Hheap].
Defined.

Lemma rollback_and_load_checkpoint_witness :
  Supervisor.rollback_to_checkpoint open_house "cp" (mkSys (store stateless) [])
    = Some (Ok None, mkSys (store stateless) []) /\
  Supervisor.load_checkpoint open_house "cp" (mkSys (store stateless) [])
    = Some (Raise (Exn KeyError "'conversation_id'"), mkSys (store stateless) []).
Proof.
  exact (proj2 (rollback_and_load_checkpoint open_house "cp" (mkSys (store stateless) [])
                  [("metadata", JObj [("checkpoint_id", JStr "cp")])]
                  eq_refl ltac:(discriminate)) eq_refl).
Defined.

Lemma supervisor_opa_unreachable_denies_witness :
  exists self,
    fst (Supervisor.__init__ post_unreachable None None true "http://localhost:8181/"
                             (env (world opa_sys))) = Ok self /\
    error (heap (world (snd (Supervisor.run_conversation stopped flat fixed_uuid self
                               "conv-1" None true
                               (with_env (OPAHttpPolicyEnforcer.new "http://localhost:8181/"
                                            "v1/data/authz/allow" 5, tt) opa_sys))))
                1%nat)
      = Some "Policy denied conversation execution".
Proof.
  destruct (supervisor_opa_unreachable_denies post_unreachable stopped flat fixed_uuid
              None "http://localhost:8181/" "conv-1" None true opa_sys
              (Exn ClientError "Connection failed") tt eq_refl)
    as (self & Hbuilt & _ & Hheap & _).
  exists self. split; [now rewrite Hbuilt|].
  rewrite Hbuilt in Hheap. cbn [snd] in Hheap.
  apply (f_equal error) in Hheap. exact Hheap.
Defined.

Lemma supervisor_bare_opa_raises_witness :
  exists self,
    fst (Supervisor.__init__ post_unreachable None
           (Some (OPAHttpPolicyEnforcer.as_enforcer post_unreachable)) false
           "http://localhost:8181" (env (world opa_sys))) = Ok self /\
    fst (Supervisor.run_conversation stopped flat fixed_uuid self "conv-1" None true opa_sys)
      = Raise (Exn ClientError "Connection failed").
Proof.
  destruct (supervisor_bare_opa_raises post_unreachable stopped flat fixed_uuid
              None false "http://localhost:8181" "conv-1" None true opa_sys
              (Exn ClientError "Connection failed") tt eq_refl)
    as (self & Hbuilt & Hraise & _).
  exists self. split; [now rewrite Hbuilt | exact Hraise].
Defined.




Lemma rollback_returns_saved_state_witness :
  let w1 := snd (CheckpointStore.save ticking flat "rollback-test"
                                      (of_json (to_dict conv1)) None empty_world) in
  CheckpointStore.rollback "rollback-test" w1 = (Ok (to_dict conv1), w1).
Proof.
  exact (proj1 (rollback_returns_saved_state ticking flat "rollback-test"
                  (of_json (to_dict conv1)) None empty_world
                  (mkDatetime 2025 1 5 9 3 7 0) 8%nat (to_dict conv1) []
                  eq_refl eq_refl eq_refl eq_refl)).
Defined.

Lemma saved_checkpoint_is_listed_witness :
  let w1 := snd (CheckpointStore.save ticking flat "checkpoint-4"
                                      (of_json (to_dict conv1)) None
                                      (store three_units)) in
  exists result,
    CheckpointStore.list_checkpoints (Some "conv-1") w1 = (Ok result, w1) /\
    In (summary_of "checkpoint-4"
          (JObj [("state", to_dict conv1);
                 ("metadata", JObj (stamped None (mkDatetime 2025 1 5 9 3 0 0)
                                            "checkpoint-4"))]))
       result.
Proof.
  intros w1.
  destruct (saved_checkpoint_is_listed ticking flat "checkpoint-4"
              (of_json (to_dict conv1))
              [("conversation_id", JStr "conv-1");
               ("messages", JArr [JObj [("text", JStr "test message")]]);
               ("metadata", JObj []); ("checkpoints", JArr []);
               ("current_step", JStr "step1"); ("error", JNull)]
              None [] (Some "conv-1") (store three_units)
              (mkDatetime 2025 1 5 9 3 0 0) 1%nat
              eq_refl eq_refl eq_refl ltac:(constructor) eq_refl eq_refl eq_refl)
    as (_ & _ & _ & result & Hlist & Hin & _).
  exists result. split; [exact Hlist | exact Hin].
Defined.

Lemma list_checkpoints_raises_without_timestamp_witness :
  exists e,
    CheckpointStore.list_checkpoints (Some "conv-1")
      (store [("old", undated "old" "conv-1");
              ("checkpoint-1", unit_at "checkpoint-1" "conv-1"
                                       "2025-01-05T09:03:07+00:00")])
    = (Raise e,
       store [("old", undated "old" "conv-1");
              ("checkpoint-1", unit_at "checkpoint-1" "conv-1"
                                       "2025-01-05T09:03:07+00:00")]) /\
    exn_class e = TypeError.
Proof.
  apply (list_checkpoints_raises_without_timestamp (U := nat) (Some "conv-1")
           (store [("old", undated "old" "conv-1");
                   ("checkpoint-1", unit_at "checkpoint-1" "conv-1"
                                            "2025-01-05T09:03:07+00:00")])).
  - reflexivity.
  - cbn. constructor; [right; reflexivity|].
    constructor; [left; eexists; reflexivity | constructor].
  - cbn. lia.
  - cbn. left. reflexivity.
Defined.


Lemma processing_node_replies_witness :
  let node := Nodes.create_processing_node stopped fixed_uuid text_str None in
  messages (heap (snd (call node O asked_world)) O) =
  messages asked ++
  [node_message Fipa.INFORM (JStr "user") (JObj [("text", JStr "Processed: hi")])
                "conv-1" (JStr "m-1") noon "9f2c4e1ab07d4c55a1e3b6f0c2d4e6f8"].
Proof.
  edestruct (processing_node_replies (U := nat) stopped fixed_uuid text_str None O
               asked_world)
    as (_ & Hmsgs & _);
    [reflexivity | reflexivity | reflexivity | reflexivity | reflexivity | reflexivity |].
  exact Hmsgs.
Defined.

Lemma default_workflow_exchange_witness :
  let nodes := [("greeting", Nodes.create_greeting_node stopped fixed_uuid);
                ("processing", Nodes.create_processing_node stopped fixed_uuid text_str None);
                ("finalize", Nodes.finalize_node stopped fixed_uuid)] in
  let out := run_graph default_config nodes O None (sys0 "conv-1") in
  fst out = Ok O /\
  trace (snd out) = [EvAttempt "greeting"; EvAttempt "processing"; EvAttempt "finalize"] /\
  current_step (heap (world (snd out)) O) = Some "completed".
Proof.
  intros nodes out.
  destruct (default_workflow_exchange (U := nat) stopped fixed_uuid text_str default_config)
    with (n := 3%nat) (l := O) (s := sys0 "conv-1") (cid := "conv-1")
    as (Hret & Htr & _ & _ & Hstep & _).
  - intros u. now exists "9f2c4e1ab07d4c55a1e3b6f0c2d4e6f8", u.
  - intros u. now exists noon, u.
  - reflexivity.
  - reflexivity.
  - reflexivity.
  - lia.
  - reflexivity.
  - split; [exact Hret|]. split; [exact Htr | exact Hstep].
Defined.

Lemma error_handler_silent_in_graph_witness :
  run_graph default_config handler_only O (Some ["handler"]) errored_sys
    = (Ok O, errored_sys).
Proof.
  exact (proj1 (error_handler_silent_in_graph (U := nat) stopped fixed_uuid default_config
                  handler_only O errored_sys (Some ["handler"]) [] "handler" [] O
                  errored_sys eq_refl eq_refl eq_refl eq_refl) eq_refl).
Defined.
